(** * Poker equity analyzer: the presentation layer, embedded and verified

    The repository ships the React front-end of the equity calculator:
    [EquityHeatmap], [EquityTrends], [KeyInsights] and the [Home] page that
    fetches the persisted artifact.  This development embeds the functions
    of these components and proves the properties the specification states
    about them.

    Modelling conventions.
    - A JavaScript number is an IEEE-754 binary64 value: [spec_float] with
      precision 53 and maximal exponent 1024, with the arithmetic of
      [SpecFloat] (round to nearest, ties to even).
    - The artifact is the parsed JSON document: [hands] maps a hand label
      to an object that maps a [players_N] key to a sub-entry carrying a
      numeric [equity].  An absent property reads as [undefined], which is
      [None] here; reading a property of [undefined] raises a [TypeError].
    - [Array.prototype.sort] belongs to the JavaScript engine: it is a
      parameter of the model, constrained by the conditions ECMA-262 puts
      on it.  With a comparator that is not consistent (here: with an
      average that is NaN or infinite) the standard leaves the order to
      the engine, and so does the model.
    - A component body is a computation in a state-and-exception monad
      over the heap of JavaScript objects: the [data] prop is a reference
      to the artifact, shared with the caller; the objects a component
      creates get new references, and a write names the reference it
      writes to. *)

From Stdlib Require Import ZArith Lia List Bool Sorted.
From Stdlib Require Import Floats.SpecFloat.
From stdpp Require Import base option list strings pretty gmap.

Local Open Scope Z_scope.

(** ** JavaScript numbers *)

Module Num.

Definition prec : Z := 53.
Definition emax : Z := 1024.

Definition number : Type := spec_float.

(** The binary64 value of an integer literal. *)
Definition ofZ (z : Z) : number := binary_normalize prec emax z 0 false.

Definition add (x y : number) : number := SFadd prec emax x y.
Definition sub (x y : number) : number := SFsub prec emax x y.
Definition mul (x y : number) : number := SFmul prec emax x y.
Definition div (x y : number) : number := SFdiv prec emax x y.

(** [x <= y], [x >= y], [x > y]: false as soon as one side is NaN. *)
Definition leb (x y : number) : bool := SFleb x y.
Definition geb (x y : number) : bool := SFleb y x.
Definition gtb (x y : number) : bool := SFltb y x.

(** The values a JavaScript engine can hold. *)
Definition valid (x : number) : bool := valid_binary prec emax x.

Definition zero : number := S754_zero false.

(** The mantissa of a finite number fits the 53 bits of the format. *)
Definition mantissaFits (x : number) : Prop :=
  match x with
  | S754_finite _ m _ => Z.pos m < 2 ^ 53
  | _ => True
  end.

(** [10^21] as an integer: from there on [toFixed] defers to [ToString]. *)
Definition ten21 : Z := 10 ^ 21.

(** The integer [n] for which [n / 10 - |x|] is closest to zero, the
    larger one on a tie, for [|x| = m * 2^e]. *)
Definition tenths (m : positive) (e : Z) : Z :=
  if 0 <=? e then 10 * Z.pos m * 2 ^ e
  else (20 * Z.pos m + 2 ^ (- e)) / 2 ^ (1 - e).

(** [|x| >= 10^21] for [|x| = m * 2^e]. *)
Definition atLeastTen21 (m : positive) (e : Z) : bool :=
  if 0 <=? e then ten21 <=? Z.pos m * 2 ^ e
  else ten21 * 2 ^ (- e) <=? Z.pos m.

(** Decimal digits of [n / 10] followed by a point and the last digit. *)
Definition fixed1Digits (n : Z) : string :=
  pretty (n / 10) +:+ "." +:+ pretty (n mod 10).

(** *** [Number::toString] for a finite number of magnitude [>= 10^21]

    Such a number is the integer [N = m * 2^e] with [e > 0].  The result
    is the shortest decimal [s * 10^(n-k)] ([k] digits) that reads back
    as the same number, the closest to [N] among those of that length,
    an even [s] on a tie, printed in exponential notation. *)

(** [v] reads back as [m * 2^e]: it lies within half a gap of it, the
    end points included when [m] is even. *)
Definition readsBack (m : positive) (e : Z) (v : Z) : bool :=
  let N := Z.pos m * 2 ^ e in
  let up := 2 ^ e in
  let down := if Z.pos m =? 2 ^ 52 then 2 ^ (e - 1) else 2 ^ e in
  if Z.even (Z.pos m)
  then (2 * N - down <=? 2 * v) && (2 * v <=? 2 * N + up)
  else (2 * N - down <? 2 * v) && (2 * v <? 2 * N + up).

Definition decimalLength (n : Z) : Z := Z.of_nat (String.length (pretty n)).

(** The [k]-digit candidates [(s, n)] around [N]. *)
Definition candidates (m : positive) (e : Z) (k : Z) : list (Z * Z) :=
  let N := Z.pos m * 2 ^ e in
  let d := decimalLength N in
  List.filter
    (fun sn : Z * Z =>
       let '(s, n) := sn in
       (10 ^ (k - 1) <=? s) && (s <? 10 ^ k) && readsBack m e (s * 10 ^ (n - k)))
    (List.flat_map
       (fun n => let s := N / 10 ^ (n - k) in [(s, n); (s + 1, n)])
       [d; d + 1]).

(** [a] is at least as good a choice as [b]. *)
Definition closer (N k : Z) (a b : Z * Z) : bool :=
  let dist (sn : Z * Z) := Z.abs (fst sn * 10 ^ (snd sn - k) - N) in
  (dist a <? dist b) || ((dist a =? dist b) && Z.even (fst a)).

Definition best (N k : Z) (cs : list (Z * Z)) : option (Z * Z) :=
  List.fold_left
    (fun acc c =>
       match acc with
       | None => Some c
       | Some a => if closer N k a c then Some a else Some c
       end)
    cs None.

Fixpoint shortest (m : positive) (e : Z) (ks : list Z) : option (Z * Z * Z) :=
  match ks with
  | [] => None
  | k :: ks' =>
      match best (Z.pos m * 2 ^ e) k (candidates m e k) with
      | Some (s, n) => Some (s, n, k)
      | None => shortest m e ks'
      end
  end.

Definition exponential (s n k : Z) : string :=
  match pretty s with
  | String c rest =>
      (if k =? 1 then String c "" else String c ("." +:+ rest))
        +:+ "e+" +:+ pretty (n - 1)
  | EmptyString => ""
  end.

Definition toStringLarge (m : positive) (e : Z) : string :=
  match shortest m e (List.map Z.of_nat (List.seq 1 17)) with
  | Some (s, n, k) => exponential s n k
  | None => ""
  end.

(** *** [Number.prototype.toFixed(1)] *)
Definition toFixed1 (x : number) : string :=
  match x with
  | S754_nan => "NaN"
  | S754_infinity s => if s then "-Infinity" else "Infinity"
  | S754_zero _ => "0.0"
  | S754_finite s m e =>
      (if s then "-" else "") +:+
      (if atLeastTen21 m e then toStringLarge m e
       else fixed1Digits (tenths m e))
  end.

End Num.

Abbreviation number := Num.number.

Global Arguments Num.ofZ : simpl never.
Global Arguments Num.add : simpl never.
Global Arguments Num.sub : simpl never.
Global Arguments Num.mul : simpl never.
Global Arguments Num.div : simpl never.
Global Arguments Num.toFixed1 : simpl never.

(** ** Exceptions and property reads *)

Inductive Exn : Type :=
  | TypeError (property : string).

Inductive Result (A : Type) : Type :=
  | Ok (a : A)
  | Throw (e : Exn).
Arguments Ok {A} a.
Arguments Throw {A} e.

Global Instance Result_ret : MRet Result := @Ok.
Global Instance Result_bind : MBind Result :=
  fun A B f r => match r with Ok a => f a | Throw e => Throw e end.

(** ** The artifact *)

Record PlayerData : Type := { equity : number }.

Record Metadata : Type := { num_simulations : number }.

Record EquityData : Type := {
  hands : gmap string (gmap string PlayerData);
  metadata : Metadata
}.

(** A JavaScript value that may be [undefined] is truthy when it is there:
    the values of the artifact read this way are objects. *)
Definition truthy {A} (v : option A) : bool :=
  match v with Some _ => true | None => false end.

(** [o[k]]: [undefined] when the object has no such property; a
    [TypeError] when [o] itself is [undefined]. *)
Definition getProp {V} (o : option (gmap string V)) (k : string) : Result (option V) :=
  match o with
  | Some m => Ok (m !! k)
  | None => Throw (TypeError k)
  end.

(** [p.equity] *)
Definition getEquityField (p : option PlayerData) : Result number :=
  match p with
  | Some d => Ok (equity d)
  | None => Throw (TypeError "equity")
  end.

(** Every equity of the artifact is a binary64 number in [0,1]. *)
Definition inUnitInterval (x : number) : Prop :=
  Num.valid x = true /\ Num.leb Num.zero x = true /\ Num.leb x (Num.ofZ 1) = true.

Global Instance inUnitInterval_dec (x : number) : Decision (inUnitInterval x).
Proof. unfold inUnitInterval. apply _. Defined.

Definition equitiesInUnitInterval (data : EquityData) : Prop :=
  map_Forall
    (fun _ (handData : gmap string PlayerData) =>
       map_Forall (fun _ playerData => inUnitInterval (equity playerData)) handData)
    (hands data).

Global Instance equitiesInUnitInterval_dec (data : EquityData) :
  Decision (equitiesInUnitInterval data).
Proof. unfold equitiesInUnitInterval. apply _. Defined.

(** The template literal [`players_${n}`]. *)
Definition playersKey (n : Z) : string := "players_" +:+ pretty n.

(** A loop with an accumulator, left to right, stopped by an exception. *)
Fixpoint forEach {S A} (f : S -> A -> Result S) (l : list A) (s : S) : Result S :=
  match l with
  | [] => Ok s
  | x :: l' => s' ← f s x; forEach f l' s'
  end.

(** The index and the element handed to the callback of [Array.prototype.map]. *)
Definition entries {A} (l : list A) : list (nat * A) := imap pair l.

(** ** Array.prototype.sort

    The method is the engine's.  ECMA-262 fixes the order of its result
    only for a consistent comparator, and leaves it to the implementation
    otherwise; this module states the conditions of the standard.
    [stableSort] is one function that meets them; it is not the method of
    any engine in particular. *)

Module ArraySort.

Definition isNaN (v : number) : bool :=
  match v with S754_nan => true | _ => false end.
(** [v] is [+0] or [-0]. *)
Definition isZero (v : number) : bool :=
  match v with S754_zero _ => true | _ => false end.
(** [v] is neither NaN nor an infinity. *)
Definition isFinite (v : number) : bool :=
  match v with S754_zero _ | S754_finite _ _ _ => true | _ => false end.

(** A finite number whose exponent the format has: zero, or a mantissa
    with an exponent of at least -1074. *)
Definition inFormat (v : number) : Prop :=
  match v with
  | S754_zero _ => True
  | S754_finite _ _ e => -1074 <= e
  | _ => False
  end.

(** A number of the format as a multiple of [2^-1074], the least positive
    number. *)
Definition scaled (v : number) : Z :=
  match v with
  | S754_finite s m e => cond_Zopp s (Z.pos m * 2 ^ (e + 1074))
  | _ => 0
  end.

(** [v < 0], [v > 0] *)
Definition isNegative (v : number) : bool := SFltb v Num.zero.
Definition isPositive (v : number) : bool := SFltb Num.zero v.

Section Comparator.
Context {A : Type} (comparefn : A -> A -> number).

(** [SortCompare(x, y)] for two defined elements: the value of the
    comparator, [+0] when that is NaN. *)
Definition SortCompare (x y : A) : number :=
  let v := comparefn x y in
  if isNaN v then Num.zero else v.

(** [a <CF b], [a =CF b], [a >CF b] *)
Definition lessCF (a b : A) : Prop := isNegative (comparefn a b) = true.
Definition sameCF (a b : A) : Prop := isZero (comparefn a b) = true.
Definition greaterCF (a b : A) : Prop := isPositive (comparefn a b) = true.

(** The requirements on a consistent comparator, for three values: the
    result is a number that is not NaN; [=CF] is reflexive, symmetric and
    transitive; [<CF] and [>CF] are transitive.  (The comparators of this
    development are functions: they return the same value on the same
    arguments and change no object.) *)
Definition consistentAt (a b c : A) : Prop :=
  isNaN (comparefn a b) = false /\
  sameCF a a /\
  (sameCF a b -> sameCF b a) /\
  (sameCF a b -> sameCF b c -> sameCF a c) /\
  (lessCF a b -> lessCF b c -> lessCF a c) /\
  (greaterCF a b -> greaterCF b c -> greaterCF a c).

(** [comparefn] is a consistent comparator for the elements of [S]. *)
Definition consistentComparator (S : list A) : Prop :=
  Forall (fun a => Forall (fun b => Forall (fun c => consistentAt a b c) S) S) S.

(** The sort order the standard requires of [new] for the array [old].
    [t] is [new] with, beside each element, the index it had in [old]:
    the permutation of the standard sends [i] to the position of the
    element tagged [i].  An element that compares below another stands
    before it, and elements that compare equal keep their order. *)
Definition sortOrder (old new : list A) : Prop :=
  exists t : list (nat * A),
    t ≡ₚ imap pair old /\
    new = t.*2 /\
    forall (p q i j : nat) (x y : A),
      t !! p = Some (i, x) -> t !! q = Some (j, y) ->
      (isNegative (SortCompare x y) = true -> (p < q)%nat) /\
      (isZero (SortCompare x y) = true -> (i < j)%nat -> (p < q)%nat).

(** A sort that meets the conditions: insertion from the right, an
    element moving past the ones it compares above. *)
Fixpoint insertSorted (x : A) (l : list A) : list A :=
  match l with
  | [] => [x]
  | y :: l' =>
      if isPositive (SortCompare x y) then y :: insertSorted x l'
      else x :: l
  end.

Definition stableSort (l : list A) : list A := foldr insertSorted [] l.

(** [a], an element with its index, is to stand before [b]. *)
Definition before (a b : nat * A) : Prop :=
  lessCF a.2 b.2 \/ (sameCF a.2 b.2 /\ (a.1 < b.1)%nat).

(** The conditions of [sortOrder] on an array of tagged elements. *)
Definition placed (t : list (nat * A)) : Prop :=
  forall (p q : nat) (a b : nat * A),
    t !! p = Some a -> t !! q = Some b -> before a b -> (p < q)%nat.

(** The comparator on tagged elements. *)
Definition comparefnT (a b : nat * A) : number := comparefn a.2 b.2.

End Comparator.

Global Instance consistentAt_dec {A} (comparefn : A -> A -> number) (a b c : A) :
  Decision (consistentAt comparefn a b c).
Proof. unfold consistentAt, sameCF, lessCF, greaterCF. apply _. Defined.

Global Instance consistentComparator_dec {A} (comparefn : A -> A -> number)
    (S : list A) : Decision (consistentComparator comparefn S).
Proof. unfold consistentComparator. apply _. Defined.

(** The method of an engine: from the comparator and the elements of the
    array to the elements after the call. *)
Definition Sort : Type :=
  forall A : Type, (A -> A -> number) -> list A -> list A.

(** What the standard requires of every engine: the array keeps its
    elements, and they are in the sort order when the comparator is
    consistent for them; otherwise the order is implementation-defined. *)
Definition conforming (sort : Sort) : Prop :=
  forall (A : Type) (comparefn : A -> A -> number) (items : list A),
    sort A comparefn items ≡ₚ items /\
    (consistentComparator comparefn items ->
     sortOrder comparefn items (sort A comparefn items)).

Definition reference : Sort := fun A comparefn => stableSort comparefn.

End ArraySort.

(** ** EquityHeatmap *)

Module EquityHeatmap.

Definition ranks : list string :=
  ["A"; "K"; "Q"; "J"; "T"; "9"; "8"; "7"; "6"; "5"; "4"; "3"; "2"].

(** [ranks[i]] inside a template literal. *)
Definition rankAt (i : nat) : string := default "undefined" (ranks !! i).

Definition getHandName (row col : nat) : string :=
  if (row =? col)%nat then rankAt row +:+ rankAt col
  else if (row <? col)%nat then rankAt row +:+ rankAt col +:+ "s"
  else rankAt col +:+ rankAt row +:+ "o".

Definition getEquity (data : EquityData) (playerCount : Z) (hand : string)
  : Result number :=
  handData ← getProp (Some (hands data)) hand;
  if negb (truthy handData) then mret Num.zero
  else
    playerData ← getProp handData (playersKey playerCount);
    if truthy playerData
    then e ← getEquityField playerData; mret (Num.mul e (Num.ofZ 100))
    else mret Num.zero.

(** The specification of [getEquity]: zero for a missing hand or a missing
    table size, the equity as a percentage otherwise. *)
Definition percentOrZero (data : EquityData) (playerCount : Z) (hand : string)
  : number :=
  match hands data !! hand with
  | None => Num.zero
  | Some handData =>
      match handData !! playersKey playerCount with
      | None => Num.zero
      | Some playerData => Num.mul (equity playerData) (Num.ofZ 100)
      end
  end.

(** [premiumThreshold], [strongThreshold], [playableThreshold] *)
Definition thresholds (playerCount : Z) : number * number * number :=
  if playerCount =? 2 then (Num.ofZ 50, Num.ofZ 40, Num.ofZ 30)
  else if playerCount =? 3 then (Num.ofZ 40, Num.ofZ 30, Num.ofZ 22)
  else if playerCount =? 4 then (Num.ofZ 35, Num.ofZ 27, Num.ofZ 20)
  else if playerCount =? 5 then (Num.ofZ 30, Num.ofZ 23, Num.ofZ 17)
  else (Num.ofZ 27, Num.ofZ 20, Num.ofZ 15).

Definition getColor (playerCount : Z) (equity : number) : string :=
  let '(premiumThreshold, strongThreshold, playableThreshold) :=
    thresholds playerCount in
  if Num.geb equity (Num.add premiumThreshold (Num.ofZ 10)) then "bg-emerald-600"
  else if Num.geb equity (Num.add premiumThreshold (Num.ofZ 5)) then "bg-emerald-500"
  else if Num.geb equity premiumThreshold then "bg-green-500"
  else if Num.geb equity (Num.add strongThreshold (Num.ofZ 5)) then "bg-green-400"
  else if Num.geb equity strongThreshold then "bg-lime-400"
  else if Num.geb equity (Num.add playableThreshold (Num.ofZ 5)) then "bg-yellow-400"
  else if Num.geb equity playableThreshold then "bg-yellow-500"
  else if Num.geb equity (Num.sub playableThreshold (Num.ofZ 5)) then "bg-orange-400"
  else if Num.geb equity (Num.sub playableThreshold (Num.ofZ 10)) then "bg-orange-500"
  else if Num.geb equity (Num.sub playableThreshold (Num.ofZ 15)) then "bg-red-400"
  else "bg-red-500".

Definition getTextColor (equity : number) : string :=
  if Num.geb equity (Num.ofZ 15) then "text-white" else "text-gray-800".

(** One [<td>] of the grid. *)
Record Cell : Type := {
  className : string;
  title : string;
  label : string;
  text : string
}.

Definition renderCell (data : EquityData) (playerCount : Z) (rowIdx colIdx : nat)
  : Result Cell :=
  let hand := getHandName rowIdx colIdx in
  equity ← getEquity data playerCount hand;
  mret {| className := "border border-gray-300 p-2 text-center "
                         +:+ getColor playerCount equity +:+ " "
                         +:+ getTextColor equity;
          title := hand +:+ ": " +:+ Num.toFixed1 equity +:+ "% equity";
          label := hand;
          text := Num.toFixed1 equity +:+ "%" |}.

(** The [<tbody>]: [ranks.map] over the rows, [ranks.map] over the columns. *)
Definition renderGrid (data : EquityData) (playerCount : Z)
  : Result (list (list Cell)) :=
  mapM (fun '(rowIdx, rowRank) =>
          mapM (fun '(colIdx, colRank) => renderCell data playerCount rowIdx colIdx)
               (entries ranks))
       (entries ranks).

(** The cell [renderCell] arrives at for an equity already read. *)
Definition cellOf (playerCount : Z) (hand : string) (equity : number) : Cell :=
  {| className := "border border-gray-300 p-2 text-center "
                    +:+ getColor playerCount equity +:+ " "
                    +:+ getTextColor equity;
     title := hand +:+ ": " +:+ Num.toFixed1 equity +:+ "% equity";
     label := hand;
     text := Num.toFixed1 equity +:+ "%" |}.

(** The labels of the grid, row by row. *)
Definition gridLabels : list string :=
  concat (imap (fun rowIdx _ => imap (fun colIdx _ => getHandName rowIdx colIdx) ranks) ranks).

(** The table sizes of the selector buttons, and the state they drive:
    [playerCount] starts at 6 and a click sets it to the button's count. *)
Definition playerCounts : list Z := [2; 3; 4; 5; 6].

Definition initialPlayerCount : Z := 6.

(** The key of the sub-entry of each table size, as the artifact names
    it: "players_2" to "players_6". *)
Definition subEntryKeys : list (Z * string) :=
  [(2, "players_2"); (3, "players_3"); (4, "players_4");
   (5, "players_5"); (6, "players_6")].

Inductive reachable : Z -> Prop :=
  | reachable_initial : reachable initialPlayerCount
  | reachable_click (playerCount count : Z) :
      reachable playerCount -> count ∈ playerCounts -> reachable count.

(** The 11 colour classes, from the weakest band to the strongest. *)
Definition colorClasses : list string :=
  ["bg-red-500"; "bg-red-400"; "bg-orange-500"; "bg-orange-400";
   "bg-yellow-500"; "bg-yellow-400"; "bg-lime-400"; "bg-green-400";
   "bg-green-500"; "bg-emerald-500"; "bg-emerald-600"].

(** The branch cutoffs of [getColor], in the order they are tested. *)
Definition cutoffs (playerCount : Z) : list number :=
  let '(premiumThreshold, strongThreshold, playableThreshold) :=
    thresholds playerCount in
  [Num.add premiumThreshold (Num.ofZ 10);
   Num.add premiumThreshold (Num.ofZ 5);
   premiumThreshold;
   Num.add strongThreshold (Num.ofZ 5);
   strongThreshold;
   Num.add playableThreshold (Num.ofZ 5);
   playableThreshold;
   Num.sub playableThreshold (Num.ofZ 5);
   Num.sub playableThreshold (Num.ofZ 10);
   Num.sub playableThreshold (Num.ofZ 15)].

(** The number of cutoffs tested before the first one [equity] reaches. *)
Fixpoint firstMatch (equity : number) (cs : list number) : nat :=
  match cs with
  | [] => 0
  | c :: cs' => if Num.geb equity c then 0%nat else S (firstMatch equity cs')
  end.

(** Position of a class in [colorClasses]. *)
Fixpoint indexOf (c : string) (l : list string) : nat :=
  match l with
  | [] => 0
  | c' :: l' => if String.eqb c c' then 0%nat else S (indexOf c l')
  end.

Definition bandIndex (c : string) : nat := indexOf c colorClasses.

(** Every pair of neighbours of the list satisfies [lt]. *)
Fixpoint chain (lt : number -> number -> bool) (l : list number) : bool :=
  match l with
  | x :: (y :: _) as l' => lt x y && chain lt l'
  | _ => true
  end.

(** One entry of the legend. *)
Record LegendCategory : Type := {
  color : string;
  legendLabel : string
}.

Definition getLegendCategories (playerCount : Z) : list LegendCategory :=
  if playerCount =? 2 then
    [ {| color := "bg-green-500"; legendLabel := "Premium (50%+)" |};
      {| color := "bg-yellow-400"; legendLabel := "Strong (40-50%)" |};
      {| color := "bg-orange-400"; legendLabel := "Playable (30-40%)" |};
      {| color := "bg-red-400"; legendLabel := "Weak (<30%)" |} ]
  else if playerCount =? 3 then
    [ {| color := "bg-green-500"; legendLabel := "Premium (40%+)" |};
      {| color := "bg-yellow-400"; legendLabel := "Strong (30-40%)" |};
      {| color := "bg-orange-400"; legendLabel := "Playable (22-30%)" |};
      {| color := "bg-red-400"; legendLabel := "Weak (<22%)" |} ]
  else if playerCount =? 4 then
    [ {| color := "bg-green-500"; legendLabel := "Premium (35%+)" |};
      {| color := "bg-yellow-400"; legendLabel := "Strong (27-35%)" |};
      {| color := "bg-orange-400"; legendLabel := "Playable (20-27%)" |};
      {| color := "bg-red-400"; legendLabel := "Weak (<20%)" |} ]
  else if playerCount =? 5 then
    [ {| color := "bg-green-500"; legendLabel := "Premium (30%+)" |};
      {| color := "bg-yellow-400"; legendLabel := "Strong (23-30%)" |};
      {| color := "bg-orange-400"; legendLabel := "Playable (17-23%)" |};
      {| color := "bg-red-400"; legendLabel := "Weak (<17%)" |} ]
  else
    [ {| color := "bg-green-500"; legendLabel := "Premium (27%+)" |};
      {| color := "bg-yellow-400"; legendLabel := "Strong (20-27%)" |};
      {| color := "bg-orange-400"; legendLabel := "Playable (15-20%)" |};
      {| color := "bg-red-400"; legendLabel := "Weak (<15%)" |} ].

(** One button of the table-size selector: its class, its caption and the
    table size its click hands to [setPlayerCount]. *)
Record SelectorButton : Type := {
  buttonClass : string;
  caption : string;
  onClick : Z
}.

Definition selectedClass : string := "bg-blue-600 text-white shadow-lg".
Definition unselectedClass : string := "bg-gray-200 text-gray-700 hover:bg-gray-300".

Definition selectorButton (playerCount count : Z) : SelectorButton :=
  {| buttonClass := "px-6 py-2 rounded-lg font-semibold transition-all "
                      +:+ (if playerCount =? count then selectedClass
                           else unselectedClass);
     caption := if count =? 2 then "Heads-Up"
                else if count =? 6 then "6-Max"
                else pretty count +:+ "-Handed";
     onClick := count |}.

Definition selectorButtons (playerCount : Z) : list SelectorButton :=
  map (selectorButton playerCount) playerCounts.

End EquityHeatmap.

(** ** Starting-hand classes

    The 169 classes as the specification describes them, independently of
    the grid: a pair has one rank, the other classes two distinct ranks,
    the higher first, and a suitedness.  A rank is its value, deuce [2] to
    ace [14]. *)

Module StartingHand.

Inductive Class : Type :=
  | Pair (r : Z)
  | Suited (hi lo : Z)
  | Offsuit (hi lo : Z).

Global Instance Class_eq_dec : EqDecision Class.
Proof. solve_decision. Defined.

Definition rankChar (r : Z) : string :=
  match r with
  | 14 => "A" | 13 => "K" | 12 => "Q" | 11 => "J" | 10 => "T"
  | 9 => "9" | 8 => "8" | 7 => "7" | 6 => "6" | 5 => "5"
  | 4 => "4" | 3 => "3" | 2 => "2"
  | _ => "?"
  end.

(** The value of a rank character; [0] for anything else. *)
Definition rankValue (c : string) : Z :=
  default 0 (List.find (fun r => String.eqb (rankChar r) c)
                       [14; 13; 12; 11; 10; 9; 8; 7; 6; 5; 4; 3; 2]).

(** The label of the artifact: higher rank first, then the suffix. *)
Definition classLabel (c : Class) : string :=
  match c with
  | Pair r => rankChar r +:+ rankChar r
  | Suited hi lo => rankChar hi +:+ rankChar lo +:+ "s"
  | Offsuit hi lo => rankChar hi +:+ rankChar lo +:+ "o"
  end.

(** Ranks from the ace down. *)
Definition allRanks : list Z := [14; 13; 12; 11; 10; 9; 8; 7; 6; 5; 4; 3; 2].

Definition pairs : list Class := map Pair allRanks.

Definition below (hi : Z) : list Z := List.filter (fun lo => lo <? hi) allRanks.

Definition suited : list Class :=
  List.flat_map (fun hi => map (Suited hi) (below hi)) allRanks.

Definition offsuit : list Class :=
  List.flat_map (fun hi => map (Offsuit hi) (below hi)) allRanks.

Definition classes : list Class := pairs ++ suited ++ offsuit.

(** The class shown at a cell of the grid: rank [14 - i] sits at index [i]. *)
Definition atCell (row col : nat) : Class :=
  let r := 14 - Z.of_nat row in
  let c := 14 - Z.of_nat col in
  if (row =? col)%nat then Pair r
  else if (row <? col)%nat then Suited r c
  else Offsuit c r.

End StartingHand.

(** ** EquityTrends *)

Module EquityTrends.

(** [Object.entries(handCategories)], in insertion order. *)
Definition handCategories : list (string * list string) :=
  [("Premium Pairs", ["AA"; "KK"; "QQ"]);
   ("High Cards", ["AKs"; "AQs"; "AJs"; "KQs"]);
   ("Mid Pairs", ["JJ"; "TT"; "99"; "88"]);
   ("Suited Connectors", ["JTs"; "T9s"; "98s"; "87s"])].

(** A property of a chart point: the number [players] or [0], or the
    string [toFixed] produces. *)
Inductive PointValue : Type :=
  | PNumber (x : number)
  | PString (s : string).

(** The body of [hands.forEach]: [sum] and [count] after one more hand.
    The counter stays a small integer, exact in binary64, and is kept as
    an integer here. *)
Definition accumulate (data : EquityData) (key : string)
    (acc : number * Z) (hand : string) : Result (number * Z) :=
  let '(sum, count) := acc in
  handData ← getProp (Some (hands data)) hand;
  if truthy handData then
    entry ← getProp handData key;
    if truthy entry then
      playerData ← getProp handData key;
      e ← getEquityField playerData;
      mret (Num.add sum (Num.mul e (Num.ofZ 100)), count + 1)
    else mret (sum, count)
  else mret (sum, count).

Definition sumAndCount (data : EquityData) (key : string) (hs : list string)
  : Result (number * Z) :=
  forEach (accumulate data key) hs (Num.zero, 0).

(** [point[category]] *)
Definition categoryValue (data : EquityData) (players : Z) (hs : list string)
  : Result PointValue :=
  '(sum, count) ← sumAndCount data (playersKey players) hs;
  mret (if 0 <? count
        then PString (Num.toFixed1 (Num.div sum (Num.ofZ count)))
        else PNumber (Num.ofZ 0)).

Definition chartPoint (data : EquityData) (players : Z)
  : Result (gmap string PointValue) :=
  forEach
    (fun (point : gmap string PointValue) '(category, hs) =>
       v ← categoryValue data players hs;
       mret (<[category := v]> point))
    handCategories
    {[ "players" := PNumber (Num.ofZ players) ]}.

(** The specification of the chart values.  The percentages of the hands
    of a category whose entry for the table size exists, in the order of
    the category: *)
Definition presentPercentages (data : EquityData) (key : string) (hs : list string)
  : list number :=
  omap (fun hand =>
          handData ← hands data !! hand;
          playerData ← handData !! key;
          Some (Num.mul (equity playerData) (Num.ofZ 100)))
       hs.

(** The arithmetic mean: the sum, taken from the left starting at zero,
    divided by the number of terms. *)
Definition mean (xs : list number) : number :=
  Num.div (fold_left Num.add xs Num.zero) (Num.ofZ (Z.of_nat (length xs))).

(** The mean through [toFixed(1)], or the number 0 when there is no term. *)
Definition meanValue (data : EquityData) (players : Z) (hs : list string)
  : PointValue :=
  match presentPercentages data (playersKey players) hs with
  | [] => PNumber (Num.ofZ 0)
  | xs => PString (Num.toFixed1 (mean xs))
  end.

Definition chartData (data : EquityData) : Result (list (gmap string PointValue)) :=
  mapM (chartPoint data) [2; 3; 4; 5; 6].

Record CategoryAverage : Type := {
  category : string;
  avgEquity : number
}.

Definition categoryAverage (data : EquityData) (entry : string * list string)
  : Result CategoryAverage :=
  let '(cat, hs) := entry in
  '(sum, count) ← sumAndCount data "players_6" hs;
  mret {| category := cat;
          avgEquity := if 0 <? count then Num.div sum (Num.ofZ count)
                       else Num.ofZ 0 |}.

Definition categoryAverages (data : EquityData) : Result (list CategoryAverage) :=
  mapM (categoryAverage data) handCategories.

(** The comparator [(a, b) => b.avgEquity - a.avgEquity]. *)
Definition compareFn (a b : CategoryAverage) : number :=
  Num.sub (avgEquity b) (avgEquity a).

(** [sortedCategories[i]] as a computed property key. *)
Definition keyAt (sortedCategories : list string) (i : nat) : string :=
  default "undefined" (sortedCategories !! i).

Definition colorMap (sortedCategories : list string) : gmap string string :=
  <[keyAt sortedCategories 3 := "#8b5cf6"]>
    (<[keyAt sortedCategories 2 := "#f59e0b"]>
       (<[keyAt sortedCategories 1 := "#3b82f6"]>
          (<[keyAt sortedCategories 0 := "#10b981"]> ∅))).

(** Legend labels with example hands. *)
Definition legendLabels : gmap string string :=
  <["Suited Connectors" := "Suited Connectors (JTs, T9s, 98s, 87s)"]>
    (<["Mid Pairs" := "Mid Pairs (JJ, TT, 99, 88)"]>
       (<["High Cards" := "High Cards (AK, AQ, AJ, KQ)"]>
          (<["Premium Pairs" := "Premium Pairs (AA, KK, QQ)"]> ∅))).

(** An entry of the payload the chart library hands to the legend. *)
Record PayloadEntry : Type := {
  value : string;
  payloadColor : string
}.

(** [sortedCategories.map(cat => payload.find(p => p.value === cat))
    .filter(Boolean)] *)
Definition sortedPayload (sortedCategories : list string) (payload : list PayloadEntry)
  : list PayloadEntry :=
  omap (fun cat => List.find (fun p => String.eqb (value p) cat) payload)
       sortedCategories.

(** The rows of the legend: the stroke of the sample line and the text,
    [legendLabels[entry.value]]. *)
Definition legendRows (sortedCategories : list string) (payload : list PayloadEntry)
  : list (string * option string) :=
  map (fun entry => (payloadColor entry, legendLabels !! value entry))
      (sortedPayload sortedCategories payload).

(** The order the comparator asks for between neighbours: [b] is not to
    move in front of [a]. *)
Definition inOrder (a b : CategoryAverage) : Prop :=
  ArraySort.isPositive (compareFn a b) = false.

(** The first entry of the payload with the value [cat]: the entries in
    front of it have other values. *)
Definition firstWith (cat : string) (entry : PayloadEntry) (payload : list PayloadEntry)
  : Prop :=
  exists front back,
    payload = front ++ entry :: back /\
    value entry = cat /\
    Forall (fun p => value p <> cat) front.

(** The entry of [categoryAverages] for a category, from the specification
    of the chart values. *)
Definition averageOf (data : EquityData) (entry : string * list string)
  : CategoryAverage :=
  {| category := entry.1;
     avgEquity := match presentPercentages data "players_6" entry.2 with
                  | [] => Num.ofZ 0
                  | xs => mean xs
                  end |}.

End EquityTrends.

(** ** KeyInsights *)

Module KeyInsights.

Record Insight : Type := {
  title : string;
  visual : list (string * string);
  text : string;
  strategy : string
}.

Definition percent (x : number) : string := Num.toFixed1 x +:+ "%".

(** [p.equity * 100] *)
Definition equity100 (p : option PlayerData) : Result number :=
  e ← getEquityField p; mret (Num.mul e (Num.ofZ 100)).

(** [data.hands[hand][key]] *)
Definition entryOf (data : EquityData) (hand key : string)
  : Result (option PlayerData) :=
  handData ← getProp (Some (hands data)) hand;
  getProp handData key.

Definition insights (data : EquityData) : Result (list Insight) :=
  aaData ← getProp (Some (hands data)) "AA";
  aa_hu ← (p ← getProp aaData "players_2"; equity100 p);
  aa_6max ← (p ← getProp aaData "players_6"; equity100 p);
  let aa_drop := Num.sub aa_hu aa_6max in
  aksData ← entryOf data "AKs" "players_6";
  akoData ← entryOf data "AKo" "players_6";
  aks_equity ← equity100 aksData;
  ako_equity ← equity100 akoData;
  let suited_bonus := Num.sub aks_equity ako_equity in
  kkData ← getProp (Some (hands data)) "KK";
  kk_hu ← (p ← getProp kkData "players_2"; equity100 p);
  kk_6max ← (p ← getProp kkData "players_6"; equity100 p);
  jjData ← entryOf data "JJ" "players_6";
  ttData ← entryOf data "TT" "players_6";
  jj_equity ← equity100 jjData;
  tt_equity ← equity100 ttData;
  aksData_hu ← entryOf data "AKs" "players_2";
  aksData_6max ← entryOf data "AKs" "players_6";
  aks_hu_equity ← equity100 aksData_hu;
  aks_6max_equity ← equity100 aksData_6max;
  a2sData ← entryOf data "A2s" "players_6";
  a2oData ← entryOf data "A2o" "players_6";
  a2s_equity ← equity100 a2sData;
  a2o_equity ← equity100 a2oData;
  _22Data_hu ← entryOf data "22" "players_2";
  _22Data_6max ← entryOf data "22" "players_6";
  _22_hu ← equity100 _22Data_hu;
  _22_6max ← equity100 _22Data_6max;
  qqData ← entryOf data "QQ" "players_6";
  qq_equity ← equity100 qqData;
  ajo_Data ← entryOf data "AJo" "players_6";
  kqsData ← entryOf data "KQs" "players_6";
  ajo_equity ← equity100 ajo_Data;
  kqs_equity ← equity100 kqsData;
  _77Data ← entryOf data "77" "players_6";
  akData ← entryOf data "AKo" "players_6";
  _77_equity ← equity100 _77Data;
  ak_equity ← equity100 akData;
  jtsData ← entryOf data "JTs" "players_6";
  aqoData ← entryOf data "AQo" "players_6";
  jts_equity ← equity100 jtsData;
  aqo_equity ← equity100 aqoData;
  mret
    [ {| title := "Premium Pairs Lose Value Multi-Way";
         visual := [(percent aa_hu, "Heads-up"); (percent aa_6max, "6-max")];
         text := "AA equity drops " +:+ Num.toFixed1 aa_drop
                   +:+ "% with more opponents";
         strategy := "Raise pre-flop to thin the field" |};
      {| title := "Suited Cards Add Value";
         visual := [(percent aks_equity, "AKs"); (percent ako_equity, "AKo")];
         text := "Suited gives +" +:+ Num.toFixed1 suited_bonus
                   +:+ "% equity at 6-max";
         strategy := "Suited matters, but high card ranks matter more" |};
      {| title := "Position is Power";
         visual := [("~5%", "")];
         text := "Equity advantage from late position";
         strategy := "Play 40% from button, 15% from early" |};
      {| title := "Small Pairs Need Deep Stacks";
         visual := [("15:1", "")];
         text := "Minimum implied odds to profitably set mine";
         strategy := "Fold 22-66 to raises without deep stacks" |};
      {| title := "KK Still Dominates Most Hands";
         visual := [(percent kk_6max, "6-max"); (percent kk_hu, "Heads-up")];
         text := "KK has " +:+ Num.toFixed1 kk_6max +:+ "% equity even at 6-max";
         strategy := "Kings are still premium - play them aggressively" |};
      {| title := "AK Suffers More Than Pairs";
         visual := [(percent aks_hu_equity, "Heads-up");
                    (percent aks_6max_equity, "6-max")];
         text := "AKs drops "
                   +:+ Num.toFixed1 (Num.sub aks_hu_equity aks_6max_equity)
                   +:+ "% from HU to 6-max";
         strategy := "Unpaired hands lose value faster than pocket pairs" |};
      {| title := "Mid Pairs Competitive with Big Cards";
         visual := [(percent _77_equity, "77"); (percent ak_equity, "AKo")];
         text := "77 has " +:+ Num.toFixed1 _77_equity +:+ "% equity vs AKo's "
                   +:+ Num.toFixed1 ak_equity +:+ "% at 6-max";
         strategy := "Pocket pairs hold value better than unpaired hands multiway" |};
      {| title := "Suited Connectors vs Offsuit Broadway";
         visual := [(percent jts_equity, "JTs"); (percent aqo_equity, "AQo")];
         text := "JTs and AQo have nearly identical equity at 6-max";
         strategy := "Connected cards have more playability than high cards" |};
      {| title := "Drawing Hands Improve Multiway";
         visual := [(percent jts_equity, "JTs 6-max"); (percent aqo_equity, "AQo 6-max")];
         text := "Suited connectors compete with offsuit broadway multiway";
         strategy := "Drawing hands have better implied odds with more players" |} ].

(** The updaters handed to [setCurrentIndex]; [%] is the remainder that
    takes the sign of the dividend. *)
Definition nextInsight (insightsLength : Z) (prev : Z) : Z :=
  Z.rem (prev + 1) insightsLength.

Definition prevInsight (insightsLength : Z) (prev : Z) : Z :=
  Z.rem (prev - 1 + insightsLength) insightsLength.

(** The card, the dots and the counter of the carousel. *)
Record View : Type := {
  card : Insight;
  dots : nat;
  counter : string
}.

(** [insights[currentIndex]] *)
Definition insightAt (l : list Insight) (currentIndex : Z) : option Insight :=
  if 0 <=? currentIndex then l !! Z.to_nat currentIndex else None.

Definition render (data : EquityData) (currentIndex : Z) : Result View :=
  l ← insights data;
  match insightAt l currentIndex with
  | None => Throw (TypeError "title")
  | Some currentInsight =>
      mret {| card := currentInsight;
              dots := length l;
              counter := pretty (currentIndex + 1) +:+ " / "
                           +:+ pretty (Z.of_nat (length l)) |}
  end.

(** The dots under the card: per insight, whether it is the current one
    and the index its click hands to [setCurrentIndex]. *)
Definition dotButtons (l : list Insight) (currentIndex : Z) : list (bool * Z) :=
  imap (fun idx _ => (Z.of_nat idx =? currentIndex, Z.of_nat idx)) l.

(** The indices the carousel can be at: it starts at 0 and moves by the
    two arrows and by the dots. *)
Inductive reachableIndex (insightsLength : nat) : Z -> Prop :=
  | reachable_start : reachableIndex insightsLength 0
  | reachable_next (i : Z) :
      reachableIndex insightsLength i ->
      reachableIndex insightsLength (nextInsight (Z.of_nat insightsLength) i)
  | reachable_prev (i : Z) :
      reachableIndex insightsLength i ->
      reachableIndex insightsLength (prevInsight (Z.of_nat insightsLength) i)
  | reachable_dot (i : Z) (idx : nat) :
      reachableIndex insightsLength i ->
      (idx < insightsLength)%nat ->
      reachableIndex insightsLength (Z.of_nat idx).

(** The entries [insights] reads: hand and table-size key, in the order
    of the first read. *)
Definition requiredEntries : list (string * string) :=
  [("AA", "players_2"); ("AA", "players_6"); ("AKs", "players_6");
   ("AKo", "players_6"); ("KK", "players_2"); ("KK", "players_6");
   ("JJ", "players_6"); ("TT", "players_6"); ("AKs", "players_2");
   ("A2s", "players_6"); ("A2o", "players_6"); ("22", "players_2");
   ("22", "players_6"); ("QQ", "players_6"); ("AJo", "players_6");
   ("KQs", "players_6"); ("77", "players_6"); ("JTs", "players_6");
   ("AQo", "players_6")].

Definition hasEntry (data : EquityData) (entry : string * string) : Prop :=
  is_Some (hands data !! entry.1 ≫= (fun handData => handData !! entry.2)).

Global Instance hasEntry_dec (data : EquityData) (entry : string * string) :
  Decision (hasEntry data entry).
Proof. unfold hasEntry. apply _. Defined.

End KeyInsights.

(** ** Complete artifacts *)

(** The artifact has an entry for every label of the grid at every table
    size of the selector. *)
Definition complete (data : EquityData) : Prop :=
  forall hand key : string,
    hand ∈ EquityHeatmap.gridLabels ->
    key ∈ map playersKey EquityHeatmap.playerCounts ->
    KeyInsights.hasEntry data (hand, key).

(** ** The Home page *)

Module Home.

#[local] Unset Elimination Schemes.
(** What [res.json()] can resolve to. *)
Inductive Json : Type :=
  | JNull
  | JBool (b : bool)
  | JNumber (x : number)
  | JString (s : string)
  | JArray (items : list Json)
  | JObject (fields : list (string * Json)).
#[local] Set Elimination Schemes.

(** [!v] is [negb (truthy v)]. *)
Definition truthy (v : Json) : bool :=
  match v with
  | JNull => false
  | JBool b => b
  | JNumber (S754_zero _) | JNumber S754_nan => false
  | JNumber _ => true
  | JString s => negb (String.eqb s "")
  | JArray _ | JObject _ => true
  end.

(** A settled promise. *)
Inductive Settled (A : Type) : Type :=
  | Fulfilled (value : A)
  | Rejected (reason : string).
Arguments Fulfilled {A} value.
Arguments Rejected {A} reason.

(** The response of [fetch]: [res.json()] is fulfilled with the parsed
    body or rejected when the body does not parse. *)
Record Response : Type := { json : Settled Json }.

Record State : Type := {
  equityData : Json;
  loading : bool;
  console : list string
}.

(** [useState(null)], [useState(true)] *)
Definition initial : State :=
  {| equityData := JNull; loading := true; console := [] |}.

(** A promise whose handlers act on the component state. *)
Definition Promise (A : Type) : Type := State -> Settled A * State.

Definition then_ {A B} (p : Promise A) (onFulfilled : A -> Promise B) : Promise B :=
  fun s =>
    match p s with
    | (Fulfilled a, s') => onFulfilled a s'
    | (Rejected e, s') => (Rejected e, s')
    end.

Definition catch_ {A} (p : Promise A) (onRejected : string -> Promise A) : Promise A :=
  fun s =>
    match p s with
    | (Fulfilled a, s') => (Fulfilled a, s')
    | (Rejected e, s') => onRejected e s'
    end.

Definition settled {A} (r : Settled A) : Promise A := fun s => (r, s).

Definition setEquityData (data : Json) : Promise unit :=
  fun s => (Fulfilled tt,
            {| equityData := data; loading := loading s; console := console s |}).

Definition setLoading (b : bool) : Promise unit :=
  fun s => (Fulfilled tt,
            {| equityData := equityData s; loading := b; console := console s |}).

Definition consoleError (msg err : string) : Promise unit :=
  fun s => (Fulfilled tt,
            {| equityData := equityData s; loading := loading s;
               console := console s ++ [msg +:+ " " +:+ err] |}).

(** The effect of [useEffect], for a given outcome of [fetch("/api/equity")]. *)
Definition loadEquity (fetched : Settled Response) : Promise unit :=
  catch_
    (then_ (then_ (settled fetched) (fun res => settled (json res)))
           (fun data => then_ (setEquityData data) (fun _ => setLoading false)))
    (fun err =>
       then_ (consoleError "Failed to load equity data:" err)
             (fun _ => setLoading false)).

(** The own property [k] of an object with the members [fields], in the
    order of the text; a name that occurs twice keeps its last value. *)
Definition ownProperty (fields : list (string * Json)) (k : string) : option Json :=
  snd <$> List.find (fun member => String.eqb member.1 k) (rev fields).

(** Whether the object has an own property [k]. *)
Definition hasOwn (fields : list (string * Json)) (k : string) : bool :=
  existsb (fun member => String.eqb member.1 k) fields.

(** [v.k] for [k] one of "metadata" and "num_simulations", names that no
    prototype defines: the own property of an object, [undefined] on any
    other value, and a [TypeError] on [null] and [undefined]. *)
Definition getMember (v : option Json) (k : string) : Result (option Json) :=
  match v with
  | None | Some JNull => Throw (TypeError k)
  | Some (JObject fields) => Ok (ownProperty fields k)
  | Some _ => Ok None
  end.

(** [v.toLocaleString()] returns a string.  Numbers, strings and booleans
    have the method from their prototypes.  An object has it from
    [Object.prototype], where it calls [toString]: an own property of
    either name is a parsed value, which cannot be called.  An array
    calls the method of each element other than [null]. *)
Fixpoint localizable (v : Json) : bool :=
  match v with
  | JNull => false
  | JBool _ | JNumber _ | JString _ => true
  | JArray items =>
      forallb (fun item => match item with JNull => true | _ => localizable item end)
              items
  | JObject fields =>
      negb (hasOwn fields "toLocaleString") && negb (hasOwn fields "toString")
  end.

(** [v.toLocaleString()]: the string depends on the locale of the
    browser; the value it prints stands for it. *)
Definition toLocaleString (v : option Json) : Result Json :=
  match v with
  | Some v' => if localizable v' then Ok v' else Throw (TypeError "toLocaleString")
  | None => Throw (TypeError "toLocaleString")
  end.

(** What [Home] returns: one of the two messages, or the page with the
    three components, each created with the prop [data], and the number
    of simulations of the caption. *)
Inductive View : Type :=
  | Message (text : string)
  | DataView (data : Json) (simulations : Json).

Definition Home (s : State) : Result View :=
  if loading s then mret (Message "Loading equity data...")
  else if negb (truthy (equityData s)) then mret (Message "Failed to load equity data")
  else
    metadata ← getMember (Some (equityData s)) "metadata";
    num_simulations ← getMember metadata "num_simulations";
    simulations ← toLocaleString num_simulations;
    mret (DataView (equityData s) simulations).

(** The page once the promise chain has settled. *)
Definition settledPage (fetched : Settled Response) : Result View :=
  Home (snd (loadEquity fetched initial)).

(** The fetch failed: the promise of [fetch] was rejected, or the body
    did not parse. *)
Definition fetchFailed (fetched : Settled Response) : bool :=
  match fetched with
  | Rejected _ => true
  | Fulfilled res => match json res with Rejected _ => true | Fulfilled _ => false end
  end.

(** The payload received, if any. *)
Definition payload (fetched : Settled Response) : option Json :=
  match fetched with
  | Rejected _ => None
  | Fulfilled res => match json res with Rejected _ => None | Fulfilled d => Some d end
  end.

End Home.

(** ** The component bodies over the heap *)

Module Component.

(** A reference to an object. *)
Definition loc : Type := nat.

(** The objects of the heap: the artifact the caller holds, and what the
    components create: a chart point, and the array of category
    averages. *)
Inductive Object : Type :=
  | Artifact (data : EquityData)
  | Point (fields : gmap string EquityTrends.PointValue)
  | Averages (items : list EquityTrends.CategoryAverage).

(** The heap, an object per reference.  No object is ever freed while it
    can be reached: a new object takes the next reference. *)
Definition Heap : Type := list Object.

Definition M (A : Type) : Type := Heap -> Result A * Heap.

Global Instance M_ret : MRet M := fun A a h => (Ok a, h).
Global Instance M_bind : MBind M :=
  fun A B f m h =>
    match m h with
    | (Ok a, h') => f a h'
    | (Throw e, h') => (Throw e, h')
    end.

Definition lift {A} (r : Result A) : M A := fun h => (r, h).

(** An object literal or a new array: the object is put behind a new
    reference. *)
Definition alloc (o : Object) : M loc := fun h => (Ok (length h), h ++ [o]).

(** A write to the object behind the reference [l], which becomes [o]. *)
Definition store (l : loc) (o : Object) : M unit := fun h => (Ok tt, <[l := o]> h).

(** A loop with an accumulator whose body acts on the heap. *)
Fixpoint forEach {S A} (f : S -> A -> M S) (l : list A) (s : S) : M S :=
  match l with
  | [] => mret s
  | x :: l' => s' ← f s x; forEach f l' s'
  end.

(** The prop [data].  Each component first reads [data.hands["AA"]],
    which throws when the object has no [hands]. *)
Definition readData (d : loc) : M EquityData :=
  fun h =>
    match h !! d with
    | Some (Artifact data) => (Ok data, h)
    | _ => (Throw (TypeError "AA"), h)
    end.

Definition EquityHeatmap (d : loc) (playerCount : Z) : M (list (list EquityHeatmap.Cell)) :=
  data ← readData d;
  lift (EquityHeatmap.renderGrid data playerCount).

(** [const point: any = { players }], then [point[category] = ...] for
    each category: the object behind [point] gets one more property. *)
Definition chartPoint (data : EquityData) (players : Z) : M loc :=
  let fields := {[ "players" := EquityTrends.PNumber (Num.ofZ players) ]} in
  point ← alloc (Point fields);
  _ ← forEach
        (fun (fields : gmap string EquityTrends.PointValue) '(category, hs) =>
           v ← lift (EquityTrends.categoryValue data players hs);
           _ ← store point (Point (<[category := v]> fields));
           mret (<[category := v]> fields))
        EquityTrends.handCategories
        fields;
  mret point.

Definition chartData (data : EquityData) : M (list loc) :=
  mapM (chartPoint data) [2; 3; 4; 5; 6].

(** [array.sort(compareFn)] with the method [sort] of the engine: the
    array behind [l] is sorted in place and [l] is returned.  An object
    that is no array has no such method. *)
Definition sortAt (sort : ArraySort.Sort) (l : loc) : M loc :=
  fun h =>
    match h !! l with
    | Some (Averages items) =>
        (Ok l, <[l := Averages (sort _ EquityTrends.compareFn items)]> h)
    | _ => (Throw (TypeError "sort"), h)
    end.

(** [array.map((item) => item.category)] *)
Definition categoriesAt (l : loc) : M (list string) :=
  fun h =>
    match h !! l with
    | Some (Averages items) => (Ok (map EquityTrends.category items), h)
    | _ => (Throw (TypeError "map"), h)
    end.

(** What [EquityTrends] hands to the chart: the points of [data], by
    reference, and per [<Line>] its [dataKey] and [stroke]. *)
Record View : Type := {
  chart : list loc;
  lines : list (string * option string)
}.

Definition EquityTrends (sort : ArraySort.Sort) (d : loc) : M View :=
  data ← readData d;
  chartData ← chartData data;
  averages ← lift (EquityTrends.categoryAverages data);
  categoryAverages ← alloc (Averages averages);
  sorted ← sortAt sort categoryAverages;
  sortedCategories ← categoriesAt sorted;
  let colorMap := EquityTrends.colorMap sortedCategories in
  mret {| chart := chartData;
          lines :=
            map (fun category => (category, colorMap !! category)) sortedCategories |}.

Definition KeyInsights (d : loc) (currentIndex : Z) : M KeyInsights.View :=
  data ← readData d;
  lift (KeyInsights.render data currentIndex).

End Component.

(** ** Sample artifacts *)

Module Sample.

(** The number [n / 10000]. *)
Definition fraction (n : Z) : number := Num.div (Num.ofZ n) (Num.ofZ 10000).

(** A hand entry with the heads-up and the 6-max sub-entries. *)
Definition entry (headsUp sixMax : Z) : gmap string PlayerData :=
  {[ "players_2" := {| equity := fraction headsUp |};
     "players_6" := {| equity := fraction sixMax |} ]}.

(** An artifact with the hands the insight cards read. *)
Definition artifact : EquityData :=
  {| hands :=
       list_to_map
         [("AA", entry 8512 4912); ("KK", entry 8231 4305);
          ("QQ", entry 7985 3790); ("JJ", entry 7747 3351);
          ("TT", entry 7502 2985); ("77", entry 6624 2105);
          ("22", entry 5034 1489); ("AKs", entry 6704 3125);
          ("AKo", entry 6532 2840); ("AQo", entry 6443 2611);
          ("AJo", entry 6350 2455); ("A2s", entry 5738 2152);
          ("A2o", entry 5494 1721); ("KQs", entry 6340 2897);
          ("JTs", entry 5753 2674)];
     metadata := {| num_simulations := Num.ofZ 100000 |} |}.

(** An artifact in which the hand "AA" is missing. *)
Definition withoutAces : EquityData :=
  {| hands := delete "AA" (hands artifact); metadata := metadata artifact |}.

(** An artifact with no hand at all. *)
Definition empty : EquityData :=
  {| hands := ∅; metadata := {| num_simulations := Num.ofZ 100000 |} |}.

(** An artifact with all 169 hands at all five table sizes. *)
Definition fullEntry : gmap string PlayerData :=
  list_to_map
    (map (fun playerCount => (playersKey playerCount, {| equity := fraction 5000 |}))
         EquityHeatmap.playerCounts).

Definition full : EquityData :=
  {| hands := list_to_map (map (fun hand => (hand, fullEntry)) EquityHeatmap.gridLabels);
     metadata := {| num_simulations := Num.ofZ 100000 |} |}.

End Sample.

(** * Properties *)

(** ** The exception monad *)

Lemma mapM_Ok {A B} (f : A -> Result B) (g : A -> B) (l : list A) :
  (forall x, x ∈ l -> f x = Ok (g x)) -> mapM f l = Ok (map g l).
Proof.
  induction l as [|x l IH]; intros Hf; [ reflexivity | ].
  cbn. rewrite (Hf x) by left. cbn.
  rewrite IH by (intros y Hy; apply Hf; by right). reflexivity.
Qed.

(** ** Reading a cell of the artifact *)

Lemma getEquity_percentOrZero (data : EquityData) (playerCount : Z) (hand : string) :
  EquityHeatmap.getEquity data playerCount hand
  = Ok (EquityHeatmap.percentOrZero data playerCount hand).
Proof.
  unfold EquityHeatmap.getEquity, EquityHeatmap.percentOrZero. cbn.
  destruct (hands data !! hand) as [handData|]; cbn; [ | reflexivity ].
  destruct (handData !! playersKey playerCount) as [playerData|]; reflexivity.
Qed.

Lemma renderCell_cellOf (data : EquityData) (playerCount : Z) (row col : nat) :
  EquityHeatmap.renderCell data playerCount row col
  = Ok (EquityHeatmap.cellOf playerCount (EquityHeatmap.getHandName row col)
          (EquityHeatmap.percentOrZero data playerCount
             (EquityHeatmap.getHandName row col))).
Proof.
  unfold EquityHeatmap.renderCell. rewrite getEquity_percentOrZero. reflexivity.
Qed.

Lemma renderGrid_Ok (data : EquityData) (playerCount : Z) :
  EquityHeatmap.renderGrid data playerCount
  = Ok (map (fun '(row, _) =>
               map (fun '(col, _) =>
                      EquityHeatmap.cellOf playerCount
                        (EquityHeatmap.getHandName row col)
                        (EquityHeatmap.percentOrZero data playerCount
                           (EquityHeatmap.getHandName row col)))
                   (entries EquityHeatmap.ranks))
            (entries EquityHeatmap.ranks)).
Proof.
  unfold EquityHeatmap.renderGrid.
  apply mapM_Ok. intros [row rowRank] _.
  apply mapM_Ok. intros [col colRank] _.
  apply renderCell_cellOf.
Qed.

(** ** Hand labels of the grid *)

Section HandNames.
Import EquityHeatmap StartingHand.

Lemma index_cases (i : nat) :
  (i < 13)%nat ->
  (i = 0 \/ i = 1 \/ i = 2 \/ i = 3 \/ i = 4 \/ i = 5 \/ i = 6 \/ i = 7
   \/ i = 8 \/ i = 9 \/ i = 10 \/ i = 11 \/ i = 12)%nat.
Proof. lia. Qed.

Local Ltac each_index H :=
  apply index_cases in H;
  repeat (destruct H as [-> | H]); [ .. | subst ].

Lemma rankAt_rankChar (i : nat) :
  (i < 13)%nat -> ranks !! i = Some (rankChar (14 - Z.of_nat i)).
Proof. intros Hi. each_index Hi; reflexivity. Qed.

Lemma rankValue_rankChar (r : Z) : 2 <= r <= 14 -> rankValue (rankChar r) = r.
Proof.
  intros Hr.
  assert (r = 2 \/ r = 3 \/ r = 4 \/ r = 5 \/ r = 6 \/ r = 7 \/ r = 8 \/ r = 9
          \/ r = 10 \/ r = 11 \/ r = 12 \/ r = 13 \/ r = 14) as H by lia.
  repeat (destruct H as [-> | H]; [ reflexivity | ]). subst r. reflexivity.
Qed.

Lemma getHandName_atCell (row col : nat) :
  (row < 13)%nat -> (col < 13)%nat ->
  getHandName row col = classLabel (atCell row col).
Proof. intros Hr Hc. each_index Hr; each_index Hc; reflexivity. Qed.

Lemma gridLabels_lookup (row col : nat) :
  (row < 13)%nat -> (col < 13)%nat ->
  gridLabels !! (13 * row + col)%nat = Some (getHandName row col).
Proof. intros Hr Hc. each_index Hr; each_index Hc; reflexivity. Qed.

Lemma gridLabels_NoDup : NoDup gridLabels.
Proof. apply (bool_decide_unpack _). vm_compute. exact I. Qed.

Lemma classLabels_NoDup : NoDup (map classLabel classes).
Proof. apply (bool_decide_unpack _). vm_compute. exact I. Qed.

Lemma gridLabels_classes : gridLabels ≡ₚ map classLabel classes.
Proof.
  apply NoDup_Permutation;
    [ exact gridLabels_NoDup | exact classLabels_NoDup | ].
  assert (Forall (fun x => x ∈ map classLabel classes) gridLabels) as H1.
  { apply (bool_decide_unpack _). vm_compute. exact I. }
  assert (Forall (fun x => x ∈ gridLabels) (map classLabel classes)) as H2.
  { apply (bool_decide_unpack _). vm_compute. exact I. }
  rewrite Forall_forall in H1. rewrite Forall_forall in H2.
  intros x. split; auto.
Qed.

(** C3. At a cell [(row, col)] of the 13x13 grid, [getHandName] lists the
    rank of the smaller index (the higher rank) first and the rank of the
    larger index second, with no suffix on the diagonal, the suffix "s"
    when [row < col] and the suffix "o" when [row > col]. *)
Theorem getHandName_notation (row col : nat) :
  (row < 13)%nat -> (col < 13)%nat ->
  exists hi lo : string,
    ranks !! (row `min` col)%nat = Some hi /\
    ranks !! (row `max` col)%nat = Some lo /\
    rankValue lo <= rankValue hi /\
    (row <> col -> rankValue lo < rankValue hi) /\
    (row = col -> getHandName row col = hi +:+ lo /\ hi = lo) /\
    ((row < col)%nat -> getHandName row col = hi +:+ lo +:+ "s") /\
    ((col < row)%nat -> getHandName row col = hi +:+ lo +:+ "o").
Proof.
  intros Hr Hc. each_index Hr; each_index Hc;
    (eexists _, _; split; [ reflexivity | ]; split; [ reflexivity | ];
     repeat split; intros;
     first [ reflexivity | lia | (vm_compute; congruence) ]).
Qed.

Lemma getHandName_notation_witness :
  exists hi lo : string,
    ranks !! (0 `min` 1)%nat = Some hi /\
    ranks !! (0 `max` 1)%nat = Some lo /\
    rankValue lo <= rankValue hi /\
    (0%nat <> 1%nat -> rankValue lo < rankValue hi) /\
    (0%nat = 1%nat -> getHandName 0 1 = hi +:+ lo /\ hi = lo) /\
    ((0 < 1)%nat -> getHandName 0 1 = hi +:+ lo +:+ "s") /\
    ((1 < 0)%nat -> getHandName 0 1 = hi +:+ lo +:+ "o").
Proof. apply (getHandName_notation 0 1); lia. Defined.

Lemma getHandName_inj (row col row' col' : nat) :
  (row < 13)%nat -> (col < 13)%nat -> (row' < 13)%nat -> (col' < 13)%nat ->
  getHandName row col = getHandName row' col' -> row = row' /\ col = col'.
Proof.
  intros Hr Hc Hr' Hc' Heq.
  pose proof (gridLabels_lookup row col Hr Hc) as H1.
  pose proof (gridLabels_lookup row' col' Hr' Hc') as H2.
  rewrite Heq in H1.
  pose proof (NoDup_lookup _ _ _ _ gridLabels_NoDup H1 H2). lia.
Qed.

Lemma atCell_place (row col : nat) :
  (row < 13)%nat -> (col < 13)%nat ->
  (row = col -> atCell row col ∈ pairs) /\
  ((row < col)%nat -> atCell row col ∈ suited) /\
  ((col < row)%nat -> atCell row col ∈ offsuit).
Proof.
  intros Hr Hc. each_index Hr; each_index Hc;
    (repeat split; intros; first [ lia | (apply (bool_decide_unpack _); vm_compute; exact I) ]).
Qed.

(** C4. [getHandName] is injective on the 169 cells; the labels of the
    grid are, up to order, the labels of the 169 starting-hand classes
    (13 pairs, 78 suited, 78 offsuit), each cell showing a pair on the
    diagonal, a suited class above it and an offsuit class below it, with
    "AA" at (0,0) and "22" at (12,12); and the rendered table carries
    exactly these labels, whatever the artifact. *)
Theorem grid_shows_every_class_once :
  (forall row col row' col' : nat,
      (row < 13)%nat -> (col < 13)%nat -> (row' < 13)%nat -> (col' < 13)%nat ->
      getHandName row col = getHandName row' col' -> row = row' /\ col = col') /\
  length gridLabels = 169%nat /\
  NoDup gridLabels /\
  gridLabels ≡ₚ map classLabel classes /\
  length pairs = 13%nat /\ length suited = 78%nat /\ length offsuit = 78%nat /\
  (forall row col : nat,
      (row < 13)%nat -> (col < 13)%nat ->
      getHandName row col = classLabel (atCell row col) /\
      (row = col -> atCell row col ∈ pairs) /\
      ((row < col)%nat -> atCell row col ∈ suited) /\
      ((col < row)%nat -> atCell row col ∈ offsuit)) /\
  getHandName 0 0 = "AA" /\
  getHandName 12 12 = "22" /\
  (forall (data : EquityData) (playerCount : Z),
      exists grid, renderGrid data playerCount = Ok grid /\
                   map label (concat grid) = gridLabels).
Proof.
  split; [ exact getHandName_inj | ].
  split; [ reflexivity | ].
  split; [ exact gridLabels_NoDup | ].
  split; [ exact gridLabels_classes | ].
  do 3 (split; [ reflexivity | ]).
  split.
  { intros row col Hr Hc. split; [ by apply getHandName_atCell | by apply atCell_place ]. }
  do 2 (split; [ reflexivity | ]).
  intros data playerCount. eexists. split; [ apply renderGrid_Ok | reflexivity ].
Qed.

Lemma grid_shows_every_class_once_witness :
  (getHandName 0 1 = getHandName 0 1 -> 0%nat = 0%nat /\ 1%nat = 1%nat) /\
  getHandName 3 7 = classLabel (atCell 3 7) /\
  atCell 3 7 ∈ suited.
Proof.
  destruct grid_shows_every_class_once
    as (Hinj & _ & _ & _ & _ & _ & _ & Hcell & _).
  split.
  - apply (Hinj 0%nat 1%nat 0%nat 1%nat); lia.
  - destruct (Hcell 3%nat 7%nat) as (Hl & _ & Hs & _); [ lia | lia | ].
    split; [ exact Hl | apply Hs; lia ].
Defined.

End HandNames.

(** ** Printing numbers *)

(** [toFixed(1)] on a few numbers: 85.12, the tie 0.25 (the larger tenth),
    1.005 (below the tie in binary), -0.01, and numbers from [10^21] on. *)
Example toFixed1_examples :
  Num.toFixed1 (Num.div (Num.ofZ 8512) (Num.ofZ 100)) = "85.1" /\
  Num.toFixed1 (Num.div (Num.ofZ 25) (Num.ofZ 100)) = "0.3" /\
  Num.toFixed1 (Num.div (Num.ofZ 1005) (Num.ofZ 1000)) = "1.0" /\
  Num.toFixed1 (Num.div (Num.ofZ (-1)) (Num.ofZ 100)) = "-0.0" /\
  Num.toFixed1 (Num.ofZ 100) = "100.0" /\
  Num.toFixed1 (Num.ofZ (10 ^ 21)) = "1e+21" /\
  Num.toFixed1 (Num.ofZ (2 ^ 70)) = "1.1805916207174113e+21" /\
  Num.toFixed1 (Num.div (Num.ofZ 0) (Num.ofZ 0)) = "NaN".
Proof. repeat split; vm_compute; reflexivity. Qed.

(** ** Comparisons of numbers *)

Section Comparisons.

Local Ltac compare_cases :=
  repeat match goal with
    | |- context [Z.compare ?a ?b] => destruct (Z.compare_spec a b); subst
    | H : context [Z.compare ?a ?b] |- _ => destruct (Z.compare_spec a b); subst
    | |- context [Pos.compare ?a ?b] => destruct (Pos.compare_spec a b); subst
    | H : context [Pos.compare ?a ?b] |- _ => destruct (Pos.compare_spec a b); subst
    end.

Lemma leb_trans (x y z : number) :
  Num.leb x y = true -> Num.leb y z = true -> Num.leb x z = true.
Proof.
  unfold Num.leb, SFleb, SFcompare.
  destruct x as [sx|sx| |sx mx ex], y as [sy|sy| |sy my ey],
           z as [sz|sz| |sz mz ez];
    try destruct sx; try destruct sy; try destruct sz;
    try (intros; reflexivity); try (intros; discriminate);
    rewrite ?Pos.compare_cont_spec; cbn [Pos.switch_Eq];
    intros H1 H2; compare_cases; cbn in *; try reflexivity; try discriminate; try lia.
Qed.

End Comparisons.

(** ** Rounding of binary64 products *)

Section Binary64.

Lemma digits2_pos_size (p : positive) : digits2_pos p = Pos.size p.
Proof. induction p as [p IH|p IH|]; cbn; congruence. Qed.

Lemma digits2_bounds (p : positive) :
  2 ^ (Z.pos (digits2_pos p) - 1) <= Z.pos p < 2 ^ Z.pos (digits2_pos p).
Proof.
  rewrite digits2_pos_size.
  pose proof (Pos.size_gt p) as Hgt. pose proof (Pos.size_le p) as Hle.
  apply Pos2Z.pos_lt_pos in Hgt. apply Pos2Z.pos_le_pos in Hle.
  rewrite Pos2Z.inj_pow in Hgt, Hle.
  assert (2 ^ Z.pos (Pos.size p) = 2 * 2 ^ (Z.pos (Pos.size p) - 1)) as Hpow.
  { rewrite <- Z.pow_succ_r by lia. f_equal. lia. }
  lia.
Qed.

Lemma shr_1_m (mrs : shr_record) :
  0 <= shr_m mrs -> shr_m (shr_1 mrs) = shr_m mrs / 2.
Proof.
  destruct mrs as [m r s]. cbn [shr_m]. intros Hm. unfold shr_1.
  destruct m as [|p|p]; [ reflexivity | | lia ].
  destruct p as [p|p|]; cbn [shr_m].
  - rewrite Pos2Z.inj_xI. apply Z.div_unique with (r := 1); lia.
  - rewrite Pos2Z.inj_xO. apply Z.div_unique with (r := 0); lia.
  - reflexivity.
Qed.

Lemma shr_iter_m (p : positive) (mrs : shr_record) :
  0 <= shr_m mrs ->
  shr_m (SpecFloat.iter_pos shr_1 p mrs) = shr_m mrs / 2 ^ Z.pos p.
Proof.
  revert mrs. induction p as [p IH|p IH|]; intros mrs Hm; cbn [SpecFloat.iter_pos].
  - assert (0 < 2 ^ Z.pos p) as Hpos by (apply Z.pow_pos_nonneg; lia).
    pose proof (shr_1_m mrs Hm) as H1.
    assert (0 <= shr_m (shr_1 mrs)) as H1' by (rewrite H1; apply Z.div_pos; lia).
    pose proof (IH _ H1') as H2.
    assert (0 <= shr_m (SpecFloat.iter_pos shr_1 p (shr_1 mrs))) as H2'
      by (rewrite H2; apply Z.div_pos; lia).
    rewrite (IH _ H2'), H2, H1, !Z.div_div by lia. f_equal.
    replace (Z.pos p~1) with (Z.succ (Z.pos p + Z.pos p)) by lia.
    rewrite Z.pow_succ_r, Z.pow_add_r by lia. lia.
  - assert (0 < 2 ^ Z.pos p) as Hpos by (apply Z.pow_pos_nonneg; lia).
    pose proof (IH _ Hm) as H2.
    assert (0 <= shr_m (SpecFloat.iter_pos shr_1 p mrs)) as H2'
      by (rewrite H2; apply Z.div_pos; lia).
    rewrite (IH _ H2'), H2, !Z.div_div by lia. f_equal.
    replace (Z.pos p~0) with (Z.pos p + Z.pos p) by lia.
    rewrite Z.pow_add_r by lia. lia.
  - rewrite shr_1_m by done. reflexivity.
Qed.

Lemma round_nearest_even_bounds (m : Z) (l : location) :
  m <= round_nearest_even m l <= m + 1.
Proof.
  unfold round_nearest_even. destruct l as [|[| |]]; try lia.
  destruct (Z.even m); lia.
Qed.

Lemma shr_nonpos (mrs : shr_record) (e n : Z) : n <= 0 -> shr mrs e n = (mrs, e).
Proof. intros Hn. destruct n as [|p|p]; [ reflexivity | lia | reflexivity ]. Qed.

Lemma leb_finite_pos (m1 m2 : positive) (e1 e2 : Z) :
  e1 < e2 \/ (e1 = e2 /\ Z.pos m1 <= Z.pos m2) ->
  Num.leb (S754_finite false m1 e1) (S754_finite false m2 e2) = true.
Proof.
  intros H. unfold Num.leb, SFleb, SFcompare.
  rewrite Pos.compare_cont_spec. cbn [Pos.switch_Eq].
  destruct (Z.compare_spec e1 e2); [ | reflexivity | lia ].
  destruct (Pos.compare_spec m1 m2); [ reflexivity | reflexivity | lia ].
Qed.

Lemma leb_finite_pos_inv (m1 m2 : positive) (e1 e2 : Z) :
  Num.leb (S754_finite false m1 e1) (S754_finite false m2 e2) = true ->
  e1 < e2 \/ (e1 = e2 /\ Z.pos m1 <= Z.pos m2).
Proof.
  unfold Num.leb, SFleb, SFcompare.
  rewrite Pos.compare_cont_spec. cbn [Pos.switch_Eq].
  destruct (Z.compare_spec e1 e2); [ | lia | discriminate ].
  destruct (Pos.compare_spec m1 m2); [ lia | lia | discriminate ].
Qed.

Lemma round_aux_bound (P : positive) (e0 e1 : Z) (B : positive) (eB : Z) :
  e1 = Z.max (Z.pos (digits2_pos P) + e0 - 53) (-1074) ->
  e0 < e1 -> e1 <= eB -> eB <= 971 ->
  2 ^ 52 <= Z.pos B < 2 ^ 53 ->
  (e1 = eB -> Z.pos P / 2 ^ (e1 - e0) < Z.pos B) ->
  Num.leb Num.zero (binary_round_aux 53 1024 false (Z.pos P) e0 loc_Exact) = true /\
  Num.leb (binary_round_aux 53 1024 false (Z.pos P) e0 loc_Exact)
          (S754_finite false B eB) = true /\
  Num.mantissaFits (binary_round_aux 53 1024 false (Z.pos P) e0 loc_Exact).
Proof.
  intros He1 Hshift HeB HeB' HB Hm.
  unfold binary_round_aux, shr_fexp.
  change (fexp 53 1024 (Zdigits2 (Z.pos P) + e0))
    with (Z.max (Z.pos (digits2_pos P) + e0 - 53) (-1074)).
  rewrite <- He1.
  destruct (e1 - e0) as [|p|p] eqn:Hn; try lia.
  cbn [shr shr_record_of_loc].
  replace (e0 + Z.pos p) with e1 by lia.
  set (mrs1 := SpecFloat.iter_pos shr_1 p _).
  assert (shr_m mrs1 = Z.pos P / 2 ^ Z.pos p) as Hm1
    by (subst mrs1; rewrite shr_iter_m; cbn [shr_m]; [ reflexivity | lia ]).
  assert (0 < 2 ^ Z.pos p) as Hpow by (apply Z.pow_pos_nonneg; lia).
  assert (0 <= shr_m mrs1 < 2 ^ 53) as Hm1b.
  { rewrite Hm1. split; [ apply Z.div_pos; lia | ].
    apply Z.div_lt_upper_bound; [ lia | ].
    pose proof (digits2_bounds P) as [_ Hd].
    assert (2 ^ Z.pos (digits2_pos P) <= 2 ^ (Z.pos p + 53)) as Hmono
      by (apply Z.pow_le_mono_r; lia).
    rewrite Z.pow_add_r in Hmono by lia. lia. }
  pose proof (round_nearest_even_bounds (shr_m mrs1) (loc_of_shr_record mrs1)) as Hr.
  set (m2 := round_nearest_even _ _) in *.
  assert (e1 = eB -> m2 <= Z.pos B) as Hm2B.
  { intros E. specialize (Hm E). rewrite <- Hm1 in Hm. lia. }
  clearbody m2 mrs1.
  destruct m2 as [|q|q]; [ | | lia ].
  - rewrite shr_nonpos by (unfold fexp, emin; cbn [Zdigits2]; lia).
    cbn. repeat split.
  - change (2 ^ 53) with 9007199254740992 in *.
    assert (Z.pos q < 9007199254740992 \/ q = 9007199254740992%positive)
      as [Hq | ->] by lia.
    + assert (Z.pos (digits2_pos q) <= 53) as Hdq.
      { pose proof (digits2_bounds q) as [Hd _].
        assert (2 ^ (Z.pos (digits2_pos q) - 1) < 2 ^ 53) as Hlt
          by (change (2 ^ 53) with 9007199254740992; lia).
        apply Z.pow_lt_mono_r_iff in Hlt; lia. }
      rewrite shr_nonpos by (unfold fexp, emin; cbn [Zdigits2]; lia).
      cbn [shr_m shr_record_of_loc].
      replace (e1 <=? 1024 - 53) with true by (symmetry; apply Z.leb_le; lia).
      split; [ reflexivity | ].
      split; [ apply leb_finite_pos; lia | exact Hq ].
    + replace (fexp 53 1024 (Zdigits2 9007199254740992 + e1) - e1) with 1
        by (unfold fexp, emin; cbn; lia).
      cbn [shr SpecFloat.iter_pos shr_1 shr_record_of_loc shr_m].
      replace (e1 + 1 <=? 1024 - 53) with true by (symmetry; apply Z.leb_le; lia).
      split; [ reflexivity | ].
      split; [ | reflexivity ].
      apply leb_finite_pos. change (2 ^ 52) with 4503599627370496 in HB. lia.
Qed.

Lemma valid_finite (s : bool) (m : positive) (e : Z) :
  Num.valid (S754_finite s m e) = true ->
  Z.max (Z.pos (digits2_pos m) + e - 53) (-1074) = e /\ e <= 971.
Proof.
  unfold Num.valid, valid_binary, bounded, canonical_mantissa.
  intros H. apply andb_true_iff in H as [H1 H2].
  apply Z.eqb_eq in H1. apply Z.leb_le in H2.
  split; [ exact H1 | exact H2 ].
Qed.

Lemma mul100_range (x : number) :
  Num.valid x = true ->
  Num.leb Num.zero x = true -> Num.leb x (Num.ofZ 1) = true ->
  Num.leb Num.zero (Num.mul x (Num.ofZ 100)) = true /\
  Num.leb (Num.mul x (Num.ofZ 100)) (Num.ofZ 100) = true /\
  Num.mantissaFits (Num.mul x (Num.ofZ 100)).
Proof.
  change (Num.ofZ 100) with (S754_finite false 7036874417766400 (-46)).
  change (Num.ofZ 1) with (S754_finite false 4503599627370496 (-52)).
  destruct x as [s|s| |s m e]; intros Hv H0 H1.
  - destruct s; repeat split.
  - destruct s; discriminate.
  - discriminate.
  - destruct s; [ discriminate | ].
    apply valid_finite in Hv as [Hcan _].
    pose proof (digits2_bounds m) as [Hlo Hhi].
    set (dm := Z.pos (digits2_pos m)) in *.
    assert (1 <= dm) as Hdm1 by (subst dm; lia).
    apply leb_finite_pos_inv in H1 as [He | [-> Hm]].
    + unfold Num.mul, SFmul. cbn [xorb].
      set (P := (m * 7036874417766400)%positive).
      pose proof (digits2_bounds P) as [HloP HhiP].
      set (d := Z.pos (digits2_pos P)) in *.
      assert (Z.pos P = Z.pos m * 7036874417766400) as HP by (subst P; lia).
      assert (dm + 52 <= d <= dm + 53) as Hd.
      { assert (2 ^ (dm + 51) < 2 ^ d) as Ha.
        { replace (dm + 51) with ((dm - 1) + 52) by lia.
          rewrite Z.pow_add_r by lia. change (2 ^ 52) with 4503599627370496. nia. }
        assert (2 ^ (d - 1) < 2 ^ (dm + 53)) as Hb.
        { rewrite Z.pow_add_r by lia. change (2 ^ 53) with 9007199254740992. nia. }
        apply Z.pow_lt_mono_r_iff in Ha; [ | lia | subst d; lia ].
        apply Z.pow_lt_mono_r_iff in Hb; lia. }
      apply (round_aux_bound P (e + -46) (Z.max (d + (e + -46) - 53) (-1074)));
        [ reflexivity | lia | lia | lia
        | change (2 ^ 52) with 4503599627370496;
          change (2 ^ 53) with 9007199254740992; lia | ].
      intros E.
      assert (dm = 53 /\ e = -53 /\ d = 106) as (Hdm & -> & Hd') by lia.
      replace (Z.max (d + (-53 + -46) - 53) (-1074) - (-53 + -46)) with 53 by lia.
      apply Z.div_lt_upper_bound; [ reflexivity | ].
      rewrite Hdm in Hhi. rewrite HP.
      change (2 ^ 53) with 9007199254740992 in *. lia.
    + assert (dm = 53) as Hdm by lia.
      rewrite Hdm in Hlo. change (2 ^ (53 - 1)) with 4503599627370496 in Hlo.
      assert (m = 4503599627370496%positive) as -> by lia.
      repeat split; vm_compute; reflexivity.
Qed.

Lemma toFixed1_percentage (v : number) :
  Num.mantissaFits v ->
  Num.leb Num.zero v = true -> Num.leb v (Num.ofZ 100) = true ->
  exists n : Z, 0 <= n <= 1000 /\
    Num.toFixed1 v = pretty (n / 10) +:+ "." +:+ pretty (n mod 10).
Proof.
  change (Num.ofZ 100) with (S754_finite false 7036874417766400 (-46)).
  destruct v as [s|s| |s m e]; intros Hv H0 H1.
  - exists 0. split; [ lia | reflexivity ].
  - destruct s; discriminate.
  - discriminate.
  - destruct s; [ discriminate | ].
    assert (Z.pos m < 2 ^ 53) as Hm by exact Hv.
    apply leb_finite_pos_inv in H1.
    assert (exists k, e = - k /\ 46 <= k /\ Z.pos m <= 100 * 2 ^ k) as (k & -> & Hk & Hmk).
    { exists (- e). split; [ lia | ]. split; [ lia | ].
      destruct H1 as [He | [-> Hle]].
      - replace (- e) with (47 + (- e - 47)) by lia.
        rewrite Z.pow_add_r by lia.
        assert (0 < 2 ^ (- e - 47)) by (apply Z.pow_pos_nonneg; lia).
        change (2 ^ 53) with 9007199254740992 in Hm.
        change (2 ^ 47) with 140737488355328. nia.
      - change (2 ^ (- (-46))) with 70368744177664. lia. }
    assert (0 < 2 ^ k) as Hpow by (apply Z.pow_pos_nonneg; lia).
    assert (2 ^ 46 <= 2 ^ k) as Hpow46 by (apply Z.pow_le_mono_r; lia).
    change (2 ^ 46) with 70368744177664 in Hpow46.
    exists (Num.tenths m (- k)).
    assert (Num.tenths m (- k) = (20 * Z.pos m + 2 ^ k) / (2 * 2 ^ k)) as Ht.
    { unfold Num.tenths. replace (0 <=? - k) with false by (symmetry; apply Z.leb_gt; lia).
      rewrite Z.opp_involutive. f_equal.
      replace (1 - - k) with (Z.succ k) by lia. rewrite Z.pow_succ_r by lia. reflexivity. }
    split.
    + rewrite Ht. split; [ apply Z.div_pos; lia | ].
      apply Z.lt_succ_r. apply Z.div_lt_upper_bound; lia.
    + unfold Num.toFixed1, Num.atLeastTen21, Num.fixed1Digits.
      replace (0 <=? - k) with false by (symmetry; apply Z.leb_gt; lia).
      rewrite Z.opp_involutive.
      replace (Num.ten21 * 2 ^ k <=? Z.pos m) with false; [ reflexivity | ].
      symmetry. apply Z.leb_gt. change (2 ^ 53) with 9007199254740992 in Hm.
      change Num.ten21 with 1000000000000000000000. nia.
Qed.

End Binary64.

(** ** The colour bands of the heatmap *)

Section ColourBands.
Import EquityHeatmap.

Lemma firstMatch_mono (e1 e2 : number) (cs : list number) :
  Num.leb e1 e2 = true -> (firstMatch e2 cs <= firstMatch e1 cs)%nat.
Proof.
  intros Hle. induction cs as [|c cs IH]; cbn [firstMatch]; [ lia | ].
  change (Num.geb e1 c) with (Num.leb c e1).
  change (Num.geb e2 c) with (Num.leb c e2).
  destruct (Num.leb c e1) eqn:H1.
  - rewrite (leb_trans c e1 e2 H1 Hle). lia.
  - destruct (Num.leb c e2); lia.
Qed.

Lemma firstMatch_le_length (e : number) (cs : list number) :
  (firstMatch e cs <= length cs)%nat.
Proof. induction cs as [|c cs IH]; cbn; [ lia | ]. destruct (Num.geb e c); lia. Qed.

Lemma cutoffs_length (playerCount : Z) : length (cutoffs playerCount) = 10%nat.
Proof. unfold cutoffs. destruct (thresholds playerCount) as [[p s] q]. reflexivity. Qed.

(** [getColor] answers with the class of the first cutoff reached. *)
Lemma getColor_firstMatch (playerCount : Z) (e : number) :
  getColor playerCount e
  = default "bg-red-500" (rev colorClasses !! firstMatch e (cutoffs playerCount)).
Proof.
  unfold getColor, cutoffs. destruct (thresholds playerCount) as [[p s] q].
  cbn [firstMatch]. repeat (destruct (Num.geb e _); [ reflexivity | ]). reflexivity.
Qed.

Lemma bandIndex_rev (i : nat) :
  (i <= 10)%nat ->
  bandIndex (default "bg-red-500" (rev colorClasses !! i)) = (10 - i)%nat
  /\ default "bg-red-500" (rev colorClasses !! i) ∈ colorClasses.
Proof.
  intros Hi.
  assert (i = 0 \/ i = 1 \/ i = 2 \/ i = 3 \/ i = 4 \/ i = 5 \/ i = 6 \/ i = 7
          \/ i = 8 \/ i = 9 \/ i = 10)%nat as H by lia.
  repeat (destruct H as [-> | H]); subst;
    (split; [ reflexivity | apply (bool_decide_unpack _); vm_compute; exact I ]).
Qed.

Lemma getColor_band (playerCount : Z) (e : number) :
  bandIndex (getColor playerCount e)
  = (10 - firstMatch e (cutoffs playerCount))%nat
  /\ getColor playerCount e ∈ colorClasses.
Proof.
  rewrite getColor_firstMatch. apply bandIndex_rev.
  rewrite <- (cutoffs_length playerCount). apply firstMatch_le_length.
Qed.

Lemma getColor_monotone (playerCount : Z) (e1 e2 : number) :
  Num.leb e1 e2 = true ->
  (bandIndex (getColor playerCount e1) <= bandIndex (getColor playerCount e2))%nat.
Proof.
  intros Hle.
  rewrite (proj1 (getColor_band playerCount e1)), (proj1 (getColor_band playerCount e2)).
  pose proof (firstMatch_mono e1 e2 (cutoffs playerCount) Hle). lia.
Qed.

(** At 6-max the cutoffs of "bg-lime-400" and "bg-yellow-400" are both 20,
    so the sequence of cutoffs is not strictly decreasing there. *)
Lemma cutoffs_6max_not_strictly_decreasing :
  6 ∈ playerCounts /\
  cutoffs 6 !! 4%nat = Some (Num.ofZ 20) /\
  cutoffs 6 !! 5%nat = Some (Num.ofZ 20) /\
  chain Num.gtb (cutoffs 6) = false.
Proof.
  split; [ apply (bool_decide_unpack _); vm_compute; exact I | ].
  repeat split; vm_compute; reflexivity.
Qed.

Lemma getColor_6max_skips_yellow_400 (e : number) :
  getColor 6 e <> "bg-yellow-400".
Proof.
  unfold getColor. cbn [thresholds Z.eqb Pos.eqb].
  change (Num.add (Num.ofZ 15) (Num.ofZ 5)) with (Num.ofZ 20).
  repeat (destruct (Num.geb e _); [ discriminate | ]). discriminate.
Qed.

(** C9, amended. For every player count of the selector, [getColor]
    returns one of its 11 classes on every number (NaN included), its 10
    cutoffs are non-increasing in the order tested, strictly decreasing
    for 2 to 5 players, and the band index is monotone in the equity. *)
Theorem getColor_monotone_step (playerCount : Z) :
  playerCount ∈ playerCounts ->
  (forall e : number, getColor playerCount e ∈ colorClasses) /\
  length colorClasses = 11%nat /\
  length (cutoffs playerCount) = 10%nat /\
  (forall e : number,
      getColor playerCount e
      = default "bg-red-500"
          (rev colorClasses !! firstMatch e (cutoffs playerCount))) /\
  chain Num.geb (cutoffs playerCount) = true /\
  (playerCount <> 6 -> chain Num.gtb (cutoffs playerCount) = true) /\
  (forall e1 e2 : number,
      Num.leb e1 e2 = true ->
      (bandIndex (getColor playerCount e1)
       <= bandIndex (getColor playerCount e2))%nat).
Proof.
  intros Hpc.
  split; [ intros e; apply getColor_band | ].
  split; [ reflexivity | ].
  split; [ apply cutoffs_length | ].
  split; [ intros e; apply getColor_firstMatch | ].
  split; [ | split; [ | intros e1 e2; apply getColor_monotone ] ].
  - unfold playerCounts in Hpc.
    repeat (apply elem_of_cons in Hpc as [-> | Hpc]; [ vm_compute; reflexivity | ]).
    by apply elem_of_nil in Hpc.
  - intros Hne. unfold playerCounts in Hpc.
    repeat (apply elem_of_cons in Hpc as [-> | Hpc];
            [ first [ (vm_compute; reflexivity) | congruence ] | ]).
    by apply elem_of_nil in Hpc.
Qed.

Lemma getColor_monotone_step_witness :
  getColor 3 (Num.ofZ 31) ∈ colorClasses /\
  chain Num.gtb (cutoffs 3) = true /\
  (bandIndex (getColor 3 (Num.ofZ 12)) <= bandIndex (getColor 3 (Num.ofZ 31)))%nat.
Proof.
  assert (3 ∈ playerCounts) as H3
    by (apply (bool_decide_unpack _); vm_compute; exact I).
  destruct (getColor_monotone_step 3 H3) as (Hin & _ & _ & _ & _ & Hstrict & Hmono).
  split; [ apply Hin | ].
  split; [ apply Hstrict; lia | apply Hmono; vm_compute; reflexivity ].
Defined.

End ColourBands.

(** ** The cells of the heatmap *)

Section HeatmapCells.
Import EquityHeatmap.

(** The table sizes the state can take are those of the buttons. *)
Lemma reachable_playerCounts (playerCount : Z) :
  reachable playerCount <-> playerCount ∈ playerCounts.
Proof.
  split.
  - intros H. destruct H as [ | ? ? _ Hin ]; [ | exact Hin ].
    apply (bool_decide_unpack _). vm_compute. exact I.
  - intros Hin. exact (reachable_click _ _ reachable_initial Hin).
Qed.

Lemma playersKey_playerCounts (playerCount : Z) :
  playerCount ∈ playerCounts ->
  playersKey playerCount
    ∈ ["players_2"; "players_3"; "players_4"; "players_5"; "players_6"].
Proof.
  unfold playerCounts. intros Hpc.
  repeat (apply elem_of_cons in Hpc as [-> | Hpc];
          [ apply (bool_decide_unpack _); vm_compute; exact I | ]).
  by apply elem_of_nil in Hpc.
Qed.

(** The sub-entry [getEquity] looks at. *)
Lemma percentOrZero_selected (data : EquityData) (playerCount : Z) (hand : string) :
  percentOrZero data playerCount hand
  = match hands data !! hand ≫= (fun handData => handData !! playersKey playerCount) with
    | Some playerData => Num.mul (equity playerData) (Num.ofZ 100)
    | None => Num.zero
    end.
Proof.
  unfold percentOrZero. destruct (hands data !! hand) as [handData|]; reflexivity.
Qed.

Lemma sample_in_unit_interval : equitiesInUnitInterval Sample.artifact.
Proof.
  apply (bool_decide_unpack _). vm_compute. exact I.
Qed.

Lemma subEntryKeys_playersKey (playerCount : Z) (key : string) :
  (playerCount, key) ∈ subEntryKeys ->
  playerCount ∈ playerCounts /\ playersKey playerCount = key.
Proof.
  unfold subEntryKeys. intros Hin.
  repeat (apply elem_of_cons in Hin as [Heq | Hin];
          [ injection Heq as -> ->; split;
            [ apply (bool_decide_unpack _); vm_compute; exact I
            | vm_compute; reflexivity ] | ]).
  by apply elem_of_nil in Hin.
Qed.

Lemma entries_lookup {A} (l : list A) (i : nat) (x : A) :
  l !! i = Some x -> entries l !! i = Some (i, x).
Proof. intros H. unfold entries. rewrite list_lookup_imap, H. reflexivity. Qed.

(** The cell of the rendered table at a row and a column below 13. *)
Lemma renderGrid_lookup (data : EquityData) (playerCount : Z) (row col : nat) :
  (row < 13)%nat -> (col < 13)%nat ->
  exists rows,
    renderGrid data playerCount = Ok rows /\
    rows !! row ≫= (fun cells => cells !! col)
    = Some (cellOf playerCount (getHandName row col)
              (percentOrZero data playerCount (getHandName row col))).
Proof.
  intros Hrow Hcol. eexists. split; [ apply renderGrid_Ok | ].
  destruct (lookup_lt_is_Some_2 ranks row Hrow) as [rowRank Hr].
  destruct (lookup_lt_is_Some_2 ranks col Hcol) as [colRank Hc].
  rewrite list_lookup_fmap, (entries_lookup _ _ _ Hr). cbn [fmap option_fmap option_map mbind option_bind].
  rewrite list_lookup_fmap, (entries_lookup _ _ _ Hc). reflexivity.
Qed.

Lemma percentOrZero_key (data data' : EquityData) (playerCount : Z) (hand : string) :
  hands data' !! hand ≫= (fun handData => handData !! playersKey playerCount)
  = hands data !! hand ≫= (fun handData => handData !! playersKey playerCount) ->
  percentOrZero data' playerCount hand = percentOrZero data playerCount hand.
Proof. intros Heq. rewrite !percentOrZero_selected, Heq. reflexivity. Qed.

(** C5. For a table size N of the selector, whose sub-entries the
    artifact keeps under the key "players_N", and a hand whose sub-entry
    for that size exists, [getEquity] is the equity of that sub-entry
    times 100, and in the rendered table the cell of every row and column
    that carries the hand shows that value through [toFixed(1)], in its
    text and in its tooltip.  The table size is one the selector can set;
    the key [getEquity] reads is "players_N" and no other: two artifacts
    that agree on the sub-entries under that key give the same value for
    a hand and the same table.  When the equities under that key are
    numbers in [0,1], every value of [getEquity] lies in [0,100] and is
    printed as its nearest tenth, with one digit after the point. *)
Theorem heatmap_cell_shows_percentage
    (data : EquityData) (playerCount : Z) (key : string) :
  (playerCount, key) ∈ subEntryKeys ->
  playerCount ∈ playerCounts /\
  reachable playerCount /\
  playersKey playerCount = key /\
  key ∈ ["players_2"; "players_3"; "players_4"; "players_5"; "players_6"] /\
  (exists rows : list (list Cell),
      renderGrid data playerCount = Ok rows /\
      forall (hand : string) (handData : gmap string PlayerData) (playerData : PlayerData),
        hands data !! hand = Some handData ->
        handData !! key = Some playerData ->
        let percentage := Num.mul (equity playerData) (Num.ofZ 100) in
        getEquity data playerCount hand = Ok percentage /\
        forall row col : nat,
          (row < 13)%nat -> (col < 13)%nat ->
          getHandName row col = hand ->
          exists cell,
            rows !! row ≫= (fun cells => cells !! col) = Some cell /\
            renderCell data playerCount row col = Ok cell /\
            label cell = hand /\
            text cell = Num.toFixed1 percentage +:+ "%" /\
            title cell = hand +:+ ": " +:+ Num.toFixed1 percentage +:+ "% equity") /\
  (forall (data' : EquityData) (hand : string),
      hands data' !! hand ≫= (fun handData => handData !! key)
      = hands data !! hand ≫= (fun handData => handData !! key) ->
      getEquity data' playerCount hand = getEquity data playerCount hand) /\
  (forall data' : EquityData,
      (forall hand : string,
          hand ∈ gridLabels ->
          hands data' !! hand ≫= (fun handData => handData !! key)
          = hands data !! hand ≫= (fun handData => handData !! key)) ->
      renderGrid data' playerCount = renderGrid data playerCount) /\
  ((forall (hand : string) (handData : gmap string PlayerData) (playerData : PlayerData),
       hands data !! hand = Some handData ->
       handData !! key = Some playerData ->
       inUnitInterval (equity playerData)) ->
   forall hand : string,
     exists v, getEquity data playerCount hand = Ok v /\
               Num.leb Num.zero v = true /\ Num.leb v (Num.ofZ 100) = true /\
               exists n : Z,
                 0 <= n <= 1000 /\
                 Num.toFixed1 v = pretty (n / 10) +:+ "." +:+ pretty (n mod 10)).
Proof.
  intros Hkey. destruct (subEntryKeys_playersKey _ _ Hkey) as [Hpc <-].
  split; [ exact Hpc | ]. split; [ by apply reachable_playerCounts | ].
  split; [ reflexivity | ]. split; [ by apply playersKey_playerCounts | ].
  split; [ | split; [ | split ] ].
  - eexists. split; [ apply renderGrid_Ok | ].
    intros hand handData playerData Hhand Hplayers percentage.
    assert (percentOrZero data playerCount hand = percentage) as Hp
      by (unfold percentOrZero; rewrite Hhand, Hplayers; reflexivity).
    split; [ rewrite getEquity_percentOrZero, Hp; reflexivity | ].
    intros row col Hrow Hcol <-.
    destruct (renderGrid_lookup data playerCount row col Hrow Hcol)
      as (rows & Hrows & Hcell).
    rewrite renderGrid_Ok in Hrows. injection Hrows as <-.
    eexists. split; [ exact Hcell | ]. split; [ apply renderCell_cellOf | ].
    rewrite Hp. repeat split.
  - intros data' hand Heq.
    rewrite !getEquity_percentOrZero. f_equal. by apply percentOrZero_key.
  - intros data' Heq. rewrite !renderGrid_Ok. f_equal.
    apply map_ext_in. intros [row rowRank] Hr.
    apply map_ext_in. intros [col colRank] Hc.
    f_equal. apply percentOrZero_key, Heq.
    apply list_elem_of_In in Hr, Hc.
    apply list_elem_of_lookup in Hr as [i Hi], Hc as [j Hj].
    unfold entries in Hi, Hj. rewrite list_lookup_imap in Hi, Hj.
    destruct (ranks !! i) as [x|] eqn:Hx; [ | discriminate Hi ].
    destruct (ranks !! j) as [y|] eqn:Hy; [ | discriminate Hj ].
    injection Hi as <- <-. injection Hj as <- <-.
    apply list_elem_of_lookup. exists (13 * i + j)%nat.
    apply gridLabels_lookup.
    + by apply lookup_lt_Some in Hx.
    + by apply lookup_lt_Some in Hy.
  - intros Hrange hand. eexists. split; [ apply getEquity_percentOrZero | ].
    assert (Num.leb Num.zero (percentOrZero data playerCount hand) = true /\
            Num.leb (percentOrZero data playerCount hand) (Num.ofZ 100) = true /\
            Num.mantissaFits (percentOrZero data playerCount hand))
      as (Hlo & Hhi & Hfits).
    { unfold percentOrZero.
      destruct (hands data !! hand) as [handData|] eqn:Hhand;
        [ | repeat split ].
      destruct (handData !! playersKey playerCount) as [playerData|] eqn:Hplayers;
        [ | repeat split ].
      destruct (Hrange hand handData playerData Hhand Hplayers) as (Hv & H0 & H1).
      by apply mul100_range. }
    split; [ exact Hlo | ]. split; [ exact Hhi | ].
    by apply toFixed1_percentage.
Qed.

Lemma heatmap_cell_shows_percentage_witness :
  (exists rows cell,
      renderGrid Sample.artifact 2 = Ok rows /\
      rows !! 0%nat ≫= (fun cells => cells !! 0%nat) = Some cell /\
      label cell = "AA" /\
      text cell = "85.1%" /\
      title cell = "AA: 85.1% equity") /\
  (exists rows cell,
      renderGrid Sample.artifact 6 = Ok rows /\
      rows !! 0%nat ≫= (fun cells => cells !! 0%nat) = Some cell /\
      label cell = "AA" /\
      text cell = "49.1%" /\
      title cell = "AA: 49.1% equity") /\
  getEquity Sample.artifact 6 "AA"
  = Ok (Num.mul (Sample.fraction 4912) (Num.ofZ 100)) /\
  (exists v, getEquity Sample.artifact 6 "72o" = Ok v /\
             Num.leb Num.zero v = true /\ Num.leb v (Num.ofZ 100) = true /\
             exists n : Z,
               0 <= n <= 1000 /\
               Num.toFixed1 v = pretty (n / 10) +:+ "." +:+ pretty (n mod 10)).
Proof.
  assert ((2, "players_2") ∈ subEntryKeys) as H2
    by (apply (bool_decide_unpack _); vm_compute; exact I).
  assert ((6, "players_6") ∈ subEntryKeys) as H6
    by (apply (bool_decide_unpack _); vm_compute; exact I).
  destruct (heatmap_cell_shows_percentage Sample.artifact 2 "players_2" H2)
    as (_ & _ & _ & _ & (rows2 & Hrows2 & Hcell2) & _).
  destruct (heatmap_cell_shows_percentage Sample.artifact 6 "players_6" H6)
    as (_ & _ & _ & _ & (rows6 & Hrows6 & Hcell6) & _ & _ & Hrange).
  destruct (Hcell2 "AA" (Sample.entry 8512 4912) {| equity := Sample.fraction 8512 |})
    as (_ & Hshow2); [ vm_compute; reflexivity | vm_compute; reflexivity | ].
  destruct (Hcell6 "AA" (Sample.entry 8512 4912) {| equity := Sample.fraction 4912 |})
    as (Heq6 & Hshow6); [ vm_compute; reflexivity | vm_compute; reflexivity | ].
  split; [ | split; [ | split ] ].
  - destruct (Hshow2 0%nat 0%nat ltac:(lia) ltac:(lia) eq_refl)
      as (cell & Hc & _ & Hl & Ht & Hti).
    exists rows2, cell.
    repeat split; [ exact Hrows2 | exact Hc | exact Hl | rewrite Ht | rewrite Hti ];
      vm_compute; reflexivity.
  - destruct (Hshow6 0%nat 0%nat ltac:(lia) ltac:(lia) eq_refl)
      as (cell & Hc & _ & Hl & Ht & Hti).
    exists rows6, cell.
    repeat split; [ exact Hrows6 | exact Hc | exact Hl | rewrite Ht | rewrite Hti ];
      vm_compute; reflexivity.
  - exact Heq6.
  - apply Hrange. intros hand handData playerData Hhand Hplayers.
    exact (sample_in_unit_interval hand handData Hhand _ playerData Hplayers).
Defined.

End HeatmapCells.

(** ** The chart of EquityTrends *)

Section TrendChart.
Import EquityTrends.

Lemma forEach_accumulate (data : EquityData) (key : string) (hs : list string)
    (sum : number) (count : Z) :
  forEach (accumulate data key) hs (sum, count)
  = Ok (fold_left Num.add (presentPercentages data key hs) sum,
        count + Z.of_nat (length (presentPercentages data key hs))).
Proof.
  revert sum count. induction hs as [|hand hs IH]; intros sum count.
  - cbn. f_equal. f_equal. lia.
  - cbn [forEach]. unfold accumulate at 1, presentPercentages. cbn.
    destruct (hands data !! hand) as [handData|]; cbn.
    + destruct (handData !! key) as [playerData|]; cbn.
      * fold (presentPercentages data key hs). rewrite IH. f_equal. f_equal. lia.
      * fold (presentPercentages data key hs). apply IH.
    + fold (presentPercentages data key hs). apply IH.
Qed.

Lemma sumAndCount_present (data : EquityData) (key : string) (hs : list string) :
  sumAndCount data key hs
  = Ok (fold_left Num.add (presentPercentages data key hs) Num.zero,
        Z.of_nat (length (presentPercentages data key hs))).
Proof. unfold sumAndCount. rewrite forEach_accumulate. reflexivity. Qed.

Lemma categoryValue_meanValue (data : EquityData) (players : Z) (hs : list string) :
  categoryValue data players hs = Ok (meanValue data players hs).
Proof.
  unfold categoryValue, meanValue, mean. rewrite sumAndCount_present. cbn.
  destruct (presentPercentages data (playersKey players) hs) as [|x xs];
    reflexivity.
Qed.

(** The point [chartPoint] arrives at. *)
Lemma chartPoint_Ok (data : EquityData) (players : Z) :
  exists point,
    chartPoint data players = Ok point /\
    point !! "players" = Some (PNumber (Num.ofZ players)) /\
    forall category hs,
      (category, hs) ∈ handCategories ->
      point !! category = Some (meanValue data players hs).
Proof.
  unfold chartPoint, handCategories. cbn [forEach].
  rewrite !categoryValue_meanValue. cbn.
  eexists. split; [ reflexivity | ]. split; [ reflexivity | ].
  intros category hs Hin.
  repeat (apply elem_of_cons in Hin as [Heq | Hin];
          [ injection Heq as -> ->; reflexivity | ]).
  by apply elem_of_nil in Hin.
Qed.

Lemma chartData_Ok (data : EquityData) :
  exists points, chartData data = Ok points /\ length points = 5%nat.
Proof.
  unfold chartData. cbn [mapM].
  destruct (chartPoint_Ok data 2) as (p2 & -> & _).
  destruct (chartPoint_Ok data 3) as (p3 & -> & _).
  destruct (chartPoint_Ok data 4) as (p4 & -> & _).
  destruct (chartPoint_Ok data 5) as (p5 & -> & _).
  destruct (chartPoint_Ok data 6) as (p6 & -> & _).
  cbn. eexists. split; reflexivity.
Qed.

(** C10. [chartData] has 5 points, for 2, 3, 4, 5 and 6 players in that
    order; in each, the value of each of the four categories is the
    arithmetic mean of equity times 100 over the hands of the category
    whose [players_N] entry exists, through [toFixed(1)], and the number
    0 when there is no such hand. *)
Theorem chartData_category_means (data : EquityData) :
  exists points,
    chartData data = Ok points /\
    length points = 5%nat /\
    length handCategories = 4%nat /\
    forall (i : nat) (players : Z),
      [2; 3; 4; 5; 6] !! i = Some players ->
      exists point,
        points !! i = Some point /\
        point !! "players" = Some (PNumber (Num.ofZ players)) /\
        forall category hs,
          (category, hs) ∈ handCategories ->
          point !! category = Some (meanValue data players hs) /\
          (presentPercentages data (playersKey players) hs = [] ->
           point !! category = Some (PNumber (Num.ofZ 0))).
Proof.
  unfold chartData. cbn [mapM].
  destruct (chartPoint_Ok data 2) as (p2 & -> & Hp2 & Hc2).
  destruct (chartPoint_Ok data 3) as (p3 & -> & Hp3 & Hc3).
  destruct (chartPoint_Ok data 4) as (p4 & -> & Hp4 & Hc4).
  destruct (chartPoint_Ok data 5) as (p5 & -> & Hp5 & Hc5).
  destruct (chartPoint_Ok data 6) as (p6 & -> & Hp6 & Hc6).
  cbn. eexists. split; [ reflexivity | ]. split; [ reflexivity | ].
  split; [ reflexivity | ].
  assert (forall (players : Z) (point : gmap string PointValue),
             (forall category hs,
                 (category, hs) ∈ handCategories ->
                 point !! category = Some (meanValue data players hs)) ->
             forall category hs,
               (category, hs) ∈ handCategories ->
               point !! category = Some (meanValue data players hs) /\
               (presentPercentages data (playersKey players) hs = [] ->
                point !! category = Some (PNumber (Num.ofZ 0)))) as Hzero.
  { intros players point Hc category hs Hin. split; [ by apply Hc | ].
    intros Hnone. rewrite (Hc category hs Hin). unfold meanValue.
    rewrite Hnone. reflexivity. }
  intros i players Hi.
  do 5 (destruct i as [|i];
        [ injection Hi as <-; eexists; split; [ reflexivity | ];
          split; [ assumption | by apply Hzero ] | ]).
  discriminate Hi.
Qed.

Lemma chartData_category_means_witness :
  exists points,
    chartData Sample.artifact = Ok points /\
    (exists point,
        points !! 4%nat = Some point /\
        point !! "players" = Some (PNumber (Num.ofZ 6)) /\
        point !! "Premium Pairs" = Some (PString "43.4") /\
        point !! "Mid Pairs" = Some (PString "31.7")) /\
    (exists point,
        points !! 1%nat = Some point /\
        point !! "High Cards" = Some (PNumber (Num.ofZ 0))).
Proof.
  destruct (chartData_category_means Sample.artifact)
    as (points & Hpoints & _ & _ & Hpoint).
  exists points. split; [ exact Hpoints | ]. split.
  - destruct (Hpoint 4%nat 6 eq_refl) as (point & Hi & Hplayers & Hcat).
    exists point. split; [ exact Hi | ]. split; [ exact Hplayers | ].
    split.
    + rewrite (proj1 (Hcat "Premium Pairs" ["AA"; "KK"; "QQ"]
                        ltac:(apply (bool_decide_unpack _); vm_compute; exact I))).
      vm_compute. reflexivity.
    + rewrite (proj1 (Hcat "Mid Pairs" ["JJ"; "TT"; "99"; "88"]
                        ltac:(apply (bool_decide_unpack _); vm_compute; exact I))).
      vm_compute. reflexivity.
  - destruct (Hpoint 1%nat 3 eq_refl) as (point & Hi & _ & Hcat).
    exists point. split; [ exact Hi | ].
    apply (Hcat "High Cards" ["AKs"; "AQs"; "AJs"; "KQs"]).
    + apply (bool_decide_unpack _). vm_compute. exact I.
    + vm_compute. reflexivity.
Defined.

End TrendChart.

(** ** Missing entries *)

Section MissingEntries.

Lemma bind_Ok_inv {A B} (r : Result A) (f : A -> Result B) (b : B) :
  r ≫= f = Ok b -> exists a, r = Ok a /\ f a = Ok b.
Proof. destruct r as [a|e]; cbn; [ eauto | discriminate ]. Qed.

(** The guards of [getEquity]: a missing hand or a missing table size
    reads as zero. *)
Lemma getEquity_missing (data : EquityData) (playerCount : Z) (hand : string) :
  hands data !! hand ≫= (fun handData => handData !! playersKey playerCount) = None ->
  EquityHeatmap.getEquity data playerCount hand = Ok Num.zero.
Proof.
  intros Hnone.
  rewrite getEquity_percentOrZero, percentOrZero_selected, Hnone. reflexivity.
Qed.

(** A hand without the entry adds nothing to the sum and the count. *)
Lemma accumulate_missing (data : EquityData) (key hand : string) (acc : number * Z) :
  hands data !! hand ≫= (fun handData => handData !! key) = None ->
  EquityTrends.accumulate data key acc hand = Ok acc.
Proof.
  destruct acc as [sum count]. unfold EquityTrends.accumulate. cbn.
  destruct (hands data !! hand) as [handData|]; cbn; [ | reflexivity ].
  intros ->. reflexivity.
Qed.

Lemma categoryAverages_Ok (data : EquityData) :
  exists averages,
    EquityTrends.categoryAverages data = Ok averages /\
    map EquityTrends.category averages = map fst EquityTrends.handCategories.
Proof.
  unfold EquityTrends.categoryAverages, EquityTrends.handCategories.
  cbn [mapM]. unfold EquityTrends.categoryAverage.
  rewrite !sumAndCount_present. cbn. eexists. split; reflexivity.
Qed.

(** [KeyInsights] reads the property [players_2] of [data.hands["AA"]]
    without a guard. *)
Lemma insights_missing_aces (data : EquityData) :
  hands data !! "AA" = None ->
  KeyInsights.insights data = Throw (TypeError "players_2").
Proof. intros Hnone. unfold KeyInsights.insights. cbn. rewrite Hnone. reflexivity. Qed.

(** C1, at an artifact without the hand "AA": the heatmap shows zero for
    the missing cell and renders, the trend chart leaves the hand out of
    its average and renders, and [KeyInsights] throws a [TypeError]. *)
Theorem KeyInsights_throws_on_missing_hand :
  hands Sample.withoutAces !! "AA" = None /\
  EquityHeatmap.getEquity Sample.withoutAces 6 "AA" = Ok Num.zero /\
  (exists grid, EquityHeatmap.renderGrid Sample.withoutAces 6 = Ok grid) /\
  EquityTrends.presentPercentages Sample.withoutAces "players_6" ["AA"; "KK"; "QQ"]
  = [Num.mul (Sample.fraction 4305) (Num.ofZ 100);
     Num.mul (Sample.fraction 3790) (Num.ofZ 100)] /\
  (exists points, EquityTrends.chartData Sample.withoutAces = Ok points) /\
  KeyInsights.insights Sample.withoutAces = Throw (TypeError "players_2") /\
  KeyInsights.insights Sample.empty = Throw (TypeError "players_2") /\
  (forall currentIndex : Z,
      KeyInsights.render Sample.withoutAces currentIndex
      = Throw (TypeError "players_2")).
Proof.
  assert (hands Sample.withoutAces !! "AA" = None) as Hnone
    by (vm_compute; reflexivity).
  split; [ exact Hnone | ].
  split; [ apply getEquity_missing; rewrite Hnone; reflexivity | ].
  split; [ eexists; apply renderGrid_Ok | ].
  split; [ vm_compute; reflexivity | ].
  split.
  { destruct (chartData_Ok Sample.withoutAces) as (points & H & _).
    exists points. exact H. }
  split; [ by apply insights_missing_aces | ].
  split; [ apply insights_missing_aces; reflexivity | ].
  intros currentIndex. unfold KeyInsights.render.
  rewrite (insights_missing_aces _ Hnone). reflexivity.
Qed.

End MissingEntries.

(** ** The carousel of KeyInsights *)

Section Carousel.
Import KeyInsights.

Lemma insights_length (data : EquityData) (l : list Insight) :
  insights data = Ok l -> length l = 9%nat.
Proof.
  unfold insights. intros H.
  repeat (apply bind_Ok_inv in H as (? & _ & H)).
  injection H as <-. reflexivity.
Qed.

Lemma index_range (i : Z) :
  0 <= i <= 8 ->
  i = 0 \/ i = 1 \/ i = 2 \/ i = 3 \/ i = 4 \/ i = 5 \/ i = 6 \/ i = 7 \/ i = 8.
Proof. lia. Qed.

(** C8. Whenever the insight cards are built there are exactly 9 of
    them, and on every index from 0 to 8 [nextInsight] and [prevInsight]
    undo each other and stay within 0 to 8. *)
Theorem carousel_round_trip (data : EquityData) (l : list Insight) (currentIndex : Z) :
  insights data = Ok l ->
  0 <= currentIndex <= 8 ->
  let n := Z.of_nat (length l) in
  length l = 9%nat /\
  prevInsight n (nextInsight n currentIndex) = currentIndex /\
  nextInsight n (prevInsight n currentIndex) = currentIndex /\
  0 <= nextInsight n currentIndex <= 8 /\
  0 <= prevInsight n currentIndex <= 8.
Proof.
  intros Hl Hi n. subst n. rewrite (insights_length data l Hl).
  split; [ reflexivity | ].
  apply index_range in Hi.
  repeat (destruct Hi as [-> | Hi]); subst; vm_compute; intuition congruence.
Qed.

Lemma carousel_round_trip_witness :
  exists l,
    insights Sample.artifact = Ok l /\
    length l = 9%nat /\
    prevInsight 9 (nextInsight 9 8) = 8 /\
    nextInsight 9 (prevInsight 9 0) = 0 /\
    nextInsight 9 8 = 0 /\
    prevInsight 9 0 = 8.
Proof.
  destruct (insights Sample.artifact) as [l|e] eqn:Hl;
    [ | exfalso; revert Hl; vm_compute; discriminate ].
  exists l. split; [ reflexivity | ].
  destruct (carousel_round_trip Sample.artifact l 8 Hl ltac:(lia))
    as (Hlen & Hpn & _ & _ & _).
  destruct (carousel_round_trip Sample.artifact l 0 Hl ltac:(lia))
    as (_ & _ & Hnp & _ & _).
  rewrite Hlen in Hpn, Hnp.
  split; [ exact Hlen | ]. split; [ exact Hpn | ]. split; [ exact Hnp | ].
  split; reflexivity.
Defined.

End Carousel.

(** ** The fetch of the Home page *)

Section Fetch.
Import Home.

Lemma loadEquity_rejected (fetched : Settled Response) :
  fetchFailed fetched = true ->
  exists err,
    loadEquity fetched initial
    = (Fulfilled tt,
       {| equityData := JNull; loading := false;
          console := ["Failed to load equity data: " +:+ err] |}).
Proof.
  destruct fetched as [[[data|err]]|err]; cbn; intros H;
    first [ discriminate H | eexists; reflexivity ].
Qed.

Lemma loadEquity_received (fetched : Settled Response) (data : Json) :
  payload fetched = Some data ->
  loadEquity fetched initial
  = (Fulfilled tt, {| equityData := data; loading := false; console := [] |}).
Proof.
  destruct fetched as [[[data'|err]]|err]; cbn; intros H;
    first [ discriminate H | injection H as ->; reflexivity ].
Qed.

Lemma payload_or_failed (fetched : Settled Response) :
  fetchFailed fetched = true <-> payload fetched = None.
Proof. destruct fetched as [[[d|e]]|e]; cbn; split; congruence. Qed.

(** The page for a payload that was received and is truthy. *)
Lemma settledPage_received (fetched : Settled Response) (data : Json) :
  payload fetched = Some data -> truthy data = true ->
  settledPage fetched
  = (metadata ← getMember (Some data) "metadata";
     num_simulations ← getMember metadata "num_simulations";
     simulations ← toLocaleString num_simulations;
     mret (DataView data simulations)).
Proof.
  intros Hp Ht. unfold settledPage. rewrite (loadEquity_received fetched data Hp).
  unfold Home. cbn [snd loading equityData]. rewrite Ht. reflexivity.
Qed.

(** C2. When the fetch fails (the promise of [fetch] is rejected or the
    body does not parse), the rejection handler leaves [loading] false
    and [equityData] null, and [Home] returns the page "Failed to load
    equity data": it neither returns the data view nor throws.  [Home]
    returns the data view only for a payload that was received, which
    then is the prop [data] of the components, and it throws only for a
    payload that was received.  A truthy payload that was received never
    gives the page of the failure: [Home] returns the data view when
    [metadata.num_simulations] of the payload can be printed, and throws
    a [TypeError] otherwise. *)
Theorem fetch_failure_surfaced (fetched : Settled Response) :
  (fetchFailed fetched = true ->
   loading (snd (loadEquity fetched initial)) = false /\
   equityData (snd (loadEquity fetched initial)) = JNull /\
   settledPage fetched = Ok (Message "Failed to load equity data") /\
   (forall data simulations, settledPage fetched <> Ok (DataView data simulations)) /\
   (forall e, settledPage fetched <> Throw e)) /\
  (forall data simulations,
      settledPage fetched = Ok (DataView data simulations) ->
      payload fetched = Some data /\ truthy data = true) /\
  (forall e,
      settledPage fetched = Throw e ->
      exists data, payload fetched = Some data /\ truthy data = true) /\
  (forall data,
      payload fetched = Some data -> truthy data = true ->
      settledPage fetched <> Ok (Message "Failed to load equity data") /\
      ((exists simulations,
           (metadata ← getMember (Some data) "metadata";
            getMember metadata "num_simulations") = Ok (Some simulations) /\
           localizable simulations = true /\
           settledPage fetched = Ok (DataView data simulations)) \/
       (exists property, settledPage fetched = Throw (TypeError property)))) /\
  (fetchFailed fetched = true <-> payload fetched = None) /\
  Home initial = Ok (Message "Loading equity data...").
Proof.
  split; [ | split; [ | split; [ | split; [ | split ] ] ] ].
  - intros Hfail. unfold settledPage.
    destruct (loadEquity_rejected fetched Hfail) as (err & ->). cbn.
    repeat split; intros; discriminate.
  - intros data simulations. 
    destruct (payload fetched) as [data'|] eqn:Hp.
    + destruct (truthy data') eqn:Ht.
      * rewrite (settledPage_received fetched data' Hp Ht).
        intros H.
        destruct (getMember (Some data') "metadata") as [metadata|]; [ | discriminate H ].
        cbn in H.
        destruct (getMember metadata "num_simulations") as [n|]; [ | discriminate H ].
        cbn in H.
        destruct (toLocaleString n) as [s|]; [ | discriminate H ].
        cbn in H. injection H as -> _. split; [ reflexivity | exact Ht ].
      * unfold settledPage. rewrite (loadEquity_received fetched data' Hp).
        unfold Home. cbn. rewrite Ht. discriminate.
    + apply payload_or_failed in Hp. unfold settledPage.
      destruct (loadEquity_rejected fetched Hp) as (err & ->). discriminate.
  - intros e.
    destruct (payload fetched) as [data'|] eqn:Hp.
    + destruct (truthy data') eqn:Ht; [ eauto | ].
      unfold settledPage. rewrite (loadEquity_received fetched data' Hp).
      unfold Home. cbn. rewrite Ht. discriminate.
    + apply payload_or_failed in Hp. unfold settledPage.
      destruct (loadEquity_rejected fetched Hp) as (err & ->). discriminate.
  - intros data Hp Ht. rewrite (settledPage_received fetched data Hp Ht).
    destruct (getMember (Some data) "metadata") as [metadata|e1];
      [ | split; [ discriminate | right; destruct e1; eauto ] ].
    cbn [mbind Result_bind].
    destruct (getMember metadata "num_simulations") as [n|e2];
      [ | split; [ discriminate | right; destruct e2; eauto ] ].
    cbn [mbind Result_bind].
    destruct n as [n|]; cbn [toLocaleString];
      [ | split; [ discriminate | right; eauto ] ].
    destruct (localizable n) eqn:Hn;
      [ | split; [ discriminate | right; eauto ] ].
    split; [ discriminate | ]. left. exists n. repeat split; assumption.
  - apply payload_or_failed.
  - reflexivity.
Qed.

Lemma fetch_failure_surfaced_witness :
  settledPage (Rejected "TypeError: Failed to fetch")
  = Ok (Message "Failed to load equity data") /\
  settledPage (Fulfilled {| json := Rejected "SyntaxError: Unexpected token" |})
  = Ok (Message "Failed to load equity data") /\
  settledPage
    (Fulfilled
       {| json := Fulfilled
                    (JObject [("hands", JObject []);
                              ("metadata",
                               JObject [("num_simulations",
                                         JNumber (Num.ofZ 100000))])]) |})
  <> Ok (Message "Failed to load equity data") /\
  settledPage (Fulfilled {| json := Fulfilled (JObject [("hands", JObject [])]) |})
  <> Ok (Message "Failed to load equity data").
Proof.
  split; [ | split; [ | split ] ].
  - apply (fetch_failure_surfaced (Rejected "TypeError: Failed to fetch")).
    reflexivity.
  - apply (fetch_failure_surfaced
             (Fulfilled {| json := Rejected "SyntaxError: Unexpected token" |})).
    reflexivity.
  - eapply (fetch_failure_surfaced
              (Fulfilled
                 {| json := Fulfilled
                              (JObject [("hands", JObject []);
                                        ("metadata",
                                         JObject [("num_simulations",
                                                   JNumber (Num.ofZ 100000))])]) |}));
      reflexivity.
  - eapply (fetch_failure_surfaced
              (Fulfilled {| json := Fulfilled (JObject [("hands", JObject [])]) |}));
      reflexivity.
Defined.

(** A payload without [metadata]: the data view is not returned, [Home]
    throws. *)
Example payload_without_metadata :
  settledPage (Fulfilled {| json := Fulfilled (JObject [("hands", JObject [])]) |})
  = Throw (TypeError "num_simulations") /\
  settledPage
    (Fulfilled
       {| json := Fulfilled
                    (JObject [("hands", JObject []);
                              ("metadata",
                               JObject [("num_simulations",
                                         JNumber (Num.ofZ 100000))])]) |})
  = Ok (DataView
          (JObject [("hands", JObject []);
                    ("metadata",
                     JObject [("num_simulations", JNumber (Num.ofZ 100000))])])
          (JNumber (Num.ofZ 100000))).
Proof. split; reflexivity. Qed.

End Fetch.

(** ** The artifact is only read *)

(** The properties of a chart point, in the order they are assigned. *)
Lemma chartPoint_fields (data : EquityData) (players : Z) :
  EquityTrends.chartPoint data players
  = Ok (foldl (fun point '(category, hs) =>
                 <[category := EquityTrends.meanValue data players hs]> point)
              {[ "players" := EquityTrends.PNumber (Num.ofZ players) ]}
              EquityTrends.handCategories).
Proof.
  unfold EquityTrends.chartPoint, EquityTrends.handCategories. cbn [forEach].
  rewrite !categoryValue_meanValue. reflexivity.
Qed.

Section Frame.
Import Component.

Lemma insert_last (h : Heap) (o o' : Object) :
  <[length h := o]> (h ++ [o']) = h ++ [o].
Proof.
  rewrite insert_app_r_alt by lia. rewrite Nat.sub_diag. reflexivity.
Qed.

Lemma lookup_last (h : Heap) (o : Object) : (h ++ [o]) !! length h = Some o.
Proof. by apply list_lookup_middle. Qed.

Lemma chartPoint_run (data : EquityData) (players : Z) (h : Heap) :
  exists point,
    EquityTrends.chartPoint data players = Ok point /\
    chartPoint data players h = (Ok (length h), h ++ [Point point]).
Proof.
  rewrite chartPoint_fields.
  unfold chartPoint, EquityTrends.handCategories. cbn [forEach].
  unfold mbind, M_bind, mret, M_ret, lift, alloc, store.
  rewrite !categoryValue_meanValue. rewrite !insert_last.
  eexists. split; reflexivity.
Qed.

Lemma bind_run {A B} (m : M A) (f : A -> M B) (h h' : Heap) (a : A) :
  m h = (Ok a, h') -> (m ≫= f) h = f a h'.
Proof. intros Hm. unfold mbind, M_bind. rewrite Hm. reflexivity. Qed.

Lemma chartData_run (data : EquityData) (h : Heap) :
  exists points,
    EquityTrends.chartData data = Ok points /\
    length points = 5%nat /\
    chartData data h = (Ok (seq (length h) 5), h ++ map Point points).
Proof.
  unfold chartData, EquityTrends.chartData. cbn [mapM].
  destruct (chartPoint_run data 2 h) as (p2 & -> & H2).
  destruct (chartPoint_run data 3 (h ++ [Point p2])) as (p3 & -> & H3).
  destruct (chartPoint_run data 4 ((h ++ [Point p2]) ++ [Point p3])) as (p4 & -> & H4).
  destruct (chartPoint_run data 5 (((h ++ [Point p2]) ++ [Point p3]) ++ [Point p4]))
    as (p5 & -> & H5).
  destruct (chartPoint_run data 6
              ((((h ++ [Point p2]) ++ [Point p3]) ++ [Point p4]) ++ [Point p5]))
    as (p6 & -> & H6).
  exists [p2; p3; p4; p5; p6]. split; [ reflexivity | ]. split; [ reflexivity | ].
  unfold mbind, M_bind, mret, M_ret. rewrite H2, H3, H4, H5, H6.
  rewrite !length_app. cbn [length map seq].
  rewrite <- !app_assoc. cbn [app].
  repeat f_equal; lia.
Qed.

(** The run of [EquityTrends]: the heap grows by the five points and the
    sorted array. *)
Lemma EquityTrends_run (sort : ArraySort.Sort) (h : Heap) (d : loc) (data : EquityData) :
  h !! d = Some (Artifact data) ->
  exists points averages,
    EquityTrends.chartData data = Ok points /\
    length points = 5%nat /\
    EquityTrends.categoryAverages data = Ok averages /\
    map EquityTrends.category averages = map fst EquityTrends.handCategories /\
    let sorted := sort _ EquityTrends.compareFn averages in
    let sortedCategories := map EquityTrends.category sorted in
    EquityTrends sort d h
    = (Ok {| chart := seq (length h) 5;
             lines := map (fun category =>
                             (category,
                              EquityTrends.colorMap sortedCategories !! category))
                          sortedCategories |},
       h ++ map Point points ++ [Averages sorted]).
Proof.
  intros Hd.
  destruct (chartData_run data h) as (points & Hpoints & Hlen & Hrun).
  destruct (categoryAverages_Ok data) as (averages & Hav & Hcat).
  exists points, averages.
  split; [ exact Hpoints | ]. split; [ exact Hlen | ].
  split; [ exact Hav | ]. split; [ exact Hcat | ].
  cbn zeta. unfold EquityTrends.
  assert (readData d h = (Ok data, h)) as Hread
    by (unfold readData; rewrite Hd; reflexivity).
  rewrite (bind_run _ _ _ _ _ Hread), (bind_run _ _ _ _ _ Hrun).
  unfold lift at 1. rewrite Hav.
  unfold mbind, M_bind, alloc, sortAt, categoriesAt, mret, M_ret.
  rewrite lookup_last, insert_last, lookup_last.
  rewrite <- app_assoc. reflexivity.
Qed.

(** C6. Every object of the heap, the artifact behind [data] among them,
    is after the evaluation of a component what it was before, whatever
    the component returns or throws and whatever order the sort of the
    engine produces.  [EquityHeatmap] and [KeyInsights] leave the heap as
    it is.  [EquityTrends] adds objects to it: its five chart points and
    the array of category averages, which is the array it sorts in place;
    the reference of that array is a new one, so it is none of the
    objects of the caller. *)
Theorem components_leave_artifact_unchanged
    (sort : ArraySort.Sort) (h : Heap) (d : loc) (data : EquityData)
    (playerCount currentIndex : Z) :
  h !! d = Some (Artifact data) ->
  let afterHeatmap := snd (EquityHeatmap d playerCount h) in
  let afterTrends := snd (EquityTrends sort d h) in
  let afterInsights := snd (KeyInsights d currentIndex h) in
  afterHeatmap = h /\
  afterInsights = h /\
  (forall (l : loc) (o : Object), h !! l = Some o -> afterTrends !! l = Some o) /\
  afterHeatmap !! d = Some (Artifact data) /\
  afterTrends !! d = Some (Artifact data) /\
  afterInsights !! d = Some (Artifact data) /\
  exists (points : list (gmap string EquityTrends.PointValue))
         (averages : list EquityTrends.CategoryAverage) (a : loc),
    EquityTrends.chartData data = Ok points /\
    EquityTrends.categoryAverages data = Ok averages /\
    afterTrends = h ++ map Point points ++ [Averages (sort _ EquityTrends.compareFn averages)] /\
    h !! a = None /\ a <> d /\
    afterTrends !! a = Some (Averages (sort _ EquityTrends.compareFn averages)).
Proof.
  intros Hd. cbn zeta.
  destruct (EquityTrends_run sort h d data Hd)
    as (points & averages & Hpoints & Hlen & Hav & _ & Hrun).
  cbn zeta in Hrun. rewrite Hrun. cbn [snd].
  assert (readData d h = (Ok data, h)) as Hread
    by (unfold readData; rewrite Hd; reflexivity).
  assert (snd (EquityHeatmap d playerCount h) = h) as Hheat.
  { unfold EquityHeatmap. rewrite (bind_run _ _ _ _ _ Hread). reflexivity. }
  assert (snd (KeyInsights d currentIndex h) = h) as Hins.
  { unfold KeyInsights. rewrite (bind_run _ _ _ _ _ Hread). reflexivity. }
  rewrite Hheat, Hins.
  split; [ reflexivity | ]. split; [ reflexivity | ].
  split; [ intros l o Hl; by apply lookup_app_l_Some | ].
  split; [ exact Hd | ]. split; [ by apply lookup_app_l_Some | ].
  split; [ exact Hd | ].
  exists points, averages, (length h + 5)%nat.
  split; [ exact Hpoints | ]. split; [ exact Hav | ]. split; [ reflexivity | ].
  split; [ apply lookup_ge_None; lia | ].
  split; [ apply lookup_lt_Some in Hd; lia | ].
  rewrite app_assoc. apply list_lookup_middle.
  rewrite length_app, length_map. lia.
Qed.

Lemma components_leave_artifact_unchanged_witness :
  let caller := [ Artifact Sample.artifact;
                  Averages [ {| EquityTrends.category := "Mid Pairs";
                                EquityTrends.avgEquity := Num.ofZ 1 |};
                             {| EquityTrends.category := "High Cards";
                                EquityTrends.avgEquity := Num.ofZ 2 |} ] ] in
  let afterTrends := snd (EquityTrends ArraySort.reference 0%nat caller) in
  afterTrends !! 0%nat = Some (Artifact Sample.artifact) /\
  afterTrends !! 1%nat = caller !! 1%nat /\
  snd (KeyInsights 0%nat 3 caller) = caller /\
  length afterTrends = 8%nat.
Proof.
  cbn zeta.
  destruct (components_leave_artifact_unchanged ArraySort.reference
              [ Artifact Sample.artifact;
                Averages [ {| EquityTrends.category := "Mid Pairs";
                              EquityTrends.avgEquity := Num.ofZ 1 |};
                           {| EquityTrends.category := "High Cards";
                              EquityTrends.avgEquity := Num.ofZ 2 |} ] ]
              0%nat Sample.artifact 6 3 eq_refl)
    as (_ & Hins & Hframe & _ & Hd & _ & points & averages & a & Hp & _ & Hh & _).
  split; [ exact Hd | ]. split; [ apply Hframe; reflexivity | ].
  split; [ exact Hins | ].
  rewrite Hh. destruct (chartData_Ok Sample.artifact) as (points' & Hp' & Hlen).
  rewrite Hp in Hp'. injection Hp' as <-.
  rewrite !length_app, length_map, Hlen. reflexivity.
Defined.

End Frame.

(** ** Bands, legend and selector of the heatmap *)

Section HeatmapLegend.
Import EquityHeatmap.

Lemma chain_geb_later (c0 c : number) (cs : list number) (k : nat) :
  chain Num.geb (c0 :: cs) = true -> cs !! k = Some c -> Num.leb c c0 = true.
Proof.
  revert c0 k. induction cs as [|c1 cs IH]; intros c0 k Hchain Hk;
    [ discriminate Hk | ].
  cbn [chain] in Hchain. apply andb_true_iff in Hchain as [H01 Hchain].
  destruct k as [|k].
  - injection Hk as <-. exact H01.
  - eapply leb_trans; [ exact (IH c1 k Hchain Hk) | exact H01 ].
Qed.

(** With non-increasing cutoffs, the first cutoff reached is at most the
    [k]-th exactly when the [k]-th cutoff is reached. *)
Lemma firstMatch_le_iff (e c : number) (cs : list number) (k : nat) :
  chain Num.geb cs = true -> cs !! k = Some c ->
  (firstMatch e cs <= k)%nat <-> Num.geb e c = true.
Proof.
  revert k. induction cs as [|c0 cs IH]; intros k Hchain Hk; [ discriminate Hk | ].
  cbn [firstMatch]. destruct k as [|k].
  - injection Hk as <-. destruct (Num.geb e c0); split; intros; (lia || congruence).
  - cbn in Hk. destruct (Num.geb e c0) eqn:H0.
    + split; [ intros _ | lia ].
      exact (leb_trans c c0 e (chain_geb_later c0 c cs k Hchain Hk) H0).
    + assert (chain Num.geb cs = true) as Hchain'.
      { destruct cs as [|c1 cs]; [ reflexivity | ].
        cbn [chain] in Hchain. by apply andb_true_iff in Hchain as [_ ?]. }
      rewrite <- (IH k Hchain' Hk). lia.
Qed.

Lemma cutoffs_non_increasing (playerCount : Z) :
  chain Num.geb (cutoffs playerCount) = true.
Proof.
  unfold cutoffs, thresholds.
  repeat (destruct (playerCount =? _); [ vm_compute; reflexivity | ]).
  vm_compute; reflexivity.
Qed.

Lemma cutoffs_thresholds (playerCount : Z) :
  cutoffs playerCount !! 2%nat = Some (thresholds playerCount).1.1 /\
  cutoffs playerCount !! 4%nat = Some (thresholds playerCount).1.2 /\
  cutoffs playerCount !! 6%nat = Some (thresholds playerCount).2.
Proof.
  unfold cutoffs. destruct (thresholds playerCount) as [[p s] q]. repeat split.
Qed.

Lemma bands_and_thresholds (playerCount : Z) (equity : number) :
  let '(premiumThreshold, strongThreshold, playableThreshold) :=
    thresholds playerCount in
  (Num.geb equity premiumThreshold = true
   <-> (8 <= bandIndex (getColor playerCount equity))%nat) /\
  (Num.geb equity strongThreshold = true
   <-> (6 <= bandIndex (getColor playerCount equity))%nat) /\
  (Num.geb equity playableThreshold = true
   <-> (4 <= bandIndex (getColor playerCount equity))%nat).
Proof.
  destruct (cutoffs_thresholds playerCount) as (H2 & H4 & H6).
  pose proof (cutoffs_non_increasing playerCount) as Hchain.
  pose proof (proj1 (getColor_band playerCount equity)) as Hband.
  pose proof (firstMatch_le_length equity (cutoffs playerCount)) as Hlen.
  rewrite cutoffs_length in Hlen.
  destruct (thresholds playerCount) as [[p s] q]. cbn [fst snd] in *.
  rewrite Hband.
  rewrite <- (firstMatch_le_iff equity p _ 2 Hchain H2).
  rewrite <- (firstMatch_le_iff equity s _ 4 Hchain H4).
  rewrite <- (firstMatch_le_iff equity q _ 6 Hchain H6).
  lia.
Qed.

(** X1. The bands of [getColor] refine the three thresholds: a cell is in one
    of the three strongest bands exactly when its equity reaches
    [premiumThreshold], in one of the five strongest exactly when it
    reaches [strongThreshold], and in one of the seven strongest exactly
    when it reaches [playableThreshold]; this for every table size. *)
Theorem getColor_bands_refine_thresholds (playerCount : Z) (equity : number) :
  let '(premiumThreshold, strongThreshold, playableThreshold) :=
    thresholds playerCount in
  (Num.geb equity premiumThreshold = true
   <-> (8 <= bandIndex (getColor playerCount equity))%nat) /\
  (Num.geb equity strongThreshold = true
   <-> (6 <= bandIndex (getColor playerCount equity))%nat) /\
  (Num.geb equity playableThreshold = true
   <-> (4 <= bandIndex (getColor playerCount equity))%nat).
Proof. exact (bands_and_thresholds playerCount equity). Qed.

Lemma legend_colors (playerCount : Z) :
  map color (getLegendCategories playerCount)
  = ["bg-green-500"; "bg-yellow-400"; "bg-orange-400"; "bg-red-400"].
Proof.
  unfold getLegendCategories.
  repeat (destruct (playerCount =? _); [ reflexivity | ]). reflexivity.
Qed.

(** X2. The captions of the legend state the thresholds [getColor] uses, for
    every table size: "Premium (p%+)", "Strong (s-p%)", "Playable (q-s%)"
    and "Weak (<q%)" for the integers p, s, q of [thresholds]; and the
    four swatches are the same four classes at every table size. *)
Theorem legend_captions_state_thresholds (playerCount : Z) :
  exists p s q : Z,
    thresholds playerCount = (Num.ofZ p, Num.ofZ s, Num.ofZ q) /\
    map legendLabel (getLegendCategories playerCount)
    = ["Premium (" +:+ pretty p +:+ "%+)";
       "Strong (" +:+ pretty s +:+ "-" +:+ pretty p +:+ "%)";
       "Playable (" +:+ pretty q +:+ "-" +:+ pretty s +:+ "%)";
       "Weak (<" +:+ pretty q +:+ "%)"] /\
    map color (getLegendCategories playerCount)
    = ["bg-green-500"; "bg-yellow-400"; "bg-orange-400"; "bg-red-400"].
Proof.
  unfold getLegendCategories, thresholds.
  destruct (playerCount =? 2); [ exists 50, 40, 30; repeat split | ].
  destruct (playerCount =? 3); [ exists 40, 30, 22; repeat split | ].
  destruct (playerCount =? 4); [ exists 35, 27, 20; repeat split | ].
  destruct (playerCount =? 5); [ exists 30, 23, 17; repeat split | ].
  exists 27, 20, 15; repeat split.
Qed.

(** X3. A cell that has the colour of a legend swatch: with the swatch of
    "Premium" its equity reaches [premiumThreshold]; with the swatch of
    "Strong" (bg-yellow-400) it is below [strongThreshold], in the range
    the legend calls playable; with the swatch of "Playable"
    (bg-orange-400) or of "Weak" it is below [playableThreshold]. *)
Theorem legend_swatch_ranges (playerCount : Z) (equity : number)
    (i : nat) (entry : LegendCategory) :
  getLegendCategories playerCount !! i = Some entry ->
  getColor playerCount equity = color entry ->
  let '(premiumThreshold, strongThreshold, playableThreshold) :=
    thresholds playerCount in
  (i = 0%nat -> Num.geb equity premiumThreshold = true) /\
  (i = 1%nat -> Num.geb equity strongThreshold = false /\
                Num.geb equity playableThreshold = true) /\
  (i = 2%nat -> Num.geb equity playableThreshold = false) /\
  (i = 3%nat -> Num.geb equity playableThreshold = false).
Proof.
  intros Hi Hcolor.
  assert (map color (getLegendCategories playerCount) !! i = Some (color entry)) as Hc
    by (rewrite list_lookup_fmap, Hi; reflexivity).
  rewrite legend_colors in Hc.
  pose proof (bands_and_thresholds playerCount equity) as Hb.
  destruct (thresholds playerCount) as [[p s] q].
  destruct Hb as (Hp & Hs & Hq). rewrite Hcolor in Hp, Hs, Hq.
  do 4 (destruct i as [|i];
        [ injection Hc as Hc; rewrite <- Hc in Hp, Hs, Hq; cbn in Hp, Hs, Hq;
          repeat split; intros; try lia;
          first [ (apply Hp; lia) | (apply Hq; lia)
                | (apply not_true_is_false; intros Ht; apply Hs in Ht; lia)
                | (apply not_true_is_false; intros Ht; apply Hq in Ht; lia) ] | ]).
  discriminate Hc.
Qed.

Lemma legend_swatch_ranges_witness :
  Num.geb (Num.ofZ 37) (Num.ofZ 40) = false /\
  Num.geb (Num.ofZ 37) (Num.ofZ 30) = true.
Proof.
  apply (legend_swatch_ranges 2 (Num.ofZ 37) 1
           {| color := "bg-yellow-400"; legendLabel := "Strong (40-50%)" |});
    reflexivity.
Defined.

(** X4. White text is used on every cell from bg-yellow-500 up and never on
    bg-red-500: the dark text appears only on the four weakest bands. *)
Theorem text_colour_and_band (playerCount : Z) (equity : number) :
  playerCount ∈ playerCounts ->
  ((4 <= bandIndex (getColor playerCount equity))%nat ->
   getTextColor equity = "text-white") /\
  (getTextColor equity = "text-white" ->
   (1 <= bandIndex (getColor playerCount equity))%nat).
Proof.
  intros Hpc.
  pose proof (bands_and_thresholds playerCount equity) as Hb.
  pose proof (proj1 (getColor_band playerCount equity)) as Hband.
  pose proof (cutoffs_non_increasing playerCount) as Hchain.
  pose proof (firstMatch_le_length equity (cutoffs playerCount)) as Hlen.
  rewrite cutoffs_length in Hlen.
  assert (exists q c9,
             (thresholds playerCount).2 = q /\
             cutoffs playerCount !! 9%nat = Some c9 /\
             Num.leb (Num.ofZ 15) q = true /\ Num.leb c9 (Num.ofZ 15) = true)
    as (q & c9 & Hq & H9 & H15q & H915).
  { unfold playerCounts in Hpc.
    repeat (apply elem_of_cons in Hpc as [-> | Hpc];
            [ eexists _, _; repeat split; vm_compute; reflexivity | ]).
    by apply elem_of_nil in Hpc. }
  destruct (thresholds playerCount) as [[p s] q']. cbn [snd] in Hq. subst q'.
  destruct Hb as (_ & _ & Hplay).
  unfold getTextColor. split.
  - intros H4. apply Hplay in H4.
    change (Num.geb equity (Num.ofZ 15)) with (Num.leb (Num.ofZ 15) equity).
    rewrite (leb_trans _ _ _ H15q H4). reflexivity.
  - destruct (Num.geb equity (Num.ofZ 15)) eqn:H15; [ intros _ | discriminate ].
    assert (Num.geb equity c9 = true) as Hc9
      by exact (leb_trans _ _ _ H915 H15).
    apply (firstMatch_le_iff equity c9 _ 9 Hchain H9) in Hc9. lia.
Qed.

Lemma text_colour_and_band_witness :
  getTextColor (Num.ofZ 31) = "text-white" /\
  (1 <= bandIndex (getColor 3 (Num.ofZ 31)))%nat.
Proof.
  assert (3 ∈ playerCounts) as H3
    by (apply (bool_decide_unpack _); vm_compute; exact I).
  destruct (text_colour_and_band 3 (Num.ofZ 31) H3) as (Hw & Hb).
  assert (getTextColor (Num.ofZ 31) = "text-white") as Ht
    by (apply Hw; vm_compute; lia).
  split; [ exact Ht | exact (Hb Ht) ].
Defined.

End HeatmapLegend.

(** ** Edge cases of the heatmap *)

Section HeatmapEdges.
Import EquityHeatmap.

(** X5. A cell whose hand, or whose entry for the table size, is missing
    shows "0.0%" in dark text on the weakest band, bg-red-500, except at
    6-max, where zero reaches the last cutoff and the band is bg-red-400. *)
Theorem missing_cell_rendering
    (data : EquityData) (playerCount : Z) (row col : nat) :
  playerCount ∈ playerCounts ->
  hands data !! getHandName row col
    ≫= (fun handData => handData !! playersKey playerCount) = None ->
  renderCell data playerCount row col
  = Ok {| className := "border border-gray-300 p-2 text-center "
                         +:+ (if playerCount =? 6 then "bg-red-400" else "bg-red-500")
                         +:+ " text-gray-800";
          title := getHandName row col +:+ ": 0.0% equity";
          label := getHandName row col;
          text := "0.0%" |}.
Proof.
  intros Hpc Hnone.
  rewrite renderCell_cellOf, percentOrZero_selected, Hnone.
  unfold cellOf. unfold playerCounts in Hpc.
  repeat (apply elem_of_cons in Hpc as [-> | Hpc]; [ reflexivity | ]).
  by apply elem_of_nil in Hpc.
Qed.

Lemma missing_cell_rendering_witness :
  renderCell Sample.withoutAces 6 0 0
  = Ok {| className := "border border-gray-300 p-2 text-center bg-red-400 text-gray-800";
          title := "AA: 0.0% equity"; label := "AA"; text := "0.0%" |}.
Proof.
  apply (missing_cell_rendering Sample.withoutAces 6 0 0).
  - apply (bool_decide_unpack _). vm_compute. exact I.
  - vm_compute. reflexivity.
Defined.

(** X6. At 6-max, with the equities of the artifact in [0,1], no cell is
    ever bg-red-500 or bg-yellow-400: of the 11 classes, 9 are in use. *)
Theorem sixmax_unused_bands (data : EquityData) (hand : string) (v : number) :
  (forall (handData : gmap string PlayerData) (playerData : PlayerData),
      hands data !! hand = Some handData ->
      handData !! "players_6" = Some playerData ->
      inUnitInterval (equity playerData)) ->
  getEquity data 6 hand = Ok v ->
  getColor 6 v <> "bg-red-500" /\ getColor 6 v <> "bg-yellow-400".
Proof.
  intros Hrange Hv. split; [ | apply getColor_6max_skips_yellow_400 ].
  rewrite getEquity_percentOrZero in Hv. injection Hv as <-.
  assert (Num.leb Num.zero (percentOrZero data 6 hand) = true) as Hlo.
  { unfold percentOrZero.
    destruct (hands data !! hand) as [handData|] eqn:Hhand; [ | reflexivity ].
    change (playersKey 6) with "players_6".
    destruct (handData !! "players_6") as [playerData|] eqn:Hp; [ | reflexivity ].
    destruct (Hrange handData playerData eq_refl Hp) as (Hvalid & H0 & H1).
    by apply mul100_range. }
  assert (cutoffs 6 !! 9%nat = Some Num.zero) as H9 by (vm_compute; reflexivity).
  apply (firstMatch_le_iff _ _ _ 9 (cutoffs_non_increasing 6) H9) in Hlo.
  pose proof (proj1 (getColor_band 6 (percentOrZero data 6 hand))) as Hband.
  intros Hred. rewrite Hred in Hband.
  change (bandIndex "bg-red-500") with 0%nat in Hband. lia.
Qed.

Lemma sixmax_unused_bands_witness :
  getColor 6 (Num.mul (Sample.fraction 4912) (Num.ofZ 100)) <> "bg-red-500".
Proof.
  apply (sixmax_unused_bands Sample.artifact "AA").
  - intros handData playerData Hhand Hp.
    exact (sample_in_unit_interval "AA" handData Hhand _ playerData Hp).
  - vm_compute. reflexivity.
Defined.

(** X7. The selector has one button per table size, captioned "Heads-Up",
    "3-Handed", "4-Handed", "5-Handed" and "6-Max"; a click sets one of
    these sizes, and exactly the button of the current size is drawn as
    selected. *)
Theorem selector_marks_current_size (playerCount : Z) :
  playerCount ∈ playerCounts ->
  map caption (selectorButtons playerCount)
  = ["Heads-Up"; "3-Handed"; "4-Handed"; "5-Handed"; "6-Max"] /\
  map onClick (selectorButtons playerCount) = playerCounts /\
  (forall b, b ∈ selectorButtons playerCount -> reachable (onClick b)) /\
  forall b,
    b ∈ selectorButtons playerCount ->
    (buttonClass b
     = "px-6 py-2 rounded-lg font-semibold transition-all " +:+ selectedClass
     <-> onClick b = playerCount) /\
    (buttonClass b
     = "px-6 py-2 rounded-lg font-semibold transition-all " +:+ unselectedClass
     <-> onClick b <> playerCount).
Proof.
  intros Hpc. split; [ reflexivity | ].
  split; [ unfold selectorButtons; rewrite map_map; apply map_id | ].
  split.
  - intros b Hb. apply reachable_playerCounts.
    unfold selectorButtons in Hb. apply list_elem_of_fmap in Hb as (count & -> & Hc).
    exact Hc.
  - intros b Hb. unfold selectorButtons in Hb.
    apply list_elem_of_fmap in Hb as (count & -> & Hc).
    unfold selectorButton. cbn [buttonClass onClick].
    destruct (Z.eqb_spec playerCount count) as [<- | Hne].
    + split; split; intros H; try reflexivity; try congruence.
      exfalso. revert H. vm_compute. discriminate.
    + split; split; intros H; try reflexivity; try congruence.
      exfalso. revert H. vm_compute. discriminate.
Qed.

Lemma selector_marks_current_size_witness :
  map caption (selectorButtons 6)
  = ["Heads-Up"; "3-Handed"; "4-Handed"; "5-Handed"; "6-Max"] /\
  map onClick (selectorButtons 6) = playerCounts.
Proof.
  assert (6 ∈ playerCounts) as H6
    by (apply (bool_decide_unpack _); vm_compute; exact I).
  destruct (selector_marks_current_size 6 H6) as (Hc & Ho & _).
  split; [ exact Hc | exact Ho ].
Defined.

End HeatmapEdges.

(** ** The sort of the engine *)

Section SortTheory.
Import ArraySort.
Context {A : Type} (comparefn : A -> A -> Num.number).

(** A number that is not NaN is negative, zero or positive, and only one
    of these. *)
Lemma sign_cases (v : Num.number) :
  isNaN v = false ->
  (isNegative v = true /\ isZero v = false /\ isPositive v = false) \/
  (isNegative v = false /\ isZero v = true /\ isPositive v = false) \/
  (isNegative v = false /\ isZero v = false /\ isPositive v = true).
Proof.
  destruct v as [s|s| |s m e]; try destruct s; cbn; intros H;
    first [ discriminate H | tauto ].
Qed.

Lemma SortCompare_consistent (x y : A) :
  isNaN (comparefn x y) = false -> SortCompare comparefn x y = comparefn x y.
Proof. unfold SortCompare. intros ->. reflexivity. Qed.

Section Consistent.
Variable elems : list A.
Hypothesis Helems : consistentComparator comparefn elems.

Lemma consistent_at (a b c : A) :
  a ∈ elems -> b ∈ elems -> c ∈ elems -> consistentAt comparefn a b c.
Proof.
  intros Ha Hb Hc. unfold consistentComparator in Helems.
  rewrite Forall_forall in Helems. specialize (Helems a Ha).
  rewrite Forall_forall in Helems. specialize (Helems b Hb).
  rewrite Forall_forall in Helems. exact (Helems c Hc).
Qed.

(** Of [a <CF b], [a =CF b], [a >CF b] exactly one holds. *)
Lemma cases_CF (a b : A) :
  a ∈ elems -> b ∈ elems ->
  (lessCF comparefn a b /\ ~ sameCF comparefn a b /\ ~ greaterCF comparefn a b) \/
  (~ lessCF comparefn a b /\ sameCF comparefn a b /\ ~ greaterCF comparefn a b) \/
  (~ lessCF comparefn a b /\ ~ sameCF comparefn a b /\ greaterCF comparefn a b).
Proof.
  intros Ha Hb. destruct (consistent_at a b b Ha Hb Hb) as (Hnan & _).
  unfold lessCF, sameCF, greaterCF.
  destruct (sign_cases _ Hnan) as [(-> & -> & ->)|[(-> & -> & ->)|(-> & -> & ->)]];
    [ left | right; left | right; right ]; repeat split; congruence.
Qed.

Lemma same_refl (a : A) : a ∈ elems -> sameCF comparefn a a.
Proof. intros Ha. by destruct (consistent_at a a a Ha Ha Ha) as (_ & ? & _). Qed.

Lemma same_sym (a b : A) :
  a ∈ elems -> b ∈ elems -> sameCF comparefn a b -> sameCF comparefn b a.
Proof. intros Ha Hb. by destruct (consistent_at a b b Ha Hb Hb) as (_ & _ & ? & _). Qed.

Lemma same_trans (a b c : A) :
  a ∈ elems -> b ∈ elems -> c ∈ elems ->
  sameCF comparefn a b -> sameCF comparefn b c -> sameCF comparefn a c.
Proof.
  intros Ha Hb Hc. by destruct (consistent_at a b c Ha Hb Hc) as (_ & _ & _ & ? & _).
Qed.

Lemma less_trans (a b c : A) :
  a ∈ elems -> b ∈ elems -> c ∈ elems ->
  lessCF comparefn a b -> lessCF comparefn b c -> lessCF comparefn a c.
Proof.
  intros Ha Hb Hc. by destruct (consistent_at a b c Ha Hb Hc) as (_ & _ & _ & _ & ? & _).
Qed.

Lemma greater_trans (a b c : A) :
  a ∈ elems -> b ∈ elems -> c ∈ elems ->
  greaterCF comparefn a b -> greaterCF comparefn b c -> greaterCF comparefn a c.
Proof.
  intros Ha Hb Hc. by destruct (consistent_at a b c Ha Hb Hc) as (_ & _ & _ & _ & _ & ?).
Qed.

Lemma less_irrefl (a : A) : a ∈ elems -> ~ lessCF comparefn a a.
Proof.
  intros Ha Hl. pose proof (same_refl a Ha) as Hs.
  destruct (cases_CF a a Ha Ha) as [(_ & H & _)|[(H & _)|(H & _)]]; tauto.
Qed.

Lemma greater_less (a b : A) :
  a ∈ elems -> b ∈ elems -> greaterCF comparefn a b -> lessCF comparefn b a.
Proof.
  intros Ha Hb Hg.
  destruct (cases_CF a b Ha Hb) as [(_ & _ & H)|[(_ & _ & H)|(Hnl & Hns & _)]];
    [ tauto | tauto | ].
  destruct (cases_CF b a Hb Ha) as [(H & _)|[(_ & H & _)|(_ & _ & H)]].
  - exact H.
  - exfalso. apply Hns. by apply same_sym.
  - exfalso. pose proof (greater_trans a b a Ha Hb Ha Hg H) as Hg'.
    pose proof (same_refl a Ha) as Hs.
    destruct (cases_CF a a Ha Ha) as [(_ & _ & H')|[(_ & _ & H')|(_ & H' & _)]]; tauto.
Qed.

Lemma less_same (a b c : A) :
  a ∈ elems -> b ∈ elems -> c ∈ elems ->
  lessCF comparefn a b -> sameCF comparefn b c -> lessCF comparefn a c.
Proof.
  intros Ha Hb Hc Hab Hbc.
  destruct (cases_CF a c Ha Hc) as [(H & _)|[(_ & H & _)|(_ & _ & H)]].
  - exact H.
  - exfalso.
    assert (sameCF comparefn a b) as Hs.
    { apply (same_trans a c b); try assumption. by apply same_sym. }
    destruct (cases_CF a b Ha Hb) as [(_ & H' & _)|[(H' & _)|(H' & _)]]; tauto.
  - exfalso. apply greater_less in H; try assumption.
    pose proof (less_trans c a b Hc Ha Hb H Hab) as Hcb.
    apply same_sym in Hbc; try assumption.
    destruct (cases_CF c b Hc Hb) as [(_ & H' & _)|[(H' & _)|(H' & _)]]; tauto.
Qed.

Lemma same_less (a b c : A) :
  a ∈ elems -> b ∈ elems -> c ∈ elems ->
  sameCF comparefn a b -> lessCF comparefn b c -> lessCF comparefn a c.
Proof.
  intros Ha Hb Hc Hab Hbc.
  destruct (cases_CF a c Ha Hc) as [(H & _)|[(_ & H & _)|(_ & _ & H)]].
  - exact H.
  - exfalso.
    assert (sameCF comparefn b c) as Hs.
    { apply (same_trans b a c); try assumption. by apply same_sym. }
    destruct (cases_CF b c Hb Hc) as [(_ & H' & _)|[(H' & _)|(H' & _)]]; tauto.
  - exfalso. apply greater_less in H; try assumption.
    pose proof (less_trans b c a Hb Hc Ha Hbc H) as Hba.
    apply same_sym in Hab; try assumption.
    destruct (cases_CF b a Hb Ha) as [(_ & H' & _)|[(H' & _)|(H' & _)]]; tauto.
Qed.

Lemma before_trans (a b c : nat * A) :
  a.2 ∈ elems -> b.2 ∈ elems -> c.2 ∈ elems ->
  before comparefn a b -> before comparefn b c -> before comparefn a c.
Proof.
  intros Ha Hb Hc [Hab|[Hab Hi]] [Hbc|[Hbc Hj]].
  - left. by apply (less_trans _ b.2).
  - left. by apply (less_same _ b.2).
  - left. by apply (same_less _ b.2).
  - right. split; [ by apply (same_trans _ b.2) | lia ].
Qed.

Lemma before_asym (a b : nat * A) :
  a.2 ∈ elems -> b.2 ∈ elems -> before comparefn a b -> before comparefn b a -> False.
Proof.
  intros Ha Hb Hab Hba.
  pose proof (before_trans a b a Ha Hb Ha Hab Hba) as [H|[_ H]]; [ | lia ].
  by apply (less_irrefl a.2).
Qed.

Lemma before_total (a b : nat * A) :
  a.2 ∈ elems -> b.2 ∈ elems -> a.1 <> b.1 -> before comparefn a b \/ before comparefn b a.
Proof.
  intros Ha Hb Hne.
  destruct (cases_CF a.2 b.2 Ha Hb) as [(H & _)|[(_ & H & _)|(_ & _ & H)]].
  - left. by left.
  - destruct (decide (a.1 < b.1)%nat).
    + left. right. by split.
    + right. right. split; [ by apply same_sym | lia ].
  - right. left. by apply greater_less.
Qed.

Lemma placed_tail (a : nat * A) (t : list (nat * A)) : placed comparefn (a :: t) -> placed comparefn t.
Proof.
  intros H p q x y Hp Hq Hb.
  specialize (H (S p) (S q) x y Hp Hq Hb). lia.
Qed.

(** Two arrangements of the same tagged elements that both meet the
    conditions are the same array. *)
Lemma placed_unique (t1 t2 : list (nat * A)) :
  Forall (fun a => a.2 ∈ elems) t1 ->
  NoDup (t1.*1) ->
  t1 ≡ₚ t2 ->
  placed comparefn t1 -> placed comparefn t2 -> t1 = t2.
Proof.
  revert t2. induction t1 as [|a t1 IH]; intros t2 HinS Hnd Hperm H1 H2.
  - apply Permutation_nil_l in Hperm. by subst.
  - destruct t2 as [|b t2].
    { symmetry in Hperm. by apply Permutation_nil_cons in Hperm. }
    assert (a = b) as <-.
    { assert (a ∈ b :: t2) as Ha by (rewrite <- Hperm; left).
      assert (b ∈ a :: t1) as Hb by (rewrite Hperm; left).
      apply list_elem_of_lookup in Ha as [q Hq].
      apply list_elem_of_lookup in Hb as [p Hp].
      destruct q as [|q]; [ cbn in Hq; congruence | ].
      destruct p as [|p]; [ cbn in Hp; congruence | ].
      exfalso.
      assert (a.2 ∈ elems) as HaS by (by inversion HinS).
      assert (b.2 ∈ elems) as HbS.
      { rewrite Forall_forall in HinS. apply HinS.
        apply list_elem_of_lookup. by exists (S p). }
      assert (a.1 <> b.1) as Hne.
      { intros Heq.
        assert ((a :: t1).*1 !! 0%nat = Some a.1) as E0 by reflexivity.
        assert ((a :: t1).*1 !! S p = Some a.1) as E1
          by (rewrite list_lookup_fmap, Hp, Heq; reflexivity).
        pose proof (NoDup_lookup _ _ _ _ Hnd E0 E1). discriminate. }
      destruct (before_total a b HaS HbS Hne) as [Hab|Hba].
      - specialize (H2 (S q) 0%nat a b Hq eq_refl Hab). lia.
      - specialize (H1 (S p) 0%nat b a Hp eq_refl Hba). lia. }
    f_equal. apply IH.
    + by inversion HinS.
    + cbn in Hnd. by apply NoDup_cons in Hnd as [_ ?].
    + by apply Permutation_cons_inv in Hperm.
    + by apply placed_tail in H1.
    + by apply placed_tail in H2.
Qed.

(** An array in which every element is to stand before all later ones
    meets the conditions. *)
Lemma sorted_placed (t : list (nat * A)) :
  Forall (fun a => a.2 ∈ elems) t ->
  StronglySorted (before comparefn) t -> placed comparefn t.
Proof.
  intros HinS Hs. induction Hs as [|a t Hs IH Ha]; intros p q x y Hp Hq Hb.
  - discriminate Hp.
  - assert (a.2 ∈ elems) as HaS by (by inversion HinS).
    assert (Forall (fun a => a.2 ∈ elems) t) as HtS by (by inversion HinS).
    rewrite List.Forall_forall in Ha.
    assert (forall n z, t !! n = Some z -> before comparefn a z /\ z.2 ∈ elems) as Hlater.
    { intros n z Hn. split.
      - apply Ha. apply list_elem_of_In, list_elem_of_lookup. eauto.
      - rewrite Forall_forall in HtS. apply HtS, list_elem_of_lookup. eauto. }
    destruct p as [|p], q as [|q]; cbn in Hp, Hq.
    + injection Hp as <-. injection Hq as <-. exfalso.
      by apply (before_asym a a).
    + lia.
    + injection Hq as <-. exfalso. destruct (Hlater p x Hp) as [Hax HxS].
      by apply (before_asym a x).
    + specialize (IH HtS p q x y Hp Hq Hb). lia.
Qed.

End Consistent.

Lemma insertSorted_Permutation {B} (cmp : B -> B -> Num.number) (x : B) (l : list B) :
  insertSorted cmp x l ≡ₚ x :: l.
Proof.
  induction l as [|y l IH]; cbn [insertSorted]; [ reflexivity | ].
  destruct (isPositive _); [ | reflexivity ].
  rewrite IH. apply Permutation_swap.
Qed.

Lemma stableSort_Permutation {B} (cmp : B -> B -> Num.number) (l : list B) :
  stableSort cmp l ≡ₚ l.
Proof.
  unfold stableSort. induction l as [|x l IH]; cbn [foldr]; [ reflexivity | ].
  rewrite insertSorted_Permutation, IH. reflexivity.
Qed.

Lemma insertSorted_untag (a : nat * A) (t : list (nat * A)) :
  (insertSorted (comparefnT comparefn) a t).*2 = insertSorted comparefn a.2 (t.*2).
Proof.
  induction t as [|b t IH]; [ reflexivity | ].
  cbn [insertSorted fmap list_fmap]. unfold SortCompare, comparefnT at 1 2.
  fold (SortCompare comparefn a.2 b.2).
  destruct (isPositive (SortCompare comparefn a.2 b.2)); cbn [fmap list_fmap].
  - f_equal. exact IH.
  - reflexivity.
Qed.

Lemma stableSort_untag (t : list (nat * A)) :
  (stableSort (comparefnT comparefn) t).*2 = stableSort comparefn (t.*2).
Proof.
  unfold stableSort. induction t as [|a t IH]; [ reflexivity | ].
  cbn [foldr fmap list_fmap]. rewrite insertSorted_untag. f_equal. exact IH.
Qed.

Lemma imap_pair_untag (k : nat) (l : list A) :
  (imap (fun i x => ((k + i)%nat, x)) l).*2 = l.
Proof.
  revert k. induction l as [|x l IH]; intros k; [ reflexivity | ].
  cbn [imap fmap list_fmap]. f_equal.
  rewrite <- (IH (S k)) at 2. f_equal. apply imap_ext.
  intros i y _. cbn. f_equal. lia.
Qed.

Lemma imap_pair_tags (k : nat) (l : list A) :
  (imap (fun i x => ((k + i)%nat, x)) l).*1 = seq k (length l).
Proof.
  revert k. induction l as [|x l IH]; intros k; [ reflexivity | ].
  cbn [imap fmap list_fmap length seq]. f_equal; [ cbn; lia | ].
  rewrite <- (IH (S k)). f_equal. apply imap_ext.
  intros i y _. cbn. f_equal. lia.
Qed.

End SortTheory.

Section Reference.
Import ArraySort.
Context {A : Type} (comparefn : A -> A -> Num.number).

Section Consistent.
Variable elems : list A.
Hypothesis Helems : consistentComparator comparefn elems.

Lemma SortCompare_in (x y : A) :
  x ∈ elems -> y ∈ elems -> SortCompare comparefn x y = comparefn x y.
Proof.
  intros Hx Hy. apply SortCompare_consistent.
  by destruct (consistent_at comparefn elems Helems x y y Hx Hy Hy) as (? & _).
Qed.

(** Insertion of an element whose index is below those of the array. *)
Lemma insertSorted_sorted (a : nat * A) (t : list (nat * A)) :
  a.2 ∈ elems ->
  Forall (fun b => b.2 ∈ elems) t ->
  Forall (fun b => (a.1 < b.1)%nat) t ->
  StronglySorted (before comparefn) t ->
  StronglySorted (before comparefn) (insertSorted (comparefnT comparefn) a t).
Proof.
  intros Ha. induction t as [|b t IH]; intros HtS Htags Hs; cbn [insertSorted].
  - repeat constructor.
  - assert (b.2 ∈ elems) as Hb by (by inversion HtS).
    assert (Forall (fun b => b.2 ∈ elems) t) as HtS' by (by inversion HtS).
    apply StronglySorted_inv in Hs as [Hs Hbt].
    unfold SortCompare, comparefnT at 1 2. fold (SortCompare comparefn a.2 b.2).
    rewrite (SortCompare_in _ _ Ha Hb).
    destruct (isPositive (comparefn a.2 b.2)) eqn:Hpos.
    + constructor.
      * apply IH; [ exact HtS' | by inversion Htags | exact Hs ].
      * apply List.Forall_forall. intros z Hz.
        apply list_elem_of_In in Hz. rewrite insertSorted_Permutation in Hz.
        apply elem_of_cons in Hz as [-> | Hz].
        -- left. by apply (greater_less comparefn elems Helems).
        -- rewrite List.Forall_forall in Hbt. by apply Hbt, list_elem_of_In.
    + assert (before comparefn a b) as Hab.
      { destruct (cases_CF comparefn elems Helems a.2 b.2 Ha Hb)
          as [(H & _)|[(_ & H & _)|(_ & _ & H)]].
        - by left.
        - right. split; [ exact H | by inversion Htags ].
        - unfold greaterCF in H. congruence. }
      constructor; [ by constructor | ].
      constructor; [ exact Hab | ].
      apply List.Forall_forall. intros z Hz.
      rewrite List.Forall_forall in Hbt. specialize (Hbt z Hz).
      apply (before_trans comparefn elems Helems a b z); try assumption.
      rewrite Forall_forall in HtS'. by apply HtS', list_elem_of_In.
Qed.

Lemma stableSort_sorted (t : list (nat * A)) :
  Forall (fun b => b.2 ∈ elems) t ->
  StronglySorted (fun a b : nat * A => (a.1 < b.1)%nat) t ->
  StronglySorted (before comparefn) (stableSort (comparefnT comparefn) t).
Proof.
  induction t as [|a t IH]; intros HtS Htags; [ constructor | ].
  unfold stableSort. cbn [foldr]. fold (stableSort (comparefnT comparefn) t).
  apply StronglySorted_inv in Htags as [Htags Ha].
  apply insertSorted_sorted.
  - by inversion HtS.
  - rewrite stableSort_Permutation. by inversion HtS.
  - rewrite stableSort_Permutation. exact Ha.
  - apply IH; [ by inversion HtS | exact Htags ].
Qed.

End Consistent.

Lemma tags_increasing (k : nat) (l : list A) :
  StronglySorted (fun a b : nat * A => (a.1 < b.1)%nat)
    (imap (fun i x => ((k + i)%nat, x)) l).
Proof.
  revert k. induction l as [|x l IH]; intros k; [ constructor | ].
  cbn [imap].
  assert (imap ((fun i x => ((k + i)%nat, x)) ∘ S) l
          = imap (fun i x => ((S k + i)%nat, x)) l) as ->
    by (apply imap_ext; intros i y _; cbn; f_equal; lia).
  constructor; [ apply IH | ].
  apply List.Forall_forall. intros z Hz. apply list_elem_of_In in Hz.
  apply list_elem_of_lookup in Hz as [n Hn].
  rewrite list_lookup_imap in Hn.
  destruct (l !! n); [ | discriminate Hn ]. injection Hn as <-. cbn. lia.
Qed.

Lemma imap_pair_shift (l : list A) :
  imap pair l = imap (fun i x => ((0 + i)%nat, x)) l.
Proof. apply imap_ext. reflexivity. Qed.

Lemma tagged_in (l : list A) (t : list (nat * A)) :
  t ≡ₚ imap pair l -> Forall (fun b => b.2 ∈ l) t.
Proof.
  intros Hperm. apply Forall_forall. intros [i x] Hin.
  rewrite Hperm in Hin. apply list_elem_of_lookup in Hin as [n Hn].
  rewrite list_lookup_imap in Hn.
  destruct (l !! n) as [y|] eqn:Hy; [ | discriminate Hn ].
  injection Hn as <- <-. cbn. apply list_elem_of_lookup. eauto.
Qed.

Lemma sortOrder_placed (items : list A) (t : list (nat * A)) :
  consistentComparator comparefn items ->
  t ≡ₚ imap pair items ->
  (placed comparefn t <->
   forall (p q i j : nat) (x y : A),
     t !! p = Some (i, x) -> t !! q = Some (j, y) ->
     (isNegative (SortCompare comparefn x y) = true -> (p < q)%nat) /\
     (isZero (SortCompare comparefn x y) = true -> (i < j)%nat -> (p < q)%nat)).
Proof.
  intros Helems Hperm. pose proof (tagged_in items t Hperm) as HtS.
  rewrite Forall_forall in HtS.
  assert (forall p a, t !! p = Some a -> a.2 ∈ items) as Hin
    by (intros p a Hp; apply HtS, list_elem_of_lookup; eauto).
  split.
  - intros Hpl p q i j x y Hp Hq.
    rewrite (SortCompare_in items Helems x y (Hin _ _ Hp) (Hin _ _ Hq)).
    split.
    + intros Hneg. apply (Hpl p q _ _ Hp Hq). by left.
    + intros Hz Hij. apply (Hpl p q _ _ Hp Hq). right. by split.
  - intros Hc p q [i x] [j y] Hp Hq Hb.
    destruct (Hc p q i j x y Hp Hq) as [Hneg Hzero].
    rewrite (SortCompare_in items Helems x y (Hin _ _ Hp) (Hin _ _ Hq)) in Hneg, Hzero.
    destruct Hb as [Hb|[Hb Hij]]; [ by apply Hneg | by apply Hzero ].
Qed.

(** The stable sort produces the sort order of the standard. *)
Lemma stableSort_sortOrder (items : list A) :
  consistentComparator comparefn items ->
  sortOrder comparefn items (stableSort comparefn items).
Proof.
  intros Helems. exists (stableSort (comparefnT comparefn) (imap pair items)).
  assert (stableSort (comparefnT comparefn) (imap pair items) ≡ₚ imap pair items)
    as Hperm by apply stableSort_Permutation.
  split; [ exact Hperm | ]. split.
  - rewrite stableSort_untag, imap_pair_shift, imap_pair_untag. reflexivity.
  - apply (sortOrder_placed items _ Helems Hperm).
    apply (sorted_placed comparefn items Helems).
    + by apply tagged_in.
    + apply (stableSort_sorted items Helems).
      * apply tagged_in. reflexivity.
      * rewrite imap_pair_shift. apply tags_increasing.
Qed.

(** The sort order of an array is unique. *)
Lemma sortOrder_unique (items new1 new2 : list A) :
  consistentComparator comparefn items ->
  sortOrder comparefn items new1 -> sortOrder comparefn items new2 -> new1 = new2.
Proof.
  intros Helems (t1 & Hp1 & -> & Hc1) (t2 & Hp2 & -> & Hc2).
  f_equal. apply (placed_unique comparefn items Helems).
  - by apply tagged_in.
  - rewrite Hp1, imap_pair_shift, imap_pair_tags. apply NoDup_seq.
  - by rewrite Hp1, Hp2.
  - by apply (sortOrder_placed items t1 Helems Hp1).
  - by apply (sortOrder_placed items t2 Helems Hp2).
Qed.

End Reference.

Section Engines.
Import ArraySort.

(** The stable sort is the method of a conforming engine. *)
Lemma reference_conforming : conforming reference.
Proof.
  intros A comparefn items. split.
  - apply stableSort_Permutation.
  - apply stableSort_sortOrder.
Qed.

(** With a consistent comparator, every conforming engine returns the
    array of the stable sort. *)
Lemma conforming_stableSort (sort : Sort) {A} (comparefn : A -> A -> Num.number)
    (items : list A) :
  conforming sort ->
  consistentComparator comparefn items ->
  sort A comparefn items = stableSort comparefn items.
Proof.
  intros Hsort Helems. destruct (Hsort A comparefn items) as [_ Horder].
  apply (sortOrder_unique comparefn items); [ exact Helems | by apply Horder | ].
  by apply stableSort_sortOrder.
Qed.

End Engines.

(** ** The order of the trend lines *)

Section TrendOrder.
Import EquityTrends ArraySort.

Lemma round_aux_negative (mx ex : Z) (lx : location) :
  Num.gtb (binary_round_aux 53 1024 true mx ex lx) Num.zero = false.
Proof.
  unfold binary_round_aux.
  destruct (shr_fexp 53 1024 mx ex lx) as [mrs' e'].
  destruct (shr_fexp 53 1024 _ e' loc_Exact) as [mrs'' e''].
  destruct (shr_m mrs''); [ reflexivity | | reflexivity ].
  destruct (Z.leb _ _); reflexivity.
Qed.

Lemma normalize_positive (D e : Z) :
  Num.gtb (binary_normalize 53 1024 D e false) Num.zero = true -> 0 < D.
Proof.
  destruct D as [|m|m]; cbn [binary_normalize]; [ discriminate | lia | ].
  unfold binary_round. destruct (shl_align _ _ _) as [mz ez].
  rewrite round_aux_negative. discriminate.
Qed.

(** The sign of a difference: [a - b] and [b - a] are never both positive. *)
Lemma sub_positive_antisym (a b : number) :
  Num.gtb (Num.sub a b) Num.zero = true -> Num.gtb (Num.sub b a) Num.zero = false.
Proof.
  destruct a as [sa|sa| |sa ma ea], b as [sb|sb| |sb mb eb];
    try (destruct sa); try (destruct sb); try reflexivity; try discriminate.
  all: unfold Num.sub, SFsub; rewrite (Z.min_comm eb ea);
    set (X := Z.pos (fst (shl_align ma ea (Z.min ea eb))));
    set (Y := Z.pos (fst (shl_align mb eb (Z.min ea eb))));
    intros H; apply normalize_positive in H;
    apply not_true_is_false; intros H'; apply normalize_positive in H';
    cbn [cond_Zopp] in *; lia.
Qed.

Lemma isPositive_SortCompare {A} (comparefn : A -> A -> number) (x y : A) :
  isPositive (SortCompare comparefn x y) = isPositive (comparefn x y).
Proof.
  unfold SortCompare. destruct (comparefn x y) as [s|s| |s m e]; reflexivity.
Qed.

Lemma insertSorted_HdRel (x y : CategoryAverage) (l : list CategoryAverage) :
  inOrder y x -> HdRel inOrder y l -> HdRel inOrder y (insertSorted compareFn x l).
Proof.
  intros Hyx Hy. destruct l as [|z l]; cbn [insertSorted]; [ by constructor | ].
  destruct (isPositive _); constructor; [ by inversion Hy | exact Hyx ].
Qed.

Lemma insertSorted_Sorted (x : CategoryAverage) (l : list CategoryAverage) :
  Sorted inOrder l -> Sorted inOrder (insertSorted compareFn x l).
Proof.
  induction l as [|y l IH]; intros Hs; cbn [insertSorted].
  - repeat constructor.
  - inversion Hs as [|? ? Hl Hy]; subst.
    rewrite isPositive_SortCompare.
    destruct (isPositive (compareFn x y)) eqn:Hxy.
    + constructor; [ by apply IH | ].
      apply insertSorted_HdRel; [ | exact Hy ].
      unfold inOrder, compareFn. apply sub_positive_antisym. exact Hxy.
    + constructor; [ exact Hs | ]. constructor. exact Hxy.
Qed.

Lemma stableSort_Sorted (l : list CategoryAverage) :
  Sorted inOrder (stableSort compareFn l).
Proof.
  unfold stableSort. induction l as [|x l IH]; cbn [foldr]; [ constructor | ].
  by apply insertSorted_Sorted.
Qed.

Lemma stableSort_fixes (l : list CategoryAverage) :
  Sorted inOrder l -> stableSort compareFn l = l.
Proof.
  induction l as [|x k IH]; intros Hs; [ reflexivity | ].
  inversion Hs as [|? ? Hk Hx]; subst.
  unfold stableSort. cbn [foldr]. fold (stableSort compareFn k). rewrite (IH Hk).
  destruct k as [|y k]; [ reflexivity | ].
  inversion Hx; subst. cbn [insertSorted]. rewrite isPositive_SortCompare.
  match goal with H : inOrder x y |- _ => unfold inOrder in H; rewrite H end.
  reflexivity.
Qed.

Lemma consistent_Permutation {A} (comparefn : A -> A -> number) (l k : list A) :
  l ≡ₚ k -> consistentComparator comparefn l -> consistentComparator comparefn k.
Proof.
  intros Hperm HS. unfold consistentComparator.
  apply Forall_forall. intros a Ha. apply Forall_forall. intros b Hb.
  apply Forall_forall. intros c Hc.
  rewrite <- Hperm in Ha, Hb, Hc. by apply (consistent_at comparefn l HS).
Qed.

(** A consistent comparator has no NaN and no infinite average to compare. *)
Lemma consistent_finite (l : list CategoryAverage) :
  consistentComparator compareFn l ->
  Forall (fun a => isFinite (avgEquity a) = true) l.
Proof.
  intros HS. apply Forall_forall. intros a Ha.
  destruct (consistent_at compareFn l HS a a a Ha Ha Ha) as (Hnan & _).
  unfold compareFn in Hnan.
  destruct (avgEquity a) as [s|s| |s m e]; try reflexivity;
    try destruct s; discriminate Hnan.
Qed.

(** X8. With a comparator that is consistent for the averages, the order
    of the sorted array is the same in every engine that conforms to the
    standard: it is the array of the stable sort.  The array keeps every
    element, every average is a finite number, no element stands before
    one the comparator puts in front of it, and elements the comparator
    takes as equal keep their order. *)
Theorem sort_order_is_determined (sort : Sort) (l : list CategoryAverage) :
  conforming sort ->
  consistentComparator compareFn l ->
  sort _ compareFn l = stableSort compareFn l /\
  sort _ compareFn l ≡ₚ l /\
  Forall (fun a => isFinite (avgEquity a) = true) l /\
  (forall (p q : nat) (a b : CategoryAverage),
      (p < q)%nat ->
      sort _ compareFn l !! p = Some a -> sort _ compareFn l !! q = Some b ->
      isPositive (Num.sub (avgEquity b) (avgEquity a)) = false) /\
  (NoDup (map category l) ->
   forall (i j p q : nat) (a b : CategoryAverage),
     (i < j)%nat -> l !! i = Some a -> l !! j = Some b ->
     isZero (Num.sub (avgEquity b) (avgEquity a)) = true ->
     sort _ compareFn l !! p = Some a -> sort _ compareFn l !! q = Some b ->
     (p < q)%nat).
Proof.
  intros Hsort HS.
  split; [ by apply conforming_stableSort | ].
  split; [ apply Hsort | ].
  split; [ by apply consistent_finite | ].
  destruct (Hsort _ compareFn l) as [Hperm Horder].
  destruct (Horder HS) as (t & Ht & Hnew & Hcond).
  pose proof (tagged_in l t Ht) as HtS. rewrite Forall_forall in HtS.
  assert (forall p a, sort _ compareFn l !! p = Some a ->
                      exists i, t !! p = Some (i, a) /\ a ∈ l /\ l !! i = Some a) as Htag.
  { intros p a Hp. rewrite Hnew, list_lookup_fmap in Hp.
    destruct (t !! p) as [[i x]|] eqn:E; [ | discriminate Hp ].
    injection Hp as <-. exists i. split; [ reflexivity | ].
    assert ((i, x) ∈ t) as Hin by (apply list_elem_of_lookup; eauto).
    split; [ exact (HtS _ Hin) | ].
    rewrite Ht in Hin. apply list_elem_of_lookup in Hin as [n Hn].
    rewrite list_lookup_imap in Hn.
    destruct (l !! n) as [y|] eqn:Hy; [ | discriminate Hn ].
    injection Hn as <- <-. exact Hy. }
  split.
  - intros p q a b Hpq Hp Hq.
    destruct (Htag p a Hp) as (i & Hi & Ha & _).
    destruct (Htag q b Hq) as (j & Hj & Hb & _).
    apply not_true_is_false. intros Hpos.
    assert (lessCF compareFn b a) as Hless
      by (apply (greater_less compareFn l HS); assumption).
    destruct (Hcond q p j i b a Hj Hi) as [Hneg _].
    rewrite (SortCompare_in compareFn l HS b a Hb Ha) in Hneg.
    specialize (Hneg Hless). lia.
  - intros Hnd i j p q a b Hij Hi Hj Hzero Hp Hq.
    destruct (Htag p a Hp) as (i' & Hi' & Ha & Hli').
    destruct (Htag q b Hq) as (j' & Hj' & Hb & Hlj').
    assert (i' = i) as ->.
    { apply (NoDup_lookup (map category l) _ _ (category a) Hnd);
        rewrite list_lookup_fmap; [ rewrite Hli' | rewrite Hi ]; reflexivity. }
    assert (j' = j) as ->.
    { apply (NoDup_lookup (map category l) _ _ (category b) Hnd);
        rewrite list_lookup_fmap; [ rewrite Hlj' | rewrite Hj ]; reflexivity. }
    destruct (Hcond p q i j a b Hi' Hj') as [_ Hsame].
    rewrite (SortCompare_in compareFn l HS a b Ha Hb) in Hsame.
    by apply Hsame.
Qed.

Lemma sample_consistent :
  consistentComparator compareFn
    [ {| category := "Premium Pairs"; avgEquity := Num.ofZ 10 |};
      {| category := "High Cards"; avgEquity := Num.ofZ 20 |};
      {| category := "Mid Pairs"; avgEquity := Num.ofZ 5 |};
      {| category := "Suited Connectors"; avgEquity := Num.ofZ 20 |} ].
Proof. apply (bool_decide_unpack _). vm_compute. exact I. Qed.

Lemma sort_order_is_determined_witness :
  reference _ compareFn
    [ {| category := "Premium Pairs"; avgEquity := Num.ofZ 10 |};
      {| category := "High Cards"; avgEquity := Num.ofZ 20 |};
      {| category := "Mid Pairs"; avgEquity := Num.ofZ 5 |};
      {| category := "Suited Connectors"; avgEquity := Num.ofZ 20 |} ]
  = [ {| category := "High Cards"; avgEquity := Num.ofZ 20 |};
      {| category := "Suited Connectors"; avgEquity := Num.ofZ 20 |};
      {| category := "Premium Pairs"; avgEquity := Num.ofZ 10 |};
      {| category := "Mid Pairs"; avgEquity := Num.ofZ 5 |} ] /\
  isPositive (Num.sub (Num.ofZ 10) (Num.ofZ 20)) = false.
Proof.
  destruct (sort_order_is_determined reference _ reference_conforming sample_consistent)
    as (Heq & _ & _ & Hdesc & _).
  split.
  - rewrite Heq. vm_compute. reflexivity.
  - apply (Hdesc 0%nat 2%nat
             {| category := "High Cards"; avgEquity := Num.ofZ 20 |}
             {| category := "Premium Pairs"; avgEquity := Num.ofZ 10 |});
      [ lia | rewrite Heq; vm_compute; reflexivity
      | rewrite Heq; vm_compute; reflexivity ].
Defined.

(** X9. With a consistent comparator, an array that is already in order
    is left as it is by every conforming engine (equal averages keep their
    order), and sorting the sorted array again changes nothing. *)
Theorem sort_fixes_ordered_arrays (sort : Sort) (l : list CategoryAverage) :
  conforming sort ->
  consistentComparator compareFn l ->
  (Sorted inOrder l -> sort _ compareFn l = l) /\
  sort _ compareFn (sort _ compareFn l) = sort _ compareFn l.
Proof.
  intros Hsort HS.
  rewrite (conforming_stableSort sort compareFn l Hsort HS).
  split; [ apply stableSort_fixes | ].
  rewrite (conforming_stableSort sort compareFn _ Hsort).
  - apply stableSort_fixes, stableSort_Sorted.
  - apply (consistent_Permutation compareFn l); [ | exact HS ].
    symmetry. apply stableSort_Permutation.
Qed.

Lemma zero_averages_consistent :
  consistentComparator compareFn
    [ {| category := "Premium Pairs"; avgEquity := Num.ofZ 0 |};
      {| category := "High Cards"; avgEquity := Num.ofZ 0 |};
      {| category := "Mid Pairs"; avgEquity := Num.ofZ 0 |};
      {| category := "Suited Connectors"; avgEquity := Num.ofZ 0 |} ].
Proof. apply (bool_decide_unpack _). vm_compute. exact I. Qed.

Lemma sort_fixes_ordered_arrays_witness :
  reference _ compareFn
    [ {| category := "Premium Pairs"; avgEquity := Num.ofZ 0 |};
      {| category := "High Cards"; avgEquity := Num.ofZ 0 |};
      {| category := "Mid Pairs"; avgEquity := Num.ofZ 0 |};
      {| category := "Suited Connectors"; avgEquity := Num.ofZ 0 |} ]
  = [ {| category := "Premium Pairs"; avgEquity := Num.ofZ 0 |};
      {| category := "High Cards"; avgEquity := Num.ofZ 0 |};
      {| category := "Mid Pairs"; avgEquity := Num.ofZ 0 |};
      {| category := "Suited Connectors"; avgEquity := Num.ofZ 0 |} ].
Proof.
  destruct (sort_fixes_ordered_arrays reference _ reference_conforming
              zero_averages_consistent) as [Hfix _].
  apply Hfix. repeat constructor.
Defined.

End TrendOrder.

(** ** The sign of a difference of averages *)

Section Signs.
Import EquityTrends ArraySort.

Lemma valid_inFormat (v : number) :
  Num.valid v = true -> isFinite v = true -> inFormat v.
Proof.
  destruct v as [s|s| |s m e]; try discriminate; [ intros; exact I | ].
  unfold Num.valid, valid_binary, bounded, canonical_mantissa, fexp.
  intros H _. apply andb_prop in H as [H _]. apply Z.eqb_eq in H.
  cbn. unfold emin, Num.emax, Num.prec in H. lia.
Qed.

Lemma shr_fexp_positive (m : positive) (e : Z) (l : location) :
  -1074 <= e ->
  exists mrs e',
    shr_fexp 53 1024 (Z.pos m) e l = (mrs, e') /\ 0 < shr_m mrs /\ -1074 <= e'.
Proof.
  intros He. unfold shr_fexp.
  change (fexp 53 1024 (Zdigits2 (Z.pos m) + e))
    with (Z.max (Z.pos (digits2_pos m) + e - 53) (-1074)).
  destruct (Z.max (Z.pos (digits2_pos m) + e - 53) (-1074) - e) as [|p|p] eqn:Hn.
  - eexists _, _. split; [ reflexivity | ]. split; [ | exact He ].
    destruct l as [|[| |]]; cbn; lia.
  - cbn [shr]. eexists _, _. split; [ reflexivity | ]. split; [ | lia ].
    rewrite shr_iter_m by (destruct l as [|[| |]]; cbn; lia).
    replace (shr_m (shr_record_of_loc (Z.pos m) l)) with (Z.pos m)
      by (destruct l as [|[| |]]; reflexivity).
    pose proof (digits2_bounds m) as [Hlo _].
    assert (Z.pos p <= Z.pos (digits2_pos m) - 1) as Hp by lia.
    assert (2 ^ Z.pos p <= 2 ^ (Z.pos (digits2_pos m) - 1)) as Hpow
      by (apply Z.pow_le_mono_r; lia).
    apply Z.div_str_pos. split; [ apply Z.pow_pos_nonneg; lia | lia ].
  - eexists _, _. split; [ reflexivity | ]. split; [ | exact He ].
    destruct l as [|[| |]]; cbn; lia.
Qed.

(** Rounding a mantissa that is not zero, at an exponent of the format,
    keeps the sign: the result is a finite number other than zero, or the
    infinity of that sign. *)
Lemma round_aux_sign (sx : bool) (m : positive) (e : Z) (l : location) :
  -1074 <= e ->
  let r := binary_round_aux 53 1024 sx (Z.pos m) e l in
  isNaN r = false /\ isZero r = false /\
  isNegative r = sx /\ isPositive r = negb sx.
Proof.
  intros He. unfold binary_round_aux.
  destruct (shr_fexp_positive m e l He) as (mrs' & e' & -> & Hm' & He').
  pose proof (round_nearest_even_bounds (shr_m mrs') (loc_of_shr_record mrs')) as Hr.
  destruct (round_nearest_even (shr_m mrs') (loc_of_shr_record mrs')) as [|m2|m2];
    try lia.
  destruct (shr_fexp_positive m2 e' loc_Exact He') as (mrs'' & e'' & -> & Hm'' & He'').
  destruct (shr_m mrs'') as [|m3|m3]; try lia.
  destruct (e'' <=? 1024 - 53); destruct sx; repeat split.
Qed.

Lemma round_sign (sx : bool) (m : positive) (e : Z) :
  -1074 <= e ->
  let r := binary_round 53 1024 sx m e in
  isNaN r = false /\ isZero r = false /\
  isNegative r = sx /\ isPositive r = negb sx.
Proof.
  intros He. unfold binary_round, shl_align.
  change (fexp 53 1024 (Z.pos (digits2_pos m) + e))
    with (Z.max (Z.pos (digits2_pos m) + e - 53) (-1074)).
  destruct (Z.max (Z.pos (digits2_pos m) + e - 53) (-1074) - e) as [|p|p] eqn:Hn;
    apply round_aux_sign; lia.
Qed.

Lemma normalize_sign (D e : Z) :
  -1074 <= e ->
  let r := binary_normalize 53 1024 D e false in
  isNaN r = false /\
  isZero r = (D =? 0) /\ isNegative r = (D <? 0) /\ isPositive r = (0 <? D).
Proof.
  intros He. destruct D as [|m|m]; cbn [binary_normalize].
  - repeat split.
  - apply (round_sign false m e He).
  - apply (round_sign true m e He).
Qed.

Lemma iter_xO (d m : positive) : Z.pos (Pos.iter xO m d) = Z.pos m * 2 ^ Z.pos d.
Proof.
  revert m. induction d as [d IH|d IH|]; intros m; cbn [Pos.iter].
  - rewrite Pos2Z.inj_xO, !IH.
    replace (Z.pos d~1) with (Z.succ (Z.pos d + Z.pos d)) by lia.
    rewrite Z.pow_succ_r, Z.pow_add_r by lia. lia.
  - rewrite !IH.
    replace (Z.pos d~0) with (Z.pos d + Z.pos d) by lia.
    rewrite Z.pow_add_r by lia. lia.
  - lia.
Qed.

Lemma shl_align_scaled (m : positive) (e ez : Z) :
  -1074 <= ez -> ez <= e ->
  Z.pos (fst (shl_align m e ez)) * 2 ^ (ez + 1074) = Z.pos m * 2 ^ (e + 1074).
Proof.
  intros Hz He. unfold shl_align.
  destruct (ez - e) as [|d|d] eqn:Hd; cbn [fst].
  - replace ez with e by lia. reflexivity.
  - lia.
  - rewrite iter_xO. replace (e + 1074) with (Z.pos d + (ez + 1074)) by lia.
    rewrite (Z.pow_add_r 2 (Z.pos d) (ez + 1074)) by lia. ring.
Qed.

(** The sign of a difference of two numbers of the format is the sign of
    the difference of their values. *)
Lemma sub_sign (a b : number) :
  inFormat a -> inFormat b ->
  isNaN (Num.sub a b) = false /\
  isZero (Num.sub a b) = (scaled a =? scaled b) /\
  isNegative (Num.sub a b) = (scaled a <? scaled b) /\
  isPositive (Num.sub a b) = (scaled b <? scaled a).
Proof.
  destruct a as [sa|sa| |sa ma ea], b as [sb|sb| |sb mb eb];
    cbn [inFormat]; try contradiction; intros Ha Hb.
  - destruct sa, sb; repeat split.
  - assert (0 < Z.pos mb * 2 ^ (eb + 1074)) as Hpos
      by (apply Z.mul_pos_pos; [ lia | apply Z.pow_pos_nonneg; lia ]).
    unfold Num.sub, SFsub, isNegative, isPositive, Num.zero.
    cbn [scaled]. set (V := Z.pos mb * 2 ^ (eb + 1074)) in *.
    destruct sb; cbn [negb cond_Zopp isNaN isZero SFltb SFcompare];
      (split; [ reflexivity | ]); repeat split; symmetry;
      first [ apply Z.eqb_neq; lia | apply Z.ltb_lt; lia | apply Z.ltb_ge; lia ].
  - assert (0 < Z.pos ma * 2 ^ (ea + 1074)) as Hpos
      by (apply Z.mul_pos_pos; [ lia | apply Z.pow_pos_nonneg; lia ]).
    unfold Num.sub, SFsub, isNegative, isPositive, Num.zero.
    cbn [scaled]. set (V := Z.pos ma * 2 ^ (ea + 1074)) in *.
    destruct sa; cbn [negb cond_Zopp isNaN isZero SFltb SFcompare];
      (split; [ reflexivity | ]); repeat split; symmetry;
      first [ apply Z.eqb_neq; lia | apply Z.ltb_lt; lia | apply Z.ltb_ge; lia ].
  - unfold Num.sub, SFsub.
    set (ez := Z.min ea eb).
    pose proof (shl_align_scaled ma ea ez ltac:(lia) ltac:(lia)) as HA.
    pose proof (shl_align_scaled mb eb ez ltac:(lia) ltac:(lia)) as HB.
    set (X := Z.pos (fst (shl_align ma ea ez))) in *.
    set (Y := Z.pos (fst (shl_align mb eb ez))) in *.
    destruct (normalize_sign (cond_Zopp sa X - cond_Zopp sb Y) ez ltac:(lia))
      as (Hnan & Hzero & Hneg & Hpos).
    fold Num.prec Num.emax in Hnan, Hzero, Hneg, Hpos.
    unfold Num.prec, Num.emax in *.
    rewrite Hnan, Hzero, Hneg, Hpos. cbn [scaled].
    assert (0 < 2 ^ (ez + 1074)) as Hpow by (apply Z.pow_pos_nonneg; lia).
    assert (scaled (S754_finite sa ma ea) - scaled (S754_finite sb mb eb)
            = (cond_Zopp sa X - cond_Zopp sb Y) * 2 ^ (ez + 1074)) as Hs
      by (cbn [scaled]; destruct sa, sb; cbn [cond_Zopp]; lia).
    cbn [scaled] in Hs.
    set (P := 2 ^ (ez + 1074)) in *.
    set (D := cond_Zopp sa X - cond_Zopp sb Y) in *.
    set (SA := cond_Zopp sa (Z.pos ma * 2 ^ (ea + 1074))) in *.
    set (SB := cond_Zopp sb (Z.pos mb * 2 ^ (eb + 1074))) in *.
    split; [ reflexivity | ].
    split; [ | split ].
    + destruct (Z.eqb_spec D 0) as [HD|HD]; symmetry;
        [ apply Z.eqb_eq | apply Z.eqb_neq ]; nia.
    + destruct (Z.ltb_spec D 0) as [HD|HD]; symmetry;
        [ apply Z.ltb_lt | apply Z.ltb_ge ]; nia.
    + destruct (Z.ltb_spec 0 D) as [HD|HD]; symmetry;
        [ apply Z.ltb_lt | apply Z.ltb_ge ]; nia.
Qed.

Lemma inFormat_consistent (l : list CategoryAverage) :
  Forall (fun a => inFormat (avgEquity a)) l ->
  consistentComparator compareFn l.
Proof.
  intros Hl. rewrite Forall_forall in Hl.
  unfold consistentComparator.
  apply Forall_forall. intros a Ha. apply Forall_forall. intros b Hb.
  apply Forall_forall. intros c Hc.
  pose proof (Hl a Ha) as Fa. pose proof (Hl b Hb) as Fb. pose proof (Hl c Hc) as Fc.
  unfold consistentAt, sameCF, lessCF, greaterCF, compareFn.
  destruct (sub_sign _ _ Fa Fa) as (_ & -> & _ & _).
  destruct (sub_sign _ _ Fb Fa) as (-> & -> & -> & ->).
  destruct (sub_sign _ _ Fa Fb) as (_ & -> & _ & _).
  destruct (sub_sign _ _ Fc Fb) as (_ & -> & -> & ->).
  destruct (sub_sign _ _ Fc Fa) as (_ & -> & -> & ->).
  rewrite !Z.eqb_eq, !Z.ltb_lt.
  repeat split; intros; lia.
Qed.

(** X18. For averages that are binary64 numbers, the comparator
    [b.avgEquity - a.avgEquity] is a consistent comparator exactly when
    every average is finite: the order of the sorted array is left to the
    engine only when an average is NaN or infinite.  With finite averages
    every conforming engine gives the array of the stable sort. *)
Theorem comparator_consistent_iff_finite
    (sort : Sort) (l : list CategoryAverage) :
  conforming sort ->
  Forall (fun a => Num.valid (avgEquity a) = true) l ->
  (consistentComparator compareFn l
   <-> Forall (fun a => isFinite (avgEquity a) = true) l) /\
  (Forall (fun a => isFinite (avgEquity a) = true) l ->
   sort _ compareFn l = stableSort compareFn l).
Proof.
  intros Hsort Hvalid.
  assert (Forall (fun a => isFinite (avgEquity a) = true) l ->
          consistentComparator compareFn l) as Hcons.
  { intros Hfin. apply inFormat_consistent.
    rewrite Forall_forall in Hvalid, Hfin. apply Forall_forall. intros a Ha.
    apply valid_inFormat; [ by apply Hvalid | by apply Hfin ]. }
  split; [ split; [ apply consistent_finite | exact Hcons ] | ].
  intros Hfin. apply conforming_stableSort; [ exact Hsort | by apply Hcons ].
Qed.

Lemma comparator_consistent_iff_finite_witness :
  consistentComparator compareFn
    [ {| category := "Premium Pairs";
         avgEquity := Sample.fraction 3011 |};
      {| category := "High Cards";
         avgEquity := Sample.fraction 4336 |} ] /\
  reference _ compareFn
    [ {| category := "Premium Pairs";
         avgEquity := Sample.fraction 3011 |};
      {| category := "High Cards";
         avgEquity := Sample.fraction 4336 |} ]
  = [ {| category := "High Cards";
         avgEquity := Sample.fraction 4336 |};
      {| category := "Premium Pairs";
         avgEquity := Sample.fraction 3011 |} ].
Proof.
  assert (Forall (fun a => Num.valid (avgEquity a) = true)
            [ {| category := "Premium Pairs";
                 avgEquity := Sample.fraction 3011 |};
              {| category := "High Cards";
                 avgEquity := Sample.fraction 4336 |} ]) as Hvalid
    by (repeat constructor).
  assert (Forall (fun a => isFinite (avgEquity a) = true)
            [ {| category := "Premium Pairs";
                 avgEquity := Sample.fraction 3011 |};
              {| category := "High Cards";
                 avgEquity := Sample.fraction 4336 |} ]) as Hfinite
    by (repeat constructor).
  destruct (comparator_consistent_iff_finite reference _
              reference_conforming Hvalid) as [[_ Hcons] Hsort].
  split; [ by apply Hcons | ].
  rewrite (Hsort Hfinite). vm_compute. reflexivity.
Defined.

(** With a NaN average the comparator is not consistent. *)
Example nan_average_inconsistent :
  ~ consistentComparator compareFn
      [ {| category := "Premium Pairs";
           avgEquity := Num.ofZ 10 |};
        {| category := "Mid Pairs";
           avgEquity := S754_nan |} ].
Proof. apply (bool_decide_unpack _). vm_compute. exact I. Qed.

End Signs.

(** ** The view of EquityTrends *)

Section TrendView.
Import EquityTrends ArraySort.

Lemma colorMap_distinct (a b c d : string) :
  NoDup [a; b; c; d] ->
  map (fun cat => (cat, colorMap [a; b; c; d] !! cat)) [a; b; c; d]
  = [(a, Some "#10b981"); (b, Some "#3b82f6"); (c, Some "#f59e0b"); (d, Some "#8b5cf6")].
Proof.
  intros Hnd.
  apply NoDup_cons in Hnd as [Ha Hnd]. apply NoDup_cons in Hnd as [Hb Hnd].
  apply NoDup_cons in Hnd as [Hc _].
  assert (a <> b /\ a <> c /\ a <> d /\ b <> c /\ b <> d /\ c <> d)
    as (Hab & Hac & Had & Hbc & Hbd & Hcd).
  { repeat split; intros ->;
      solve [ apply Ha; repeat constructor | apply Hb; repeat constructor
            | apply Hc; repeat constructor ]. }
  unfold colorMap, keyAt. cbn.
  rewrite (lookup_insert_ne _ d a), (lookup_insert_ne _ c a),
    (lookup_insert_ne _ b a), lookup_insert_eq by congruence.
  rewrite (lookup_insert_ne _ d b), (lookup_insert_ne _ c b),
    lookup_insert_eq by congruence.
  rewrite (lookup_insert_ne _ d c), lookup_insert_eq by congruence.
  rewrite lookup_insert_eq. reflexivity.
Qed.

Lemma points_allocated (h rest : Component.Heap)
    (points : list (gmap string PointValue)) :
  Forall2 (fun l point =>
             (h ++ map Component.Point points ++ rest) !! l
             = Some (Component.Point point))
          (seq (length h) (length points)) points.
Proof.
  apply Forall2_same_length_lookup_2; [ by rewrite length_seq | ].
  intros i l point Hl Hp. apply lookup_seq in Hl as [-> Hi].
  rewrite lookup_app_r by lia.
  replace (length h + i - length h)%nat with i by lia.
  rewrite lookup_app_l by (rewrite length_map; lia).
  rewrite list_lookup_fmap, Hp. reflexivity.
Qed.

(** X10. With the [sort] of an engine that conforms to the standard,
    [EquityTrends] renders for every artifact without throwing: the chart
    gets the five points of [chartData], new objects of the heap; the four
    lines are the four categories, each once, in the order of the sorted
    array, and their strokes are green, blue, orange, purple in that
    order.  When the comparator is consistent for the averages the order
    is that of the stable sort, in every such engine. *)
Theorem EquityTrends_renders
    (sort : Sort) (h : Component.Heap) (d : Component.loc) (data : EquityData) :
  conforming sort ->
  h !! d = Some (Component.Artifact data) ->
  exists (view : Component.View) (points : list (gmap string PointValue))
         (averages : list CategoryAverage),
    fst (Component.EquityTrends sort d h) = Ok view /\
    chartData data = Ok points /\
    Forall2 (fun l point =>
               snd (Component.EquityTrends sort d h) !! l = Some (Component.Point point))
            (Component.chart view) points /\
    Forall (fun l => h !! l = None) (Component.chart view) /\
    categoryAverages data = Ok averages /\
    map fst (Component.lines view) = map category (sort _ compareFn averages) /\
    map fst (Component.lines view) ≡ₚ map fst handCategories /\
    map snd (Component.lines view)
    = [Some "#10b981"; Some "#3b82f6"; Some "#f59e0b"; Some "#8b5cf6"] /\
    (consistentComparator compareFn averages ->
     map fst (Component.lines view) = map category (stableSort compareFn averages)).
Proof.
  intros Hsort Hd.
  destruct (EquityTrends_run sort h d data Hd)
    as (points & averages & Hpoints & Hlen & Hav & Hcat & Hrun).
  cbn zeta in Hrun. rewrite Hrun. cbn [fst snd].
  destruct (Hsort _ compareFn averages) as [Hperm _].
  assert (map category (sort _ compareFn averages) ≡ₚ map fst handCategories)
    as Hperm' by (rewrite <- Hcat; apply fmap_Permutation, Hperm).
  remember (map category (sort _ compareFn averages)) as sc eqn:Hsc.
  assert (NoDup sc) as Hnd.
  { rewrite Hperm'. apply (bool_decide_unpack _). vm_compute. exact I. }
  assert (length sc = 4%nat) as Hlen4 by (rewrite Hperm'; reflexivity).
  destruct sc as [|a [|b [|c [|e [|? ?]]]]]; try discriminate Hlen4.
  eexists _, points, averages.
  split; [ reflexivity | ]. cbn [Component.chart Component.lines].
  split; [ exact Hpoints | ].
  split; [ rewrite <- Hlen; apply points_allocated | ].
  split.
  { apply Forall_forall. intros l Hl. apply elem_of_seq in Hl.
    apply lookup_ge_None. lia. }
  split; [ exact Hav | ].
  rewrite (colorMap_distinct a b c e Hnd).
  split; [ rewrite <- Hsc; reflexivity | ]. split; [ exact Hperm' | ].
  split; [ reflexivity | ].
  intros HS. cbn [map fst]. rewrite Hsc.
  rewrite (conforming_stableSort sort compareFn averages Hsort HS). reflexivity.
Qed.

Lemma EquityTrends_renders_witness :
  exists view,
    fst (Component.EquityTrends reference 0%nat [Component.Artifact Sample.artifact])
    = Ok view /\
    Component.lines view
    = [("Premium Pairs", Some "#10b981"); ("Mid Pairs", Some "#3b82f6");
       ("High Cards", Some "#f59e0b"); ("Suited Connectors", Some "#8b5cf6")].
Proof.
  destruct (EquityTrends_renders reference [Component.Artifact Sample.artifact]
              0%nat Sample.artifact reference_conforming eq_refl)
    as (view & points & averages & Hview & _).
  exists view. split; [ exact Hview | ].
  vm_compute in Hview. injection Hview as <-. reflexivity.
Defined.

Lemma categoryAverage_averageOf (data : EquityData) (entry : string * list string) :
  categoryAverage data entry = Ok (averageOf data entry).
Proof.
  destruct entry as [cat hs]. unfold categoryAverage, averageOf, mean.
  rewrite sumAndCount_present. cbn [mbind Result_bind mret Result_ret fst snd].
  destruct (presentPercentages data "players_6" hs); reflexivity.
Qed.

(** X11. The averages that order the lines are the 6-player values of the
    chart before formatting: for every category, the chart value at 6
    players is [toFixed(1)] of [avgEquity], or both are the number 0 when
    no hand of the category has a [players_6] entry. *)
Theorem averages_are_sixmax_chart_values (data : EquityData) :
  exists (averages : list CategoryAverage) (points : list (gmap string PointValue))
         (point : gmap string PointValue),
    categoryAverages data = Ok averages /\
    chartData data = Ok points /\
    points !! 4%nat = Some point /\
    point !! "players" = Some (PNumber (Num.ofZ 6)) /\
    length averages = 4%nat /\
    forall a, a ∈ averages ->
      exists hs,
        (category a, hs) ∈ handCategories /\
        match presentPercentages data "players_6" hs with
        | [] => avgEquity a = Num.ofZ 0 /\
                point !! category a = Some (PNumber (Num.ofZ 0))
        | xs => avgEquity a = mean xs /\
                point !! category a = Some (PString (Num.toFixed1 (avgEquity a)))
        end.
Proof.
  exists (map (averageOf data) handCategories).
  unfold chartData. cbn [mapM].
  destruct (chartPoint_Ok data 2) as (p2 & -> & _).
  destruct (chartPoint_Ok data 3) as (p3 & -> & _).
  destruct (chartPoint_Ok data 4) as (p4 & -> & _).
  destruct (chartPoint_Ok data 5) as (p5 & -> & _).
  destruct (chartPoint_Ok data 6) as (p6 & -> & Hp6 & Hc6).
  eexists _, p6.
  split; [ apply mapM_Ok; intros entry _; apply categoryAverage_averageOf | ].
  split; [ reflexivity | ]. split; [ reflexivity | ].
  split; [ exact Hp6 | ]. split; [ reflexivity | ].
  intros a Ha. apply list_elem_of_fmap in Ha as ([cat hs] & -> & Hin).
  exists hs. split; [ exact Hin | ].
  unfold averageOf. cbn [fst snd category avgEquity].
  rewrite (Hc6 cat hs Hin). unfold meanValue.
  change (playersKey 6) with "players_6".
  destruct (presentPercentages data "players_6" hs); split; reflexivity.
Qed.

End TrendView.

(** ** The legend of EquityTrends *)

Section TrendLegend.
Import EquityTrends.

Lemma find_firstWith (payload : list PayloadEntry) (cat : string) (entry : PayloadEntry) :
  List.find (fun p => String.eqb (value p) cat) payload = Some entry
  <-> firstWith cat entry payload.
Proof.
  induction payload as [|p payload IH]; cbn [List.find].
  - split; [ discriminate | ].
    intros (front & back & H & _). by destruct front.
  - destruct (String.eqb_spec (value p) cat) as [Heq | Hne].
    + split.
      * intros H. injection H as <-. exists [], payload. repeat split; [ exact Heq | constructor ].
      * intros (front & back & H & Hv & Hfront).
        destruct front as [|p' front]; cbn in H.
        -- injection H as -> _. reflexivity.
        -- injection H as <- _. inversion Hfront; subst. contradiction.
    + rewrite IH. split.
      * intros (front & back & -> & Hv & Hfront).
        exists (p :: front), back. repeat split; [ exact Hv | by constructor ].
      * intros (front & back & H & Hv & Hfront).
        destruct front as [|p' front]; cbn in H.
        -- injection H as <- _. contradiction.
        -- injection H as <- ->. exists front, back.
           repeat split; [ exact Hv | by inversion Hfront ].
Qed.

Lemma find_none (payload : list PayloadEntry) (cat : string) :
  List.find (fun p => String.eqb (value p) cat) payload = None
  <-> cat ∉ map value payload.
Proof.
  induction payload as [|p payload IH]; cbn [List.find map].
  - split; [ intros _; apply not_elem_of_nil | reflexivity ].
  - rewrite not_elem_of_cons.
    destruct (String.eqb_spec (value p) cat) as [Heq | Hne].
    + split; [ discriminate | intros [H _]; congruence ].
    + rewrite IH. split; [ intros H; split; [ congruence | exact H ] | tauto ].
Qed.

Lemma sortedPayload_values (sortedCategories : list string) (payload : list PayloadEntry) :
  map value (sortedPayload sortedCategories payload)
  = filter (fun cat => cat ∈ map value payload) sortedCategories.
Proof.
  unfold sortedPayload.
  induction sortedCategories as [|cat sc IH]; [ reflexivity | ].
  cbn [omap list_omap].
  destruct (List.find _ payload) as [entry|] eqn:Hfind.
  - apply find_firstWith in Hfind as (front & back & -> & Hv & _).
    cbn [map]. rewrite filter_cons_True.
    + cbn. rewrite IH, Hv. reflexivity.
    + rewrite map_app. apply elem_of_app. right. cbn [map]. rewrite Hv. left.
  - apply find_none in Hfind. rewrite filter_cons_False by exact Hfind. exact IH.
Qed.

(** X12. The legend has one row for each sorted category that occurs in
    the payload, in the order of the sorted categories, and no other row.
    The row of a category is made from the first entry of the payload
    with that value: it has the stroke of that entry and the label of the
    category in [legendLabels].  When the payload has an entry for each
    of the four categories, the legend has four rows, one per category in
    the sorted order, each with a label. *)
Theorem legend_follows_sorted_categories
    (sortedCategories : list string) (payload : list PayloadEntry) :
  map value (sortedPayload sortedCategories payload)
  = filter (fun cat => cat ∈ map value payload) sortedCategories /\
  length (legendRows sortedCategories payload)
  = length (filter (fun cat => cat ∈ map value payload) sortedCategories) /\
  (forall (i : nat) (cat : string),
      filter (fun cat => cat ∈ map value payload) sortedCategories !! i = Some cat ->
      exists entry,
        firstWith cat entry payload /\
        sortedPayload sortedCategories payload !! i = Some entry /\
        legendRows sortedCategories payload !! i
        = Some (payloadColor entry, legendLabels !! cat)) /\
  (sortedCategories ≡ₚ map fst handCategories ->
   (forall cat, cat ∈ sortedCategories -> cat ∈ map value payload) ->
   map value (sortedPayload sortedCategories payload) = sortedCategories /\
   map snd (legendRows sortedCategories payload)
   = map (fun cat => legendLabels !! cat) sortedCategories /\
   Forall is_Some (map snd (legendRows sortedCategories payload)) /\
   forall (i : nat) (cat : string),
     sortedCategories !! i = Some cat ->
     exists entry,
       firstWith cat entry payload /\
       legendRows sortedCategories payload !! i
       = Some (payloadColor entry, legendLabels !! cat)).
Proof.
  assert (forall (i : nat) (cat : string),
             filter (fun cat => cat ∈ map value payload) sortedCategories !! i = Some cat ->
             exists entry,
               firstWith cat entry payload /\
               sortedPayload sortedCategories payload !! i = Some entry /\
               legendRows sortedCategories payload !! i
               = Some (payloadColor entry, legendLabels !! cat)) as Hrow.
  { intros i cat Hi. rewrite <- sortedPayload_values, list_lookup_fmap in Hi.
    destruct (sortedPayload sortedCategories payload !! i) as [entry|] eqn:He;
      [ | discriminate Hi ].
    injection Hi as Hv. exists entry.
    assert (entry ∈ sortedPayload sortedCategories payload) as Hin
      by (apply list_elem_of_lookup; eauto).
    unfold sortedPayload in Hin. apply list_elem_of_omap in Hin as (cat' & _ & Hfind).
    apply find_firstWith in Hfind. pose proof Hfind as (front & back & _ & Hv' & _).
    rewrite Hv in Hv'. subst cat'.
    split; [ exact Hfind | ]. split; [ reflexivity | ].
    unfold legendRows. rewrite list_lookup_fmap, He. cbn. rewrite Hv. reflexivity. }
  split; [ apply sortedPayload_values | ].
  split; [ unfold legendRows; rewrite length_map, <- sortedPayload_values;
           by rewrite length_map | ].
  split; [ exact Hrow | ].
  intros Hperm Hall.
  assert (filter (fun cat => cat ∈ map value payload) sortedCategories = sortedCategories)
    as Hfilter.
  { clear Hperm Hrow. induction sortedCategories as [|cat sc IH]; [ reflexivity | ].
    rewrite filter_cons_True by (apply Hall; left).
    f_equal. apply IH. intros c Hc. apply Hall. by right. }
  assert (map value (sortedPayload sortedCategories payload) = sortedCategories)
    as Hvalues by (rewrite sortedPayload_values; exact Hfilter).
  assert (map snd (legendRows sortedCategories payload)
          = map (fun cat => legendLabels !! cat) sortedCategories) as Hrows.
  { unfold legendRows. rewrite map_map. cbn [snd].
    rewrite <- Hvalues at 2. rewrite map_map. reflexivity. }
  split; [ exact Hvalues | ]. split; [ exact Hrows | ]. split.
  - rewrite Hrows. apply Forall_forall. intros o Ho.
    apply list_elem_of_fmap in Ho as (cat & -> & Hcat).
    rewrite Hperm in Hcat. revert Hcat. unfold handCategories. cbn [map fst].
    rewrite !elem_of_cons, elem_of_nil.
    intros [->|[->|[->|[->|[]]]]]; vm_compute; eauto.
  - intros i cat Hi. rewrite <- Hfilter in Hi.
    destruct (Hrow i cat Hi) as (entry & Hfirst & _ & Hr). eauto.
Qed.

Lemma legend_follows_sorted_categories_witness :
  legendRows ["High Cards"; "Premium Pairs"; "Mid Pairs"; "Suited Connectors"]
    [ {| value := "Premium Pairs"; payloadColor := "#3b82f6" |};
      {| value := "High Cards"; payloadColor := "#10b981" |};
      {| value := "Premium Pairs"; payloadColor := "#000000" |};
      {| value := "Mid Pairs"; payloadColor := "#f59e0b" |};
      {| value := "Suited Connectors"; payloadColor := "#8b5cf6" |} ]
    !! 1%nat
  = Some ("#3b82f6", Some "Premium Pairs (AA, KK, QQ)").
Proof.
  destruct (legend_follows_sorted_categories
              ["High Cards"; "Premium Pairs"; "Mid Pairs"; "Suited Connectors"]
              [ {| value := "Premium Pairs"; payloadColor := "#3b82f6" |};
                {| value := "High Cards"; payloadColor := "#10b981" |};
                {| value := "Premium Pairs"; payloadColor := "#000000" |};
                {| value := "Mid Pairs"; payloadColor := "#f59e0b" |};
                {| value := "Suited Connectors"; payloadColor := "#8b5cf6" |} ])
    as (_ & _ & _ & H).
  destruct H as (_ & _ & _ & Hrow).
  - apply Permutation_swap.
  - intros cat Hcat. apply (bool_decide_unpack _).
    revert Hcat. rewrite !elem_of_cons, elem_of_nil.
    intros [->|[->|[->|[->|[]]]]]; vm_compute; exact I.
  - destruct (Hrow 1%nat "Premium Pairs" eq_refl) as (entry & Hfirst & ->).
    destruct Hfirst as (front & back & Hpayload & Hv & Hfront).
    destruct front as [|p front].
    + injection Hpayload as <- _. reflexivity.
    + exfalso. injection Hpayload as <- _. inversion Hfront; subst. by cbn in *.
Defined.

End TrendLegend.

(** ** The reads of KeyInsights *)

Section InsightReads.
Import KeyInsights.

Lemma hasEntry_lookup (data : EquityData) (hand key : string) :
  hasEntry data (hand, key) <->
  exists handData playerData,
    hands data !! hand = Some handData /\ handData !! key = Some playerData.
Proof.
  unfold hasEntry. cbn [fst snd]. split.
  - intros [p Hp]. destruct (hands data !! hand) as [handData|]; [ | discriminate Hp ].
    cbn in Hp. eauto.
  - intros (handData & playerData & -> & Hp). cbn. rewrite Hp. eauto.
Qed.

(** [data.hands[hand][key].equity * 100] returns exactly when the entry is there. *)
Lemma entry_read (data : EquityData) (hand key : string) (x : option PlayerData) (v : number) :
  entryOf data hand key = Ok x -> equity100 x = Ok v -> hasEntry data (hand, key).
Proof.
  unfold entryOf, equity100, getProp. cbn. intros H1 H2. apply hasEntry_lookup.
  destruct (hands data !! hand) as [handData|]; [ | discriminate H1 ].
  injection H1 as <-. destruct (handData !! key) as [p|] eqn:Hp; [ eauto | discriminate H2 ].
Qed.

Lemma hand_read (data : EquityData) (hand key : string)
    (x : option (gmap string PlayerData)) (v : number) :
  getProp (Some (hands data)) hand = Ok x ->
  (p ← getProp x key; equity100 p) = Ok v ->
  hasEntry data (hand, key).
Proof.
  unfold equity100, getProp. cbn. intros H1 H2. injection H1 as <-.
  apply hasEntry_lookup.
  destruct (hands data !! hand) as [handData|]; [ | discriminate H2 ].
  cbn in H2. destruct (handData !! key) as [p|] eqn:Hp; [ eauto | discriminate H2 ].
Qed.

Lemma insights_reads (data : EquityData) (l : list Insight) :
  insights data = Ok l -> Forall (hasEntry data) requiredEntries.
Proof.
  intros H. unfold insights in H.
  repeat (apply bind_Ok_inv in H as (? & ? & H)).
  unfold requiredEntries.
  repeat (constructor; [ solve [ eauto using entry_read, hand_read ] | ]).
  constructor.
Qed.

Lemma insights_returns (data : EquityData) :
  Forall (hasEntry data) requiredEntries -> exists l, insights data = Ok l.
Proof.
  unfold requiredEntries. intros H.
  repeat (apply Forall_cons in H as [?He H]; apply hasEntry_lookup in He;
          destruct He as (? & ? & ? & ?)).
  repeat match goal with
         | E1 : ?a = Some ?x, E2 : ?a = Some ?y |- _ =>
             rewrite E1 in E2; injection E2 as <-
         end.
  unfold insights, entryOf, equity100, getProp, getEquityField.
  cbn [mbind Result_bind mret Result_ret].
  repeat match goal with
         | E : ?x = Some _ |- context [?x] =>
             rewrite E; cbn [mbind Result_bind mret Result_ret]
         end.
  eexists. reflexivity.
Qed.

(** X13. [insights] builds its nine cards exactly when the artifact has the 19
    entries it reads, and otherwise throws. *)
Theorem insights_returns_iff (data : EquityData) :
  (exists l, insights data = Ok l) <-> Forall (hasEntry data) requiredEntries.
Proof.
  split; [ intros [l H]; exact (insights_reads data l H) | apply insights_returns ].
Qed.

End InsightReads.

(** ** The states of the carousel and of the page *)

Section CarouselStates.
Import KeyInsights.

Lemma nextInsight_mod (i : Z) :
  0 <= i -> nextInsight 9 i = (i + 1) mod 9.
Proof. intros Hi. unfold nextInsight. apply Z.rem_mod_nonneg; lia. Qed.

Lemma prevInsight_mod (i : Z) :
  0 <= i -> prevInsight 9 i = (i - 1) mod 9.
Proof.
  intros Hi. unfold prevInsight. rewrite Z.rem_mod_nonneg by lia.
  replace (i - 1 + 9) with (i - 1 + 1 * 9) by lia. apply Z.mod_add. lia.
Qed.

Lemma reachableIndex_range (i : Z) : reachableIndex 9 i -> 0 <= i <= 8.
Proof.
  induction 1 as [ | i _ IH | i _ IH | i idx _ _ Hidx ].
  - lia.
  - rewrite nextInsight_mod by lia. pose proof (Z.mod_pos_bound (i + 1) 9). lia.
  - rewrite prevInsight_mod by lia. pose proof (Z.mod_pos_bound (i - 1) 9). lia.
  - lia.
Qed.

(** X15. The carousel never leaves its cards: from index 0, the arrows and the
    dots only lead to indices from 0 to 8, and at each of them the view
    renders with the card of that index, nine dots of which exactly the
    one of that index is marked, and the counter "index + 1 / 9". *)
Theorem carousel_stays_on_a_card
    (data : EquityData) (l : list Insight) (currentIndex : Z) :
  insights data = Ok l ->
  reachableIndex (length l) currentIndex ->
  0 <= currentIndex <= 8 /\
  (exists currentInsight,
      l !! Z.to_nat currentIndex = Some currentInsight /\
      render data currentIndex
      = Ok {| card := currentInsight; dots := 9;
              counter := pretty (currentIndex + 1) +:+ " / 9" |}) /\
  length (dotButtons l currentIndex) = 9%nat /\
  forall (idx : nat) (dot : bool * Z),
    dotButtons l currentIndex !! idx = Some dot ->
    dot.2 = Z.of_nat idx /\ (dot.1 = true <-> Z.of_nat idx = currentIndex).
Proof.
  intros Hl Hreach. pose proof (insights_length data l Hl) as Hlen.
  rewrite Hlen in Hreach. apply reachableIndex_range in Hreach.
  split; [ exact Hreach | ]. split; [ | split ].
  - destruct (l !! Z.to_nat currentIndex) as [currentInsight|] eqn:Hat.
    + exists currentInsight. split; [ reflexivity | ].
      unfold render. rewrite Hl. cbn [mbind Result_bind]. unfold insightAt.
      replace (0 <=? currentIndex) with true by (symmetry; apply Z.leb_le; lia).
      rewrite Hat, Hlen. reflexivity.
    + apply lookup_ge_None in Hat. lia.
  - unfold dotButtons. rewrite length_imap. exact Hlen.
  - intros idx dot Hdot. unfold dotButtons in Hdot.
    rewrite list_lookup_imap in Hdot.
    destruct (l !! idx); [ | discriminate Hdot ]. injection Hdot as <-.
    cbn [fst snd]. split; [ reflexivity | apply Z.eqb_eq ].
Qed.

Lemma carousel_stays_on_a_card_witness :
  exists l,
    insights Sample.artifact = Ok l /\
    0 <= nextInsight 9 (prevInsight 9 0) <= 8 /\
    exists view, render Sample.artifact (prevInsight 9 0) = Ok view /\
                 counter view = "9 / 9".
Proof.
  destruct (insights Sample.artifact) as [l|e] eqn:Hl;
    [ | exfalso; revert Hl; vm_compute; discriminate ].
  exists l. split; [ reflexivity | ].
  pose proof (insights_length _ _ Hl) as Hlen.
  assert (reachableIndex (length l) (prevInsight 9 0)) as Hprev.
  { rewrite Hlen. exact (reachable_prev 9 0 (reachable_start 9)). }
  assert (reachableIndex (length l) (nextInsight 9 (prevInsight 9 0))) as Hnext.
  { rewrite Hlen in *. exact (reachable_next 9 _ Hprev). }
  destruct (carousel_stays_on_a_card Sample.artifact l _ Hl Hnext) as (Hrange & _).
  destruct (carousel_stays_on_a_card Sample.artifact l _ Hl Hprev)
    as (_ & (card & _ & Hrender) & _).
  split; [ exact Hrange | ].
  eexists. split; [ exact Hrender | reflexivity ].
Defined.

Lemma iter_next (k : nat) (i : Z) :
  0 <= i <= 8 -> Nat.iter k (nextInsight 9) i = (i + Z.of_nat k) mod 9.
Proof.
  intros Hi. induction k as [|k IH].
  - cbn. rewrite Z.add_0_r. symmetry. apply Z.mod_small. lia.
  - rewrite Nat.iter_succ, IH.
    pose proof (Z.mod_pos_bound (i + Z.of_nat k) 9).
    rewrite nextInsight_mod by lia.
    rewrite Zplus_mod_idemp_l. f_equal. lia.
Qed.

Lemma iter_prev (k : nat) (i : Z) :
  0 <= i <= 8 -> Nat.iter k (prevInsight 9) i = (i - Z.of_nat k) mod 9.
Proof.
  intros Hi. induction k as [|k IH].
  - cbn. rewrite Z.sub_0_r. symmetry. apply Z.mod_small. lia.
  - rewrite Nat.iter_succ, IH.
    pose proof (Z.mod_pos_bound (i - Z.of_nat k) 9).
    rewrite prevInsight_mod by lia.
    rewrite Zminus_mod_idemp_l. f_equal. lia.
Qed.

(** X16. Pressing an arrow [k] times moves the index by [k] modulo 9: nine
    presses of either arrow come back to the same card, and every card is
    reached from every other by at most eight presses of the right arrow. *)
Theorem carousel_cycles_through_all_cards (i : Z) :
  0 <= i <= 8 ->
  (forall k : nat, Nat.iter k (nextInsight 9) i = (i + Z.of_nat k) mod 9) /\
  (forall k : nat, Nat.iter k (prevInsight 9) i = (i - Z.of_nat k) mod 9) /\
  Nat.iter 9 (nextInsight 9) i = i /\
  Nat.iter 9 (prevInsight 9) i = i /\
  forall j, 0 <= j <= 8 ->
    exists k : nat, (k <= 8)%nat /\ Nat.iter k (nextInsight 9) i = j.
Proof.
  intros Hi.
  split; [ intros k; by apply iter_next | ].
  split; [ intros k; by apply iter_prev | ].
  split; [ rewrite iter_next by lia; rewrite <- (Z.mod_small i 9) at 2 by lia;
           replace (i + Z.of_nat 9) with (i + 1 * 9) by lia; apply Z.mod_add; lia | ].
  split; [ rewrite iter_prev by lia; rewrite <- (Z.mod_small i 9) at 2 by lia;
           replace (i - Z.of_nat 9) with (i + (-1) * 9) by lia; apply Z.mod_add; lia | ].
  intros j Hj. exists (Z.to_nat ((j - i) mod 9)).
  pose proof (Z.mod_pos_bound (j - i) 9).
  split; [ lia | ]. rewrite iter_next by lia. rewrite Z2Nat.id by lia.
  rewrite Zplus_mod_idemp_r. replace (i + (j - i)) with j by lia.
  apply Z.mod_small. lia.
Qed.

Lemma carousel_cycles_through_all_cards_witness :
  Nat.iter 9 (nextInsight 9) 4 = 4 /\
  exists k : nat, (k <= 8)%nat /\ Nat.iter k (nextInsight 9) 7 = 2.
Proof.
  split.
  - apply (carousel_cycles_through_all_cards 4). lia.
  - apply (carousel_cycles_through_all_cards 7); lia.
Defined.

End CarouselStates.

Section PageSettles.
Import Home.

(** X17. Whatever the outcome of the fetch, the promise chain ends fulfilled
    (the rejection is handled) with [loading] false, so the loading
    message is not shown again; [console.error] is called once exactly
    when the fetch failed; and a payload that was received but is falsy
    (null, false, 0, the empty string) is stored and shown as "Failed to
    load equity data" without anything being logged. *)
Theorem page_settles (fetched : Settled Response) :
  fst (loadEquity fetched initial) = Fulfilled tt /\
  loading (snd (loadEquity fetched initial)) = false /\
  settledPage fetched <> Ok (Message "Loading equity data...") /\
  (fetchFailed fetched = true ->
   exists err, console (snd (loadEquity fetched initial))
               = ["Failed to load equity data: " +:+ err]) /\
  (fetchFailed fetched = false ->
   console (snd (loadEquity fetched initial)) = []) /\
  (forall data,
      payload fetched = Some data -> truthy data = false ->
      equityData (snd (loadEquity fetched initial)) = data /\
      settledPage fetched = Ok (Message "Failed to load equity data")).
Proof.
  destruct (fetchFailed fetched) eqn:Hfail.
  - destruct (loadEquity_rejected fetched Hfail) as (err & Hload).
    unfold settledPage. rewrite Hload. cbn.
    split; [ reflexivity | ]. split; [ reflexivity | ].
    split; [ discriminate | ]. split; [ eauto | ]. split; [ discriminate | ].
    intros data Hp. exfalso. destruct fetched as [[[d|e]]|e]; cbn in *; congruence.
  - destruct (payload fetched) as [data|] eqn:Hp;
      [ | exfalso; destruct fetched as [[[d|e]]|e]; cbn in *; congruence ].
    unfold settledPage. rewrite (loadEquity_received fetched data Hp).
    unfold Home. cbn [fst snd loading equityData console].
    split; [ reflexivity | ]. split; [ reflexivity | ].
    split.
    { destruct (truthy data); cbn [negb]; [ | discriminate ].
      destruct (getMember (Some data) "metadata") as [metadata|]; [ | discriminate ].
      cbn [mbind Result_bind].
      destruct (getMember metadata "num_simulations") as [n|]; [ | discriminate ].
      cbn [mbind Result_bind].
      destruct (toLocaleString n); discriminate. }
    split; [ discriminate | ]. split; [ reflexivity | ].
    intros data' Hd Ht. injection Hd as <-. rewrite Ht. split; reflexivity.
Qed.

Lemma page_settles_witness :
  settledPage (Fulfilled {| json := Fulfilled JNull |})
  = Ok (Message "Failed to load equity data") /\
  console (snd (loadEquity (Fulfilled {| json := Fulfilled JNull |}) initial)) = [] /\
  exists err,
    console (snd (loadEquity (Rejected "TypeError: Failed to fetch") initial))
    = ["Failed to load equity data: " +:+ err].
Proof.
  destruct (page_settles (Fulfilled {| json := Fulfilled JNull |}))
    as (_ & _ & _ & _ & Hlog & Hfalsy).
  destruct (page_settles (Rejected "TypeError: Failed to fetch"))
    as (_ & _ & _ & Herr & _).
  split; [ apply (Hfalsy JNull); reflexivity | ].
  split; [ apply Hlog; reflexivity | apply Herr; reflexivity ].
Defined.

End PageSettles.

(** ** Complete artifacts *)

Section CompleteArtifacts.
Import EquityTrends.

Lemma presentPercentages_all (data : EquityData) (key : string) (hs : list string) :
  (forall hand, hand ∈ hs -> KeyInsights.hasEntry data (hand, key)) ->
  length (presentPercentages data key hs) = length hs.
Proof.
  unfold presentPercentages. induction hs as [|hand hs IH]; intros Hall; [ reflexivity | ].
  cbn [omap list_omap].
  destruct (proj1 (hasEntry_lookup data hand key) (Hall hand ltac:(left)))
    as (handData & playerData & -> & Hp).
  cbn. rewrite Hp. cbn. f_equal. apply IH. intros h Hh. apply Hall. by right.
Qed.

(** X14. With an artifact that has every label of the grid at every table
    size, [KeyInsights] builds its cards, and every value of the trend
    chart is the mean over all the hands of its category: no hand named in
    [KeyInsights] or in [handCategories] is missing from the grid. *)
Theorem complete_artifact_renders (data : EquityData) :
  complete data ->
  (exists l, KeyInsights.insights data = Ok l /\ length l = 9%nat) /\
  forall (players : Z) (category : string) (hs : list string),
    players ∈ EquityHeatmap.playerCounts ->
    (category, hs) ∈ handCategories ->
    length (presentPercentages data (playersKey players) hs) = length hs /\
    meanValue data players hs
    = PString (Num.toFixed1 (mean (presentPercentages data (playersKey players) hs))).
Proof.
  intros Hc. split.
  - destruct (insights_returns data) as [l Hl].
    + apply Forall_forall. intros [hand key] Hin. apply Hc.
      * revert Hin. unfold KeyInsights.requiredEntries.
        rewrite !elem_of_cons, elem_of_nil.
        intros H. repeat (destruct H as [H | H];
          [ injection H as -> ->; apply (bool_decide_unpack _); vm_compute; exact I | ]).
        destruct H.
      * revert Hin. unfold KeyInsights.requiredEntries.
        rewrite !elem_of_cons, elem_of_nil.
        intros H. repeat (destruct H as [H | H];
          [ injection H as -> ->; apply (bool_decide_unpack _); vm_compute; exact I | ]).
        destruct H.
    + exists l. split; [ exact Hl | exact (insights_length data l Hl) ].
  - intros players category hs Hp Hin.
    assert (length (presentPercentages data (playersKey players) hs) = length hs) as Hlen.
    { apply presentPercentages_all. intros hand Hhand. apply Hc.
      - revert Hin Hhand. unfold handCategories.
        rewrite !elem_of_cons, elem_of_nil.
        intros H. repeat (destruct H as [H | H];
          [ injection H as -> ->; rewrite !elem_of_cons, elem_of_nil; intros Hh;
            repeat (destruct Hh as [-> | Hh];
                    [ apply (bool_decide_unpack _); vm_compute; exact I | ]);
            destruct Hh | ]).
        destruct H.
      - apply list_elem_of_fmap. eauto. }
    split; [ exact Hlen | ].
    unfold meanValue.
    destruct (presentPercentages data (playersKey players) hs) eqn:E; [ | reflexivity ].
    exfalso. revert Hin Hlen. unfold handCategories.
    rewrite !elem_of_cons, elem_of_nil.
    intros H. repeat (destruct H as [H | H]; [ injection H as -> ->; discriminate | ]).
    destruct H.
Qed.

Lemma full_complete : complete Sample.full.
Proof.
  assert (Forall (fun hand =>
                    Forall (fun key => KeyInsights.hasEntry Sample.full (hand, key))
                           (map playersKey EquityHeatmap.playerCounts))
                 EquityHeatmap.gridLabels) as H
    by (apply (bool_decide_unpack _); vm_compute; exact I).
  intros hand key Hhand Hkey.
  rewrite Forall_forall in H. specialize (H hand Hhand).
  rewrite Forall_forall in H. exact (H key Hkey).
Qed.

Lemma complete_artifact_renders_witness :
  (exists l, KeyInsights.insights Sample.full = Ok l /\ length l = 9%nat) /\
  meanValue Sample.full 4 ["JTs"; "T9s"; "98s"; "87s"] = PString "50.0".
Proof.
  destruct (complete_artifact_renders Sample.full full_complete) as (Hins & Hmean).
  split; [ exact Hins | ].
  destruct (Hmean 4 "Suited Connectors" ["JTs"; "T9s"; "98s"; "87s"]) as (_ & ->).
  - apply (bool_decide_unpack _). vm_compute. exact I.
  - apply (bool_decide_unpack _). vm_compute. exact I.
  - vm_compute. reflexivity.
Defined.

End CompleteArtifacts.
